(** * Catalog resolution and format-preserving patching of npm-check-updates

    A shallow embedding of the section resolver ([getCurrentDependencies],
    [getCatalogDependencies]), the catalog patcher ([upgradeCatalogData] in
    its file-based and its pure revision), the catalog loader
    ([readCatalogDependencies], [getCatalogPackageInfo]), the catalog
    orchestration ([processCatalogs]) and the catalog branches of
    [upgradePackageData], with the properties the specification states about
    them and further properties of the code. *)

From Stdlib Require Import String Ascii List Bool Arith Lia.
Import ListNotations.
Local Open Scope string_scope.
Local Open Scope list_scope.

#[global] Arguments Ascii.eqb : simpl never.
#[global] Arguments String.eqb : simpl never.

(* ================================================================== *)
(** * JavaScript values used by the sources *)
(* ================================================================== *)

(** ** Exceptions

    A JavaScript expression either yields a value or throws.  [Thrown]
    carries the message of the exception. *)

Inductive outcome (A : Type) : Type :=
| Ok (a : A)
| Thrown (e : string).

Arguments Ok {A} a.
Arguments Thrown {A} e.

Definition obind {A B} (m : outcome A) (k : A -> outcome B) : outcome B :=
  match m with
  | Ok a => k a
  | Thrown e => Thrown e
  end.

Declare Scope outcome_scope.
Delimit Scope outcome_scope with outcome.
Notation "'let?' x ':=' m 'in' k" := (obind m (fun x => k))
  (at level 10, x name, m at level 100, k at level 200) : outcome_scope.
Local Open Scope outcome_scope.

Definition isOk {A} (m : outcome A) : bool :=
  match m with Ok _ => true | Thrown _ => false end.

(** ** Objects used as maps: [Index<T>]

    A JavaScript object with string keys, kept as the list of its own
    entries in insertion order, which is the order of [Object.entries].
    (Keys that look like array indices, which JavaScript enumerates first,
    are not told apart from the others.) *)

Definition Index (A : Type) : Type := list (string * A).

Module Obj.

(** [o[k]] among the own entries: [None] stands for [undefined]. *)
Fixpoint get {A} (k : string) (o : Index A) : option A :=
  match o with
  | [] => None
  | (k', v) :: r => if String.eqb k k' then Some v else get k r
  end.

(** [o[k] = v]: an existing key keeps its place, a new key goes last. *)
Fixpoint set {A} (k : string) (v : A) (o : Index A) : Index A :=
  match o with
  | [] => [(k, v)]
  | (k', v') :: r =>
      if String.eqb k k' then (k, v) :: r else (k', v') :: set k v r
  end.

(** [{ ...a, ...b }], also [Object.assign(a, b)]. *)
Definition assign {A} (a b : Index A) : Index A :=
  fold_left (fun acc kv => set (fst kv) (snd kv) acc) b a.

Definition keys {A} (o : Index A) : list string := map fst o.

Definition values {A} (o : Index A) : list A := map snd o.

Definition has {A} (k : string) (o : Index A) : bool :=
  match get k o with Some _ => true | None => false end.

(** Keys are pairwise different, as in every JavaScript object. *)
Fixpoint wf {A} (o : Index A) : bool :=
  match o with
  | [] => true
  | (k, _) :: r => negb (has k r) && wf r
  end.

Definition isEmpty {A} (o : Index A) : bool :=
  match o with [] => true | _ => false end.

End Obj.

(** [s.startsWith(p)] *)
Fixpoint startsWith (s p : string) : bool :=
  match p with
  | EmptyString => true
  | String a p' =>
      match s with
      | EmptyString => false
      | String b s' => Ascii.eqb a b && startsWith s' p'
      end
  end.

(** Truthiness of a string: every string but the empty one. *)
Definition truthyStr (s : string) : bool := negb (String.eqb s "").

Definition truthyOpt (o : option string) : bool :=
  match o with Some s => truthyStr s | None => false end.

(** The members that every object inherits from [Object.prototype].  They
    are functions, and [__proto__] is an object: each is truthy, none is a
    string, and [semver.validRange] is [null] on each. *)
Definition objectPrototype : list string :=
  ["constructor"; "hasOwnProperty"; "isPrototypeOf"; "propertyIsEnumerable";
   "toLocaleString"; "toString"; "valueOf"; "__proto__";
   "__defineGetter__"; "__defineSetter__"; "__lookupGetter__";
   "__lookupSetter__"].

Definition inherited (k : string) : bool :=
  existsb (String.eqb k) objectPrototype.

(** The truthiness of [o[k]] for an object [o] of strings: that of its own
    entry, and without an own entry that of the inherited member. *)
Definition truthyAt (k : string) (o : Index string) : bool :=
  match Obj.get k o with
  | Some s => truthyStr s
  | None => inherited k
  end.

(** [s.split(c)] for a one-character separator. *)
Fixpoint splitOn (c : ascii) (s : string) : list string :=
  match s with
  | EmptyString => [EmptyString]
  | String a r =>
      if Ascii.eqb a c then EmptyString :: splitOn c r
      else match splitOn c r with
           | [] => [String a EmptyString]
           | w :: ws => String a w :: ws
           end
  end.

(** [s.replace(p, '')] for a string pattern: the first occurrence of [p]
    is removed. *)
Fixpoint removeFirst (p s : string) : string :=
  if startsWith s p then String.substring (String.length p)
                              (String.length s - String.length p) s
  else match s with
       | EmptyString => EmptyString
       | String a r => String a (removeFirst p r)
       end.

(* ================================================================== *)
(** * The semver library *)
(* ================================================================== *)

(** The three functions of the [semver] package that [isGreaterThanSafe]
    calls.
    [validRange] stands for the truthiness of [semver.validRange(s)];
    [minVersion] is [None] where [semver.minVersion] returns [null] (a
    range no version satisfies); [gt] is [semver.gt] on parsed versions. *)

Class Semver : Type := {
  SemVer : Type;
  validRange : string -> bool;
  minVersion : string -> option SemVer;
  gt : SemVer -> SemVer -> bool
}.

(** [semver.gt] is a strict order, and no catalog reference is a range. *)
Class SemverLaws (S : Semver) : Prop := {
  gt_asym : forall a b : SemVer, gt a b = true -> gt b a = false;
  validRange_catalog :
    forall s, startsWith s "catalog:" = true -> validRange s = false
}.

(** A concrete instance on the fragment [x.y.z], [^x.y.z] and [~x.y.z],
    used to run the definitions on examples. *)
Module SimpleSemver.

Definition isDigit (a : ascii) : bool :=
  let n := nat_of_ascii a in ((48 <=? n) && (n <=? 57))%nat.

Fixpoint digitsAcc (s : string) (acc : nat) : option nat :=
  match s with
  | EmptyString => Some acc
  | String a r =>
      if isDigit a then digitsAcc r (10 * acc + (nat_of_ascii a - 48))%nat
      else None
  end.

Definition number (s : string) : option nat :=
  match s with
  | EmptyString => None
  | _ => digitsAcc s 0
  end.

Definition stripOperator (s : string) : string :=
  match s with
  | String a r =>
      if Ascii.eqb a "^"%char || Ascii.eqb a "~"%char then r else s
  | EmptyString => s
  end.

Definition parse (s : string) : option (nat * nat * nat) :=
  match splitOn "."%char (stripOperator s) with
  | [a; b; c] =>
      match number a, number b, number c with
      | Some x, Some y, Some z => Some (x, y, z)
      | _, _, _ => None
      end
  | _ => None
  end.

Definition valid (s : string) : bool :=
  match parse s with Some _ => true | None => false end.

Definition greater (a b : nat * nat * nat) : bool :=
  let '(a1, a2, a3) := a in
  let '(b1, b2, b3) := b in
  ((b1 <? a1) || ((b1 =? a1) && ((b2 <? a2) || ((b2 =? a2) && (b3 <? a3)))))%nat.

End SimpleSemver.

#[global] Instance simpleSemver : Semver := {|
  SemVer := nat * nat * nat;
  validRange := SimpleSemver.valid;
  minVersion := SimpleSemver.parse;
  gt := SimpleSemver.greater
|}.

(* ================================================================== *)
(** * Package files and options *)
(* ================================================================== *)

(** [PackageFile]: the parsed manifest.  [pkg_sections] holds the
    dependency sections (dependencies, devDependencies, ...) by name;
    [pkg_packageManager] is the [packageManager] field. *)
Record PackageFile : Type := {
  pkg_sections : Index (Index string);
  pkg_packageManager : option string
}.

(** [Options], the fields the modelled functions read.

    Modelled from the spec: resolveDepSections, filterAndReject and
    keyValueBy are not among the sources.  [opt_dep] is the ordered list of
    sections that [resolveDepSections(options.dep)] returns;
    [opt_filterAndReject] is the name/version predicate that
    [filterAndReject(options.filter, options.reject, options.filterVersion,
    options.rejectVersion)] builds, or the exception it throws on a
    malformed filter expression; [opt_workspacePackages] is the list of
    locally-owned workspace package names. *)
Record Options : Type := {
  opt_dep : list string;
  opt_workspacePackages : list string;
  opt_filterAndReject : outcome (string -> string -> bool);
  opt_packageManager : option string;
  opt_upgrade : bool
}.

(** Modelled from the spec: filterObject is not among the sources.  It keeps
    the entries of an object that satisfy a predicate on key and value; an
    exception of the predicate propagates. *)
Fixpoint filterObject {A} (o : Index A) (p : string -> A -> outcome bool)
  : outcome (Index A) :=
  match o with
  | [] => Ok []
  | (k, v) :: r =>
      let? b := p k v in
      let? r' := filterObject r p in
      Ok (if b then (k, v) :: r' else r')
  end.

(** Modelled from the spec: keyValueBy is not among the sources.
    [keyValueBy(names)[name]] is truthy exactly for the listed names. *)
Definition workspacePackageMap (names : list string) (name : string) : bool :=
  existsb (String.eqb name) names.

(** Modelled from the spec: programError is not among the sources.  It
    reports the message and ends the run. *)
Definition programError {A} (message : string) : outcome A := Thrown message.

(** The entries of an object whose values are defined. *)
Fixpoint definedEntries (o : Index (option string)) : Index string :=
  match o with
  | [] => []
  | (k, Some v) :: r => (k, v) :: definedEntries r
  | (_, None) :: r => definedEntries r
  end.

Definition someValues (o : Index string) : Index (option string) :=
  map (fun kv => (fst kv, Some (snd kv))) o.

(** [accum[dep]], where the key may be missing or bound to [undefined].
    An inherited member, on which [semver.validRange] is [null] as it is on
    [undefined], counts as missing. *)
Definition lookupSpec (dep : string) (accum : Index (option string))
  : option string :=
  match Obj.get dep accum with
  | Some v => v
  | None => None
  end.

(* ================================================================== *)
(** * Section resolution: getCurrentDependencies *)
(* ================================================================== *)

Section SectionResolver.

Context {semver : Semver}.

(** [isGreaterThanSafe(spec1, spec2)], as a boolean.  [spec2] is
    [undefined] when the accumulator has no entry; [semver.validRange]
    is [null] on [undefined].  [semver.gt] throws a [TypeError] when one
    of the minimum versions is [null]. *)
Definition isGreaterThanSafe (spec1 : string) (spec2 : option string)
  : outcome bool :=
  if validRange spec1 then
    match spec2 with
    | None => Ok false
    | Some s2 =>
        if validRange s2 then
          match minVersion spec1, minVersion s2 with
          | Some v1, Some v2 => Ok (gt v1 v2)
          | _, _ => Thrown "TypeError: Invalid version"
          end
        else Ok false
    end
  else Ok false.

(** [parsePackageManager(pkgData)]: [{ [name]: version }] from
    ["name@version"], the version being [undefined] without an [@]. *)
Definition parsePackageManager (pkgData : PackageFile)
  : Index (option string) :=
  match pkg_packageManager pkgData with
  | None => []
  | Some pm =>
      if truthyStr pm then
        match splitOn "@"%char pm with
        | [] => []
        | name :: rest => [(name, hd_error rest)]
        end
      else []
  end.

(** [(pkgData[depSection] as Index<string>) || {}] *)
Definition sectionOf (pkgData : PackageFile) (depSection : string)
  : Index string :=
  match Obj.get depSection (pkg_sections pkgData) with
  | Some o => o
  | None => []
  end.

(** One step of the [reduce] over the sections. *)
Definition mergeSection (pkgData : PackageFile)
    (accum : Index (option string)) (depSection : string)
  : outcome (Index (option string)) :=
  if String.eqb depSection "packageManager" then
    Ok (Obj.assign accum (parsePackageManager pkgData))
  else
    let? kept :=
      filterObject (sectionOf pkgData depSection)
        (fun dep spec =>
           let? g := isGreaterThanSafe spec (lookupSpec dep accum) in
           Ok (negb g)) in
    Ok (Obj.assign accum (someValues kept)).

Fixpoint mergeSections (pkgData : PackageFile) (depSections : list string)
    (accum : Index (option string)) : outcome (Index (option string)) :=
  match depSections with
  | [] => Ok accum
  | s :: rest =>
      let? accum' := mergeSection pkgData accum s in
      mergeSections pkgData rest accum'
  end.

(** The predicate of the inner [filterObject]:
    [!workspacePackageMap[name] && !version.startsWith('catalog:')]. *)
Definition notWorkspaceNorCatalog (options : Options)
    (name : string) (version : option string) : outcome bool :=
  if workspacePackageMap (opt_workspacePackages options) name then Ok false
  else match version with
       | Some v => Ok (negb (startsWith v "catalog:"))
       | None => Thrown "TypeError: Cannot read properties of undefined"
       end.

(** The body of the [try] block. *)
Definition filterDependencies (options : Options)
    (allDependencies : Index (option string)) : outcome (Index string) :=
  let? inner := filterObject allDependencies (notWorkspaceNorCatalog options) in
  let? pred := opt_filterAndReject options in
  filterObject (definedEntries inner) (fun name version => Ok (pred name version)).

Definition getCurrentDependencies (pkgData : PackageFile) (options : Options)
  : outcome (Index string) :=
  let? allDependencies := mergeSections pkgData (opt_dep options) [] in
  match filterDependencies options allDependencies with
  | Ok filteredDependencies => Ok filteredDependencies
  | Thrown err => programError ("Invalid filter: " ++ err)
  end.

(** [getCatalogDependencies]: the entries that reference a catalog. *)
Definition catalogSection (pkgData : PackageFile)
    (accum : Index string) (depSection : string) : outcome (Index string) :=
  let? catalogDependencies :=
    filterObject (sectionOf pkgData depSection)
      (fun _ version => Ok (startsWith version "catalog:")) in
  Ok (Obj.assign accum catalogDependencies).

Fixpoint catalogSections (pkgData : PackageFile) (depSections : list string)
    (accum : Index string) : outcome (Index string) :=
  match depSections with
  | [] => Ok accum
  | s :: rest =>
      let? accum' := catalogSection pkgData accum s in
      catalogSections pkgData rest accum'
  end.

Definition getCatalogDependencies (pkgData : PackageFile) (options : Options)
  : outcome (Index string) :=
  let? allDependencies := catalogSections pkgData (opt_dep options) [] in
  let body :=
    let? inner :=
      filterObject allDependencies
        (fun name _ =>
           Ok (negb (workspacePackageMap (opt_workspacePackages options) name))) in
    let? pred := opt_filterAndReject options in
    filterObject inner (fun name version => Ok (pred name version)) in
  match body with
  | Ok filteredDependencies => Ok filteredDependencies
  | Thrown err => programError ("Invalid filter: " ++ err)
  end.

End SectionResolver.

(** Options that select the given sections and filter nothing. *)
Definition plainOptions (sections : list string) : Options := {|
  opt_dep := sections;
  opt_workspacePackages := [];
  opt_filterAndReject := Ok (fun _ _ => true);
  opt_packageManager := None;
  opt_upgrade := true
|}.

(* ================================================================== *)
(** * Documents: the content of a catalog file *)
(* ================================================================== *)

(** The tree of values that a parser reads from a YAML or JSON text. *)

#[warnings="-register-all"]
Inductive value : Type :=
| VNull
| VBool (b : bool)
| VNum (n : nat)
| VStr (s : string)
| VArr (items : list value)
| VObj (members : list (string * value)).

(** The text of a file: the tree that the parsers read from it, and two
    properties of its bytes that the tree does not tell.  [indentation]
    stands for the layout of the text: the width of a level, the spacing,
    the breaks of the lines.  [relaxed] says that the text has comments
    (or, in JSON, trailing commas): the document of [yaml] and the edits of
    [jsonc-parser] keep them, and [JSON.parse] refuses them.  Two texts are
    byte-identical when they are equal.  A text that no parser reads is not
    represented. *)
Record Text : Type := {
  tree :> value;
  indentation : nat;
  relaxed : bool
}.

(** The text with another tree, every other byte as it stands. *)
Definition withTree (text : Text) (t : value) : Text :=
  {| tree := t; indentation := indentation text; relaxed := relaxed text |}.

(** The text that a library prints for a tree with its own layout and
    without comments: [JSON.stringify(v, null, 2)], and [doc.toString()] of
    [yaml] for a document that has no comments. *)
Definition printed (v : value) : Text :=
  {| tree := v; indentation := 2; relaxed := false |}.

(** JavaScript truthiness. *)
Definition truthy (v : value) : bool :=
  match v with
  | VNull => false
  | VBool b => b
  | VNum n => negb (Nat.eqb n 0)
  | VStr s => truthyStr s
  | VArr _ => true
  | VObj _ => true
  end.

Definition isArray (v : value) : bool :=
  match v with VArr _ => true | _ => false end.

(** [v.k] on a parsed JSON value: [None] is [undefined]. *)
Definition prop (k : string) (v : value) : option value :=
  match v with
  | VObj ms => Obj.get k ms
  | _ => None
  end.

Definition truthyProp (k : string) (v : value) : bool :=
  match prop k v with Some x => truthy x | None => false end.

(** [doc.getIn(path)] of [yaml] and [findNodeAtLocation(root, path)] of
    [jsonc-parser], for a path of property names: [None] is [undefined]. *)
Fixpoint getIn (path : list string) (d : value) : option value :=
  match path with
  | [] => Some d
  | k :: rest =>
      match d with
      | VObj ms =>
          match Obj.get k ms with
          | Some c => getIn rest c
          | None => None
          end
      | _ => None
      end
  end.

Definition exists_at (path : list string) (d : value) : bool :=
  match getIn path d with Some _ => true | None => false end.

(** The nested object [{ k1: { k2: ... v } }] that both libraries build for
    the missing tail of a path. *)
Fixpoint wrapPath (path : list string) (v : value) : value :=
  match path with
  | [] => v
  | k :: rest => VObj [(k, wrapPath rest v)]
  end.

(** [doc.setIn(path, v)] of [yaml], and the tree of the text that
    [applyEdits(text, modify(text, path, v, options))] of [jsonc-parser]
    yields: the node at the path is replaced; a missing property is added
    last; a step into a node that is not an object throws. *)
Fixpoint setIn (path : list string) (v : value) (d : value) : outcome value :=
  match path with
  | [] => Ok v
  | k :: rest =>
      match d with
      | VObj ms =>
          match Obj.get k ms with
          | Some c =>
              let? c' := setIn rest v c in
              Ok (VObj (Obj.set k c' ms))
          | None => Ok (VObj (Obj.set k (wrapPath rest v) ms))
          end
      | _ => Thrown "Error: not a collection"
      end
  end.

(** ** yaml *)

(** The document that [parseDocument(text)] builds: the tree of the text
    and its comments.  The layout of the text is not part of it. *)
Record Document : Type := {
  doc_contents : value;
  doc_comments : bool
}.

Definition parseDocument (fileContent : Text) : Document :=
  {| doc_contents := tree fileContent; doc_comments := relaxed fileContent |}.

(** The document after [doc.setIn] has changed its contents in place. *)
Definition withContents (doc : Document) (c : value) : Document :=
  {| doc_contents := c; doc_comments := doc_comments doc |}.

(** [doc.toString()] prints the document again: the comments are kept, and
    the layout is that of the library, whatever the layout of the text that
    was parsed. *)
Definition toString (doc : Document) : Text :=
  {| tree := doc_contents doc; indentation := 2; relaxed := doc_comments doc |}.

(** [parse(text)] *)
Definition parse (text : Text) : value := tree text.

(** ** JSON *)

Module JSON.

(** [JSON.parse(text)]: a [SyntaxError] on a text that is not strict
    JSON. *)
Definition parse (text : Text) : outcome value :=
  if relaxed text then Thrown "SyntaxError: Unexpected token in JSON"
  else Ok (tree text).

(** [JSON.stringify(v, null, 2)] *)
Definition stringify (v : value) : Text := printed v.

End JSON.

(** [v.k] for a [v] that may be [null]: reading a property of [null]
    throws a [TypeError]. *)
Definition member (k : string) (v : value) : outcome (option value) :=
  match v with
  | VNull => Thrown "TypeError: Cannot read properties of null"
  | _ => Ok (prop k v)
  end.

(** ** jsonc-parser *)

(** An edit of [jsonc-parser]: the place of a node and its new content. *)
Record Edit : Type := {
  edit_path : list string;
  edit_content : value
}.

(** [parseTree(text)] reads comments and trailing commas. *)
Definition parseTree (text : Text) : value := tree text.

Definition findNodeAtLocation (root : value) (path : list string) : bool :=
  exists_at path root.

(** [modify(text, path, v, options)] computes the edit that replaces the
    node at the path; [applyEdits(text, edits)] carries it out and leaves
    every other byte of the text as it stands. *)
Definition modify (text : Text) (path : list string) (v : string)
  : outcome (list Edit) :=
  let? _ := setIn path (VStr v) (tree text) in
  Ok [{| edit_path := path; edit_content := VStr v |}].

Definition applyEdits (text : Text) (edits : list Edit) : Text :=
  withTree text
    (fold_left
       (fun t e =>
          match setIn (edit_path e) (edit_content e) t with
          | Ok t' => t'
          | Thrown _ => t
          end)
       edits (tree text)).

(** ** Strings as version maps *)

(** The entries of a parsed object that are strings, as an
    [Index<VersionSpec>]; values of another type fall outside the declared
    type and are left out. *)
Fixpoint stringEntries (ms : list (string * value)) : Index string :=
  match ms with
  | [] => []
  | (k, VStr s) :: r => (k, s) :: stringEntries r
  | _ :: r => stringEntries r
  end.

Definition asIndex (v : value) : Index string :=
  match v with
  | VObj ms => stringEntries ms
  | _ => []
  end.

(** The own entries of a parsed value, as [Object.entries] lists them. *)
Definition entriesOf (v : value) : list (string * value) :=
  match v with
  | VObj ms => ms
  | _ => []
  end.

(** ** Paths of the file system *)

(** The text after and before the last occurrence of a character. *)
Fixpoint afterLast (c : ascii) (s : string) : option string :=
  match s with
  | EmptyString => None
  | String a r =>
      match afterLast c r with
      | Some t => Some t
      | None => if Ascii.eqb a c then Some r else None
      end
  end.

Fixpoint beforeLast (c : ascii) (s : string) : option string :=
  match s with
  | EmptyString => None
  | String a r =>
      match beforeLast c r with
      | Some t => Some (String a t)
      | None => if Ascii.eqb a c then Some EmptyString else None
      end
  end.

(** [path.basename] *)
Definition basename (p : string) : string :=
  match afterLast "/"%char p with Some b => b | None => p end.

(** [path.dirname] *)
Definition dirname (p : string) : string :=
  match beforeLast "/"%char p with
  | Some EmptyString => "/"
  | Some d => d
  | None => "."
  end.

(** [path.join] of a directory and a file name. *)
Definition join (dir file : string) : string :=
  if String.eqb dir "." then file else dir ++ "/" ++ file.

(** [path.extname]: from the last dot of the base name, unless the base
    name starts with it. *)
Definition extname (p : string) : string :=
  let b := basename p in
  match beforeLast "."%char b, afterLast "."%char b with
  | Some EmptyString, _ => ""
  | Some _, Some e => String "."%char e
  | _, _ => ""
  end.

(* ================================================================== *)
(** * The catalog patcher on file content: upgradeCatalogData *)
(* ================================================================== *)

(** A left fold whose step may throw: [forEach] and [reduce] with a
    callback that calls into a library. *)
Fixpoint foldOutcome {A B} (f : A -> B -> outcome A) (l : list B) (a : A)
  : outcome A :=
  match l with
  | [] => Ok a
  | x :: r => let? a' := f a x in foldOutcome f r a'
  end.

(** [const v = doc.getIn(path); if (v !== undefined) doc.setIn(path, newVersion)] *)
Definition setIfPresent (path : list string) (newVersion : string) (doc : value)
  : outcome value :=
  match getIn path doc with
  | Some _ => setIn path (VStr newVersion) doc
  | None => Ok doc
  end.

(** [a === b] for a possibly undefined [a] and a string [b].  An inherited
    member is no string, and compares like [undefined]. *)
Definition strictEq (a : option string) (b : string) : bool :=
  match a with
  | Some s => String.eqb s b
  | None => false
  end.

(** The revision that receives the file content and its extension. *)
Module Pure.

(** The body of the [forEach] of [upgradeYamlCatalogData], on the contents
    of the document, which [doc.setIn] changes in place. *)
Definition yamlStep (catalogName : string) (doc : value)
    (entry : string * string) : outcome value :=
  let '(dep, newVersion) := entry in
  if String.eqb catalogName "default" then
    let? doc1 := setIfPresent ["catalog"; dep] newVersion doc in
    setIfPresent ["catalogs"; "default"; dep] newVersion doc1
  else
    setIfPresent ["catalogs"; catalogName; dep] newVersion doc.

Definition upgradeYamlCatalogData (fileContent : Text) (catalogName : string)
    (current upgraded : Index string) : outcome Text :=
  let doc := parseDocument fileContent in
  let? contents' :=
    foldOutcome (yamlStep catalogName)
      (filter (fun e => truthyAt (fst e) current) upgraded) (doc_contents doc) in
  Ok (toString (withContents doc contents')).

(** [workspaceNode && workspaceNode.type !== 'array' &&
     (findNodeAtLocation(workspaceNode, ['catalog']) ||
      findNodeAtLocation(workspaceNode, ['catalogs']))] *)
Definition hasWorkspacesCatalogs (fileRoot : value) : bool :=
  match getIn ["workspaces"] fileRoot with
  | Some workspaceNode =>
      negb (isArray workspaceNode)
      && (findNodeAtLocation workspaceNode ["catalog"]
          || findNodeAtLocation workspaceNode ["catalogs"])
  | None => false
  end.

Definition keyPath (catalogName dep : string) : list string :=
  if truthyStr catalogName then ["catalogs"; catalogName; dep]
  else ["catalog"; dep].

(** The body of the [reduce] of [upgradeJsonCatalogData]. *)
Definition jsonStep (fileRoot : value) (catalogName : string)
    (current : Index string) (content : Text) (entry : string * string)
  : outcome Text :=
  let '(dep, newVersion) := entry in
  let currentVersion := Obj.get dep current in
  if strictEq currentVersion newVersion then Ok content
  else
    let kp := keyPath catalogName dep in
    let? endResult :=
      if findNodeAtLocation fileRoot kp then
        let? edits := modify content kp newVersion in
        Ok (applyEdits content edits)
      else Ok content in
    if hasWorkspacesCatalogs fileRoot
       && findNodeAtLocation fileRoot ("workspaces" :: kp) then
      let? edits := modify content ("workspaces" :: kp) newVersion in
      Ok (applyEdits content edits)
    else Ok endResult.

Definition upgradeJsonCatalogData (fileContent : Text) (catalogName : string)
    (current upgraded : Index string) : outcome Text :=
  let fileRoot := parseTree fileContent in
  foldOutcome (jsonStep fileRoot catalogName current) upgraded fileContent.

Definition upgradeCatalogData (fileContent : Text) (fileExtension : string)
    (catalogName : string) (current upgraded : Index string) : outcome Text :=
  if String.eqb fileExtension ".yaml" || String.eqb fileExtension ".yml" then
    upgradeYamlCatalogData fileContent catalogName current upgraded
  else if String.eqb fileExtension ".json" then
    upgradeJsonCatalogData fileContent catalogName current upgraded
  else Thrown ("Unsupported catalog file type: " ++ fileExtension).

End Pure.

(* ================================================================== *)
(** * The file system *)
(* ================================================================== *)

(** What a run does to the file system, in the order it does it. *)
Inductive Event : Type :=
| EvRead (path : string)
| EvWrite (path : string) (content : Text)
| EvConsoleError (message : string).

(** The files by path, and the trace of the run so far. *)
Record World : Type := {
  files : Index Text;
  trace : list Event
}.

(** An asynchronous function of the sources: it reads and changes the
    world, and resolves to a value or rejects. *)
Definition IO (A : Type) : Type := World -> outcome A * World.

Definition ioRet {A} (a : A) : IO A := fun w => (Ok a, w).

Definition ioBind {A B} (m : IO A) (k : A -> IO B) : IO B :=
  fun w =>
    match m w with
    | (Ok a, w') => k a w'
    | (Thrown e, w') => (Thrown e, w')
    end.

Definition ioLift {A} (m : outcome A) : IO A := fun w => (m, w).

(** [try { m } catch (e) { handler(e) }] *)
Definition tryCatch {A} (m : IO A) (handler : string -> IO A) : IO A :=
  fun w =>
    match m w with
    | (Ok a, w') => (Ok a, w')
    | (Thrown e, w') => handler e w'
    end.

Declare Scope io_scope.
Delimit Scope io_scope with io.
Notation "'do' x <- m ; k" := (ioBind m (fun x => k))
  (at level 10, x name, m at level 100, k at level 200) : io_scope.
Local Open Scope io_scope.

Definition logEvent (e : Event) (w : World) : World :=
  {| files := files w; trace := trace w ++ [e] |}.

(** [fs.readFile(path, 'utf-8')] *)
Definition readFile (path : string) : IO Text :=
  fun w =>
    match Obj.get path (files w) with
    | Some content => (Ok content, logEvent (EvRead path) w)
    | None => (Thrown "ENOENT", logEvent (EvRead path) w)
    end.

(** [fs.writeFile(path, content, 'utf-8')] *)
Definition writeFile (path : string) (content : Text) : IO unit :=
  fun w =>
    (Ok tt,
     {| files := Obj.set path content (files w);
        trace := trace w ++ [EvWrite path content] |}).

(** [console.error(message)] *)
Definition consoleError (message : string) : IO unit :=
  fun w => (Ok tt, logEvent (EvConsoleError message) w).

(** [findUp(name, { cwd })]: the path of the nearest file of that name.
    The working directory is the root of the workspace, whose files are
    named by their path from it. *)
Definition findUp (name : string) : IO (option string) :=
  fun w => (Ok (if Obj.has name (files w) then Some name else None), w).

(** A [for ... of] loop with [await] in its body. *)
Fixpoint forEachIO {A B} (f : A -> B -> IO A) (l : list B) (a : A) : IO A :=
  match l with
  | [] => ioRet a
  | x :: r => do a' <- f a x; forEachIO f r a'
  end.

(** The writes of a trace, in order. *)
Fixpoint writesOf (t : list Event) : list (string * Text) :=
  match t with
  | [] => []
  | EvWrite p c :: r => (p, c) :: writesOf r
  | _ :: r => writesOf r
  end.

(** The paths read, in order. *)
Fixpoint readsOf (t : list Event) : list string :=
  match t with
  | [] => []
  | EvRead p :: r => p :: readsOf r
  | _ :: r => readsOf r
  end.

(* ================================================================== *)
(** * The catalog patcher on a file path *)
(* ================================================================== *)

(** The revision that receives the path of the catalog file and reads it. *)
Module OnFile.

Definition upgradeYamlCatalogData (filePath catalogName : string)
    (current upgraded : Index string) : IO Text :=
  do fileContent <- readFile filePath;
  let doc := parseDocument fileContent in
  ioLift (let? contents' :=
            foldOutcome (Pure.yamlStep catalogName)
              (filter (fun e => truthyAt (fst e) current) upgraded)
              (doc_contents doc) in
          Ok (toString (withContents doc contents'))).

(** [fileData.workspaces && !Array.isArray(fileData.workspaces) &&
     fileData.workspaces.<key>] *)
Definition workspacesHas (key : string) (fileData : value) : outcome bool :=
  let? workspaces := member "workspaces" fileData in
  match workspaces with
  | Some ws => Ok (truthy ws && negb (isArray ws) && truthyProp key ws)
  | None => Ok false
  end.

Definition keyPath (catalogName dep : string) : list string :=
  if String.eqb catalogName "default" then ["catalog"; dep]
  else ["catalogs"; catalogName; dep].

(** The body of the [reduce] of [upgradeJsonCatalogData]. *)
Definition jsonStep (hasWorkspacesCatalog hasWorkspacesCatalogs : bool)
    (fileRoot : value) (catalogName : string)
    (current : Index string) (content : Text) (entry : string * string)
  : outcome Text :=
  let '(dep, newVersion) := entry in
  let currentVersion := Obj.get dep current in
  if strictEq currentVersion newVersion then Ok content
  else
    let kp := keyPath catalogName dep in
    let? endResult :=
      if findNodeAtLocation fileRoot kp then
        let? edits := modify content kp newVersion in
        Ok (applyEdits content edits)
      else Ok content in
    if ((hasWorkspacesCatalog && String.eqb catalogName "default")
        || (hasWorkspacesCatalogs && negb (String.eqb catalogName "default")))
       && findNodeAtLocation fileRoot ("workspaces" :: kp) then
      let? edits := modify content ("workspaces" :: kp) newVersion in
      Ok (applyEdits content edits)
    else Ok endResult.

Definition upgradeJsonCatalogData (filePath catalogName : string)
    (current upgraded : Index string) : IO Text :=
  do fileContent <- readFile filePath;
  ioLift (let? fileData := JSON.parse fileContent in
          let fileRoot := parseTree fileContent in
          let? hasWorkspacesCatalog := workspacesHas "catalog" fileData in
          let? hasWorkspacesCatalogs := workspacesHas "catalogs" fileData in
          foldOutcome
            (jsonStep hasWorkspacesCatalog hasWorkspacesCatalogs fileRoot
               catalogName current)
            upgraded fileContent).

Definition upgradeCatalogData (filePath catalogName : string)
    (current upgraded : Index string) : IO Text :=
  let fileExtension := extname filePath in
  if String.eqb fileExtension ".yaml" || String.eqb fileExtension ".yml" then
    upgradeYamlCatalogData filePath catalogName current upgraded
  else if String.eqb fileExtension ".json" then
    upgradeJsonCatalogData filePath catalogName current upgraded
  else ioLift (Thrown ("Unsupported catalog file type: " ++ filePath)).

End OnFile.

(* ================================================================== *)
(** * Loading the catalogs: readCatalogDependencies *)
(* ================================================================== *)

(** [readPnpmWorkspaces]: the parsed [pnpm-workspace.yaml] next to the
    package file, or [null]. *)
Definition readPnpmWorkspaces (pkgPath : string) : IO (option value) :=
  let pnpmWorkspacesPath := join (dirname pkgPath) "pnpm-workspace.yaml" in
  do pnpmWorkspaceFile <-
    tryCatch
      (do text <- readFile pnpmWorkspacesPath; ioRet (Some text))
      (fun _ => ioRet None);
  match pnpmWorkspaceFile with
  | Some text => ioRet (Some (parse text))
  | None => ioRet None
  end.

(** [{ ...catalogDependencies[name], ...catalogDeps }] stored under [name]. *)
Definition mergeCatalog (name : string) (catalogDeps : value)
    (catalogDependencies : Index (Index string)) : Index (Index string) :=
  let old := match Obj.get name catalogDependencies with
             | Some o => o
             | None => []
             end in
  Obj.set name (Obj.assign old (asIndex catalogDeps)) catalogDependencies.

(** The default catalog and the named catalogs of one object, which is
    the package data or its [workspaces] property. *)
Definition addCatalogsOf (holder : value)
    (catalogDependencies : Index (Index string)) : Index (Index string) :=
  let cd1 :=
    match prop "catalog" holder with
    | Some c => if truthy c then mergeCatalog "default" c catalogDependencies
                else catalogDependencies
    | None => catalogDependencies
    end in
  match prop "catalogs" holder with
  | Some cs =>
      if truthy cs then
        fold_left (fun cd e => mergeCatalog (fst e) (snd e) cd) (entriesOf cs) cd1
      else cd1
  | None => cd1
  end.

Definition readCatalogDependencies (options : Options) (pkgPath : string)
  : IO (option (Index (Index string))) :=
  do cd0 <-
    (match opt_packageManager options with
     | Some "pnpm" =>
         do pnpmWorkspaces <- readPnpmWorkspaces pkgPath;
         match pnpmWorkspaces with
         | Some ws =>
             if truthy ws && negb (isArray ws) && truthyProp "catalogs" ws then
               match prop "catalogs" ws with
               | Some cs =>
                   ioRet (Obj.assign []
                            (map (fun e => (fst e, asIndex (snd e))) (entriesOf cs)))
               | None => ioRet []
               end
             else ioRet []
         | None => ioRet []
         end
     | _ => ioRet []
     end);
  do packageData <-
    tryCatch
      (do packageJson <- readFile pkgPath;
       do data <- ioLift (JSON.parse packageJson);
       ioRet (Some data))
      (fun error =>
         if String.eqb error "ENOENT" then ioRet None else ioLift (Thrown error));
  match packageData with
  | None => ioRet None
  | Some VNull => ioLift (Thrown "TypeError: Cannot read properties of null")
  | Some packageData =>
      let cd1 := addCatalogsOf packageData cd0 in
      let cd2 :=
        match prop "workspaces" packageData with
        | Some ws =>
            if truthy ws && negb (isArray ws) then addCatalogsOf ws cd1 else cd1
        | None => cd1
        end in
      ioRet (if Obj.isEmpty cd2 then None else Some cd2)
  end.

(* ================================================================== *)
(** * The catalog orchestration: processCatalogs *)
(* ================================================================== *)

(** [PackageInfo]: package data plus its file path. *)
Record PackageInfo : Type := {
  pi_name : option string;
  pi_pkg : PackageFile;
  pi_pkgFile : Text;
  pi_filepath : string
}.

(** [set.add(x)] on a [Set<string>] kept in insertion order. *)
Definition setAdd (x : string) (s : list string) : list string :=
  if existsb (String.eqb x) s then s else s ++ [x].

Section Orchestration.

(** Modelled from the spec: upgradePackageDefinitions is not among the
    sources.  It is the external resolver of desired versions: from the
    current versions it yields the map of the dependencies to upgrade with
    their new version (the first component of its result). *)
Variable upgradePackageDefinitions : Index string -> Options -> Index string.

(** The body of the [forEach] that collects the references of a package.
    For a catalog name that is the name of an inherited member,
    [catalogReferences[catalogName]] is that member: no set is made, and
    the call of [add] on the member throws. *)
Definition addReference (catalogReferences : Index (list string))
    (entry : string * string) : outcome (Index (list string)) :=
  let '(pkgName, catalogRef) := entry in
  let catalogName := removeFirst "catalog:" catalogRef in
  match Obj.get catalogName catalogReferences with
  | Some refs => Ok (Obj.set catalogName (setAdd pkgName refs) catalogReferences)
  | None =>
      if inherited catalogName
      then Thrown "TypeError: catalogReferences[catalogName].add is not a function"
      else Ok (Obj.set catalogName (setAdd pkgName []) catalogReferences)
  end.

Definition collectReferences (options : Options) (packageInfos : list PackageInfo)
  : outcome (Index (list string)) :=
  foldOutcome
    (fun catalogReferences packageInfo =>
       let? catalogDeps := getCatalogDependencies (pi_pkg packageInfo) options in
       foldOutcome addReference catalogDeps catalogReferences)
    packageInfos [].

(** The callback of the [map] over the catalog references: the upgrades of
    one catalog, or nothing.  The referenced versions are the own entries
    of the catalog. *)
Definition upgradesOfCatalog (options : Options)
    (catalogDependencies : Index (Index string))
    (entry : string * list string) : Index (Index string) :=
  let '(catalogName, pkgNames) := entry in
  match Obj.get ("catalog:" ++ catalogName) catalogDependencies with
  | None => []
  | Some catalogDeps =>
      let referencedCatalogDeps :=
        fold_left
          (fun acc pkgName =>
             match Obj.get pkgName catalogDeps with
             | Some v => if truthyStr v then Obj.set pkgName v acc else acc
             | None => acc
             end)
          pkgNames [] in
      let upgradedCatalogDeps :=
        upgradePackageDefinitions referencedCatalogDeps options in
      if Obj.isEmpty upgradedCatalogDeps then []
      else [(catalogName, upgradedCatalogDeps)]
  end.

(** [Object.assign({}, ...results)] *)
Definition checkUpgrades (options : Options)
    (catalogDependencies : Index (Index string))
    (catalogReferences : Index (list string)) : Index (Index string) :=
  fold_left Obj.assign
    (map (upgradesOfCatalog options catalogDependencies) catalogReferences) [].

(** The search for the catalog file. *)
Definition findCatalogFile (options : Options) : IO (option string) :=
  do fromPnpm <-
    (match opt_packageManager options with
     | Some "pnpm" => findUp "pnpm-workspace.yaml"
     | _ => ioRet None
     end);
  match fromPnpm with
  | Some p => ioRet (Some p)
  | None =>
      do packageJsonPath <- findUp "package.json";
      match packageJsonPath with
      | None => ioRet None
      | Some p =>
          do packageJsonContent <- readFile p;
          do packageData <- ioLift (JSON.parse packageJsonContent);
          match packageData with
          | VNull => ioLift (Thrown "TypeError: Cannot read properties of null")
          | _ =>
              if truthyProp "catalog" packageData
                 || truthyProp "catalogs" packageData
                 || (truthyProp "workspaces" packageData
                     && match prop "workspaces" packageData with
                        | Some ws =>
                            negb (isArray ws)
                            && (truthyProp "catalog" ws || truthyProp "catalogs" ws)
                        | None => false
                        end)
              then ioRet (Some p)
              else ioRet None
          end
      end
  end.

(** The body of the loop over the upgraded catalogs: one call of
    [upgradeCatalogData] on the path, and one write. *)
Definition applyCatalog (catalogDependencies : Index (Index string))
    (catalogFilePath : string) (fileContent : Text)
    (entry : string * Index string) : IO Text :=
  let '(catalogName, upgradedDeps) := entry in
  let currentCatalogDeps :=
    match Obj.get ("catalog:" ++ catalogName) catalogDependencies with
    | Some c => c
    | None => []
    end in
  if negb (Obj.isEmpty upgradedDeps) then
    let catalogNameForUpgrade :=
      if String.eqb catalogName "" then "default" else catalogName in
    do fileContent' <-
      OnFile.upgradeCatalogData catalogFilePath catalogNameForUpgrade
        currentCatalogDeps upgradedDeps;
    do _ <- writeFile catalogFilePath fileContent';
    ioRet fileContent'
  else ioRet fileContent.

Definition processCatalogs (options : Options) (packageInfos : list PackageInfo)
    (catalogDependencies : option (Index (Index string))) : IO unit :=
  match catalogDependencies with
  | None => ioRet tt
  | Some cds =>
      if Obj.isEmpty cds then ioRet tt
      else
        do catalogReferences <- ioLift (collectReferences options packageInfos);
        if Obj.isEmpty catalogReferences then ioRet tt
        else
          let upgradedCatalogDeps := checkUpgrades options cds catalogReferences in
          if negb (Obj.isEmpty upgradedCatalogDeps) then
            do catalogFilePath <- findCatalogFile options;
            match catalogFilePath with
            | Some path =>
                if opt_upgrade options then
                  tryCatch
                    (do fileContent <- readFile path;
                     do _ <- forEachIO (applyCatalog cds path)
                               upgradedCatalogDeps fileContent;
                     ioRet tt)
                    (fun error =>
                       consoleError ("Error updating catalog file " ++ path
                                     ++ ": " ++ error))
                else ioRet tt
            | None => ioRet tt
            end
          else ioRet tt
  end.

End Orchestration.

(** The resolver of the examples: a dependency is upgraded when the
    desired map has another version for it. *)
Definition desiredVersions (desired : Index string)
    (current : Index string) (_ : Options) : Index string :=
  fold_left
    (fun acc e =>
       match Obj.get (fst e) desired with
       | Some v => if String.eqb v (snd e) then acc else Obj.set (fst e) v acc
       | None => acc
       end)
    current [].

(* ================================================================== *)
(** * The earlier orchestration, which flattens the catalogs *)
(* ================================================================== *)

(** The revision of processCatalogs that merges all catalogs into one map
    and calls upgradeCatalogData once, with the revision of
    upgradeCatalogData that takes no catalog name. *)
Module Flattened.

Section FlatOrchestration.

Variable upgradePackageDefinitions : Index string -> Options -> Index string.

(** The text transformations of this revision of upgradeCatalogData work
    on the raw text, the JSON one with regular expressions and the YAML
    one through the internals of the [yaml] document; they are taken as
    parameters. *)
Variable patchYaml : Text -> Index string -> Index string -> outcome Text.
Variable patchJson : Text -> Index string -> Index string -> outcome Text.

Definition upgradeCatalogData (filePath : string)
    (current upgraded : Index string) : IO Text :=
  let fileExtension := extname filePath in
  if String.eqb fileExtension ".yaml" || String.eqb fileExtension ".yml" then
    do fileContent <- readFile filePath;
    ioLift (patchYaml fileContent current upgraded)
  else if String.eqb fileExtension ".json" then
    do fileContent <- readFile filePath;
    ioLift (patchJson fileContent current upgraded)
  else ioLift (Thrown ("Unsupported catalog file type: " ++ filePath)).

(** The references, by package name.  For a package whose name is the
    name of an inherited member, the call of [add] on the member throws. *)
Definition addReference (catalogReferences : Index (list string))
    (entry : string * string) : outcome (Index (list string)) :=
  let '(pkgName, catalogRef) := entry in
  let catalogName := removeFirst "catalog:" catalogRef in
  match Obj.get pkgName catalogReferences with
  | Some refs => Ok (Obj.set pkgName (setAdd catalogName refs) catalogReferences)
  | None =>
      if inherited pkgName
      then Thrown "TypeError: catalogReferences[pkgName].add is not a function"
      else Ok (Obj.set pkgName (setAdd catalogName []) catalogReferences)
  end.

Definition collectReferences (options : Options) (packageInfos : list PackageInfo)
  : outcome (Index (list string)) :=
  foldOutcome
    (fun catalogReferences packageInfo =>
       let? catalogDeps := getCatalogDependencies (pi_pkg packageInfo) options in
       foldOutcome addReference catalogDeps catalogReferences)
    packageInfos [].

(** [Object.values(catalogDependencies).forEach(deps =>
     Object.assign(flattenedCatalogDeps, deps))] *)
Definition flatten (catalogDependencies : Index (Index string)) : Index string :=
  fold_left Obj.assign (Obj.values catalogDependencies) [].

Definition referenced (flattenedCatalogDeps : Index string)
    (catalogReferences : Index (list string)) : Index string :=
  fold_left
    (fun acc pkgName =>
       match Obj.get pkgName flattenedCatalogDeps with
       | Some v => if truthyStr v then Obj.set pkgName v acc else acc
       | None => acc
       end)
    (Obj.keys catalogReferences) [].

Definition processCatalogs (options : Options) (packageInfos : list PackageInfo)
    (catalogDependencies : option (Index (Index string))) : IO unit :=
  match catalogDependencies with
  | None => ioRet tt
  | Some cds =>
      if Obj.isEmpty cds then ioRet tt
      else
        do catalogReferences <- ioLift (collectReferences options packageInfos);
        let referencedCatalogDeps := referenced (flatten cds) catalogReferences in
        if Obj.isEmpty referencedCatalogDeps then ioRet tt
        else
          let upgradedCatalogDeps :=
            upgradePackageDefinitions referencedCatalogDeps options in
          if negb (Obj.isEmpty upgradedCatalogDeps) then
            do catalogFilePath <- findCatalogFile options;
            match catalogFilePath with
            | Some path =>
                if opt_upgrade options then
                  tryCatch
                    (do updatedContent <-
                       upgradeCatalogData path referencedCatalogDeps
                         upgradedCatalogDeps;
                     writeFile path updatedContent)
                    (fun error =>
                       consoleError ("Error updating catalog file " ++ path
                                     ++ ": " ++ error))
                else ioRet tt
            | None => ioRet tt
            end
          else ioRet tt
  end.

End FlatOrchestration.

End Flattened.

(* ================================================================== *)
(** * Rewriting a manifest: upgradePackageData *)
(* ================================================================== *)

Section PackageData.

(** What upgradePackageData does once there are upgrades to apply (the
    dispatch to the catalog patcher and the replacement of the versions in
    the text of the sections by regular expressions) is taken as a
    parameter; its early return is as in the source. *)
Variable applyUpgrades :
  Text -> Index string -> Index string -> Options -> option string -> IO Text.

Definition upgradePackageData (pkgData : Text) (current upgraded : Index string)
    (options : Options) (pkgFile : option string) : IO Text :=
  if Obj.isEmpty upgraded then ioRet pkgData
  else applyUpgrades pkgData current upgraded options pkgFile.

End PackageData.

(* ================================================================== *)
(** * Predicates of the statements *)
(* ================================================================== *)

Definition isSome {A} (o : option A) : bool :=
  match o with Some _ => true | None => false end.

(** A section that holds name/spec pairs, as opposed to the
    [packageManager] pin. *)
Definition ordinary (depSection : string) : bool :=
  negb (String.eqb depSection "packageManager").

Section ResolverPredicates.

Context {semver : Semver}.

(** A spec that is a range has a minimum satisfying version. *)
Definition specOk (spec : string) : bool :=
  implb (validRange spec) (isSome (minVersion spec)).

(** The keys of the section are pairwise different and its ranges have a
    minimum version. *)
Definition sectionOk (pkgData : PackageFile) (depSection : string) : bool :=
  Obj.wf (sectionOf pkgData depSection)
  && forallb (fun e => specOk (snd e)) (sectionOf pkgData depSection).

Definition accumOk (accum : Index (option string)) : bool :=
  Obj.wf accum
  && forallb (fun e => match snd e with Some v => specOk v | None => true end)
       accum.

(** The packageManager pin, if there is one, names another package than
    [name] and has a version, which has a minimum version if it is a
    range. *)
Definition pinOk (pkgData : PackageFile) (name : string) : bool :=
  forallb
    (fun e => negb (String.eqb (fst e) name)
              && match snd e with Some v => specOk v | None => false end)
    (parsePackageManager pkgData).

(** A scanned section is in order for the resolution of [name]. *)
Definition scanOk (pkgData : PackageFile) (name : string) (depSection : string)
  : bool :=
  if ordinary depSection then sectionOk pkgData depSection
  else pinOk pkgData name.

(** Both specs are ranges and the minimum version of the first is greater
    than that of the second. *)
Definition strictlyGreater (spec : string) (old : option string) : bool :=
  match old with
  | None => false
  | Some o =>
      validRange spec && validRange o
      && match minVersion spec, minVersion o with
         | Some v1, Some v2 => gt v1 v2
         | _, _ => false
         end
  end.

(** The section is one of the two that declare [name], or it does not
    declare it. *)
Definition declaredOnlyIn (pkgData : PackageFile) (name s1 s2 : string)
    (s : string) : bool :=
  String.eqb s s1 || String.eqb s s2
  || negb (Obj.has name (sectionOf pkgData s)).

(** The accumulator has no entry, or one of the two specs. *)
Definition oneOf (a b : string) (old : option string) : Prop :=
  old = None \/ old = Some a \/ old = Some b.

(** Every declaration of [name] in the scanned sections is a catalog
    reference. *)
Definition onlyCatalogRefs (pkgData : PackageFile) (depSections : list string)
    (name : string) : bool :=
  forallb
    (fun s =>
       if String.eqb s "packageManager" then
         forallb (fun e => negb (String.eqb (fst e) name))
           (parsePackageManager pkgData)
       else
         forallb
           (fun e => implb (String.eqb (fst e) name)
                       (startsWith (snd e) "catalog:"))
           (sectionOf pkgData s))
    depSections.

End ResolverPredicates.

(** ** Paths *)

(** Two paths part ways: at some position, before either ends, they name
    different properties. *)
Fixpoint diverge (p q : list string) : bool :=
  match p, q with
  | a :: p', b :: q' => if String.eqb a b then diverge p' q' else true
  | _, _ => false
  end.

(** The text that [applyEdits(text, modify(text, path, v, options))]
    yields. *)
Definition setText (path : list string) (v : string) (text : Text)
  : outcome Text :=
  let? t := setIn path (VStr v) (tree text) in Ok (withTree text t).

(** The text is in the form in which the [yaml] library prints its
    document. *)
Definition asPrinted (text : Text) : Prop :=
  toString (parseDocument text) = text.

(** The node at the path is missing, or it is the string [v]. *)
Definition absentOrHolds (path : list string) (v : string) (d : value) : bool :=
  match getIn path d with
  | None => true
  | Some (VStr s) => String.eqb s v
  | Some _ => false
  end.

(** The paths that [upgradeYamlCatalogData] looks at for a dependency. *)
Definition yamlPaths (catalogName dep : string) : list (list string) :=
  if String.eqb catalogName "default"
  then [["catalog"; dep]; ["catalogs"; "default"; dep]]
  else [["catalogs"; catalogName; dep]].

(** The path that the pure [upgradeJsonCatalogData] ends up writing for a
    dependency: the one under [workspaces] when it exists, else the one at
    the root when it exists. *)
Definition jsonTarget (fileRoot : value) (catalogName dep : string)
  : option (list string) :=
  let kp := Pure.keyPath catalogName dep in
  if exists_at ("workspaces" :: kp) fileRoot then Some ("workspaces" :: kp)
  else if exists_at kp fileRoot then Some kp
  else None.

(** The extensions that [upgradeCatalogData] accepts. *)
Definition supported (fileExtension : string) : bool :=
  String.eqb fileExtension ".yaml" || String.eqb fileExtension ".yml"
  || String.eqb fileExtension ".json".

(** The guarded sets of one value along a list of paths, in order. *)
Definition setPaths (paths : list (list string)) (v : string) (d : value)
  : outcome value :=
  foldOutcome (fun doc p => setIfPresent p v doc) paths d.

Fixpoint pairwiseDiverge (paths : list (list string)) : bool :=
  match paths with
  | [] => true
  | p :: r => forallb (diverge p) r && pairwiseDiverge r
  end.

(** Every path that the YAML patcher looks at for the entry is missing or
    holds the entry's version already. *)
Definition yamlSettled (catalogName : string) (d : value)
    (entry : string * string) : bool :=
  forallb (fun p => absentOrHolds p (snd entry) d)
    (yamlPaths catalogName (fst entry)).

(** The two paths that the pure [upgradeJsonCatalogData] looks at for a
    dependency: at the root and under [workspaces]. *)
Definition jsonPaths (catalogName dep : string) : list (list string) :=
  [Pure.keyPath catalogName dep; "workspaces" :: Pure.keyPath catalogName dep].

(** ** Traces *)

(** The text that the file-based upgradeCatalogData returns for a catalog
    file that holds [content]. *)
Definition patchOfFile (filePath : string) (content : Text) (catalogName : string)
    (current upgraded : Index string) : outcome Text :=
  fst (OnFile.upgradeCatalogData filePath catalogName current upgraded
         {| files := [(filePath, content)]; trace := [] |}).

(** The texts that the rounds of the loop of processCatalogs write to the
    catalog file, which holds [content] before the loop: a catalog without
    upgrades has no round; every other round patches the text that the
    round before it wrote; the loop ends at the first round that throws. *)
Fixpoint roundContents (catalogDependencies : Index (Index string))
    (catalogFilePath : string) (upgradedCatalogDeps : Index (Index string))
    (content : Text) : list Text :=
  match upgradedCatalogDeps with
  | [] => []
  | (catalogName, upgradedDeps) :: rest =>
      if Obj.isEmpty upgradedDeps then
        roundContents catalogDependencies catalogFilePath rest content
      else
        match patchOfFile catalogFilePath content
                (if String.eqb catalogName "" then "default" else catalogName)
                (match Obj.get ("catalog:" ++ catalogName) catalogDependencies with
                 | Some c => c
                 | None => []
                 end)
                upgradedDeps with
        | Ok content' =>
            content'
            :: roundContents catalogDependencies catalogFilePath rest content'
        | Thrown _ => []
        end
  end.

(** Whatever the world and the result, the computation adds at most [n]
    writes to the trace. *)
Definition writesAtMost (n : nat) {A} (m : IO A) : Prop :=
  forall w r w',
    m w = (r, w') ->
    exists evs, trace w' = trace w ++ evs /\ length (writesOf evs) <= n.

(* ================================================================== *)
(** * Example manifests *)
(* ================================================================== *)

(** [react] at [^17.0.0] in one section and [^18.0.0] in another, and a
    packageManager pin for another package. *)
Definition pkgTwoRanges : PackageFile := {|
  pkg_sections := [("dependencies", [("react", "^18.0.0"); ("left-pad", "1.0.0")]);
                   ("devDependencies", [("react", "^17.0.0")])];
  pkg_packageManager := Some "pnpm@8.6.0"
|}.

(** Two specs of [react] with the same minimum version. *)
Definition pkgTie : PackageFile := {|
  pkg_sections := [("dependencies", [("react", "^1.0.0")]);
                   ("devDependencies", [("react", "1.0.0")])];
  pkg_packageManager := None
|}.

(** A range first, a URL second. *)
Definition pkgUrlLater : PackageFile := {|
  pkg_sections := [("dependencies", [("react", "1.0.0")]);
                   ("devDependencies", [("react", "github:facebook/react")])];
  pkg_packageManager := None
|}.

(** [npm] as a dependency and as the package manager pin. *)
Definition pkgPinned : PackageFile := {|
  pkg_sections := [("dependencies", [("npm", "1.0.0")])];
  pkg_packageManager := Some "npm@2.0.0"
|}.

(** [react] by a catalog reference for development and by a range as a
    peer. *)
Definition pkgPeer : PackageFile := {|
  pkg_sections := [("devDependencies", [("react", "catalog:")]);
                   ("peerDependencies", [("react", "^17.0.0")])];
  pkg_packageManager := None
|}.

(** A consumer of the default catalog. *)
Definition pkgConsumer : PackageFile := {|
  pkg_sections := [("dependencies", [("lodash", "catalog:"); ("left-pad", "1.0.0")])];
  pkg_packageManager := None
|}.

(* ================================================================== *)
(** * Example catalog files *)
(* ================================================================== *)

Definition catalogOf (dep version : string) : value :=
  VObj [(dep, VStr version)].

(** The same tree in a text that indents by four. *)
Definition indentedByFour (text : Text) : Text :=
  {| tree := tree text; indentation := 4; relaxed := relaxed text |}.

(** The same tree in a text that has a comment. *)
Definition commented (text : Text) : Text :=
  {| tree := tree text; indentation := indentation text; relaxed := true |}.

(** A package.json with the default catalog at the root and under
    [workspaces], both with [foo] at the same version. *)
Definition jsonDual (version : string) (wsVersion : string) : Text :=
  printed
    (VObj [("name", VStr "root");
           ("catalog", catalogOf "foo" version);
           ("workspaces",
            VObj [("packages", VArr [VStr "packages/*"]);
                  ("catalog", catalogOf "foo" wsVersion)])]).

(** A pnpm-workspace.yaml that defines the default catalog twice, as
    [catalog] and as [catalogs.default]. *)
Definition yamlTwoDefaults (flat named : string) : Text :=
  printed
    (VObj [("packages", VArr [VStr "packages/*"]);
           ("catalog", catalogOf "foo" flat);
           ("catalogs", VObj [("default", catalogOf "foo" named)])]).

(** A catalog file with a default catalog that has [lodash] and
    [left-pad]. *)
Definition jsonDefaultCatalog (lodash leftPad : string) : Text :=
  printed
    (VObj [("name", VStr "root");
           ("catalog", VObj [("lodash", VStr lodash); ("left-pad", VStr leftPad)])]).

(* ================================================================== *)
(** * Example workspaces *)
(* ================================================================== *)

Definition packagesGlob : value := VArr [VStr "packages/*"].

(** Options of a run that upgrades, over the [dependencies] section. *)
Definition runOptions (packageManager : option string) : Options := {|
  opt_dep := ["dependencies"];
  opt_workspacePackages := [];
  opt_filterAndReject := Ok (fun _ _ => true);
  opt_packageManager := packageManager;
  opt_upgrade := true
|}.

(** A consumer manifest with one dependency, and its file. *)
Definition consumerText (dep spec : string) : Text :=
  printed
    (VObj [("name", VStr "a"); ("dependencies", VObj [(dep, VStr spec)])]).

Definition consumerInfo (dep spec : string) : PackageInfo := {|
  pi_name := Some "a";
  pi_pkg := {| pkg_sections := [("dependencies", [(dep, spec)])];
               pkg_packageManager := None |};
  pi_pkgFile := consumerText dep spec;
  pi_filepath := "packages/a/package.json"
|}.

(** The lodash scenario with a pnpm workspace file. *)
Definition lodashYaml (version : string) : Text :=
  printed
    (VObj [("packages", packagesGlob); ("catalog", catalogOf "lodash" version)]).


Definition lodashPnpmWorld : World := {|
  files := [("package.json", printed (VObj [("name", VStr "root")]));
            ("pnpm-workspace.yaml", lodashYaml "4.17.20");
            ("packages/a/package.json", consumerText "lodash" "catalog:")];
  trace := []
|}.

(** The lodash scenario with the catalog in the root package.json. *)
Definition lodashJson (version : string) : Text :=
  printed
    (VObj [("name", VStr "root");
           ("workspaces",
            VObj [("packages", packagesGlob); ("catalog", catalogOf "lodash" version)])]).

Definition lodashBunWorld : World := {|
  files := [("package.json", lodashJson "4.17.20");
            ("packages/a/package.json", consumerText "lodash" "catalog:")];
  trace := []
|}.

(** Modelled from the spec: the caller of processCatalogs is not among the
    sources.  getAllPackages returns the catalogs that
    readCatalogDependencies reads from the root package file, and
    processCatalogs takes "the catalog dependencies from
    pnpm-workspace.yaml or package.json" as its third argument: the run
    loads the catalogs, then processes them. *)
Definition loadAndProcess (desired : Index string) (options : Options)
    (packageInfos : list PackageInfo) : IO unit :=
  ioBind (readCatalogDependencies options "package.json")
    (fun catalogDependencies =>
       processCatalogs (desiredVersions desired) options packageInfos
         catalogDependencies).

(** Two named catalogs in a pnpm workspace file; [web] is any catalog. *)
Definition namedYaml (webCatalog : value) (mobileAxios : string) : Text :=
  printed
    (VObj [("packages", packagesGlob);
           ("catalogs",
            VObj [("web", webCatalog); ("mobile", catalogOf "axios" mobileAxios)])]).

(** Two named catalogs in a package.json. *)
Definition namedJson (webCatalog : value) (mobileAxios : string) : Text :=
  printed
    (VObj [("name", VStr "root");
           ("catalogs",
            VObj [("web", webCatalog); ("mobile", catalogOf "axios" mobileAxios)])]).

(** The catalog definitions, under the keys that processCatalogs looks up. *)
Definition namedCatalogs (mobileAxios : string) (webDeps : Index string)
  : Index (Index string) :=
  [("catalog:mobile", [("axios", mobileAxios)]); ("catalog:web", webDeps)].

(** The scenario of the two named catalogs in a pnpm workspace, both with
    [axios] at the same version, and in a package.json. *)
Definition namedPnpmWorld : World := {|
  files := [("package.json", printed (VObj [("name", VStr "root")]));
            ("pnpm-workspace.yaml",
             namedYaml (catalogOf "axios" "1.0.0") "1.0.0");
            ("packages/a/package.json", consumerText "axios" "catalog:mobile")];
  trace := []
|}.

Definition namedBunWorld : World := {|
  files := [("package.json", namedJson (catalogOf "axios" "1.0.0") "1.0.0");
            ("packages/a/package.json", consumerText "axios" "catalog:mobile")];
  trace := []
|}.

(** The events of one read-modify-write round per written content. *)
Definition roundTrips (path : string) (contents : list Text) : list Event :=
  flat_map (fun c => [EvRead path; EvWrite path c]) contents.

Definition hasUpgrades (entry : string * Index string) : bool :=
  negb (Obj.isEmpty (snd entry)).

(** Two named catalogs that both have an upgrade. *)
Definition twoCatalogsYaml (mobileAxios webReact : string) : Text :=
  printed
    (VObj [("packages", packagesGlob);
           ("catalogs",
            VObj [("mobile", catalogOf "axios" mobileAxios);
                  ("web", catalogOf "react" webReact)])]).

Definition twoCatalogsWorld : World := {|
  files := [("pnpm-workspace.yaml", twoCatalogsYaml "1.0.0" "17.0.0")];
  trace := []
|}.

Definition twoCatalogsInfos : list PackageInfo :=
  [consumerInfo "axios" "catalog:mobile"; consumerInfo "react" "catalog:web"].

Definition twoCatalogsDefinitions : Index (Index string) :=
  [("catalog:mobile", [("axios", "1.0.0")]); ("catalog:web", [("react", "17.0.0")])].

Definition twoCatalogsUpgrades : Index (Index string) :=
  [("mobile", [("axios", "1.2.0")]); ("web", [("react", "18.0.0")])].

(** A pnpm workspace file whose catalogs are named as the references to
    them are written: [catalog:mobile] and [catalog:web]. *)
Definition prefixedYaml (mobileAxios webReact : string) : Text :=
  printed
    (VObj [("packages", packagesGlob);
           ("catalogs",
            VObj [("catalog:mobile", catalogOf "axios" "1.0.0");
                  ("catalog:web", catalogOf "react" "17.0.0");
                  ("mobile", catalogOf "axios" mobileAxios);
                  ("web", catalogOf "react" webReact)])]).

Definition prefixedWorld : World := {|
  files := [("package.json", printed (VObj [("name", VStr "root")]));
            ("pnpm-workspace.yaml", prefixedYaml "1.0.0" "17.0.0")];
  trace := []
|}.

(** What readCatalogDependencies yields in that world, and the world as it
    leaves it. *)
Definition prefixedDefinitions : Index (Index string) :=
  [("catalog:mobile", [("axios", "1.0.0")]); ("catalog:web", [("react", "17.0.0")]);
   ("mobile", [("axios", "1.0.0")]); ("web", [("react", "17.0.0")])].

Definition prefixedLoaded : World := {|
  files := files prefixedWorld;
  trace := [EvRead "pnpm-workspace.yaml"; EvRead "package.json"]
|}.

From Stdlib Require Import Permutation.

(* ================================================================== *)
(** * Further predicates *)
(* ================================================================== *)

(** The string has no occurrence of the character. *)
Fixpoint lacks (c : ascii) (s : string) : bool :=
  match s with
  | EmptyString => true
  | String a r => negb (Ascii.eqb a c) && lacks c r
  end.

(** A package file that has the given packageManager field. *)
Definition withPackageManager (sections : Index (Index string)) (pm : string)
  : PackageFile :=
  {| pkg_sections := sections; pkg_packageManager := Some pm |}.

(** ** Further example manifests *)

(** [lodash] by a reference to the default catalog in one section and to
    the catalog [dev] in another. *)
Definition pkgTwoRefs : PackageFile := {|
  pkg_sections := [("dependencies", [("lodash", "catalog:")]);
                   ("devDependencies", [("lodash", "catalog:dev")])];
  pkg_packageManager := None
|}.

(** A packageManager field that names no version. *)
Definition pkgBarePin : PackageFile := {|
  pkg_sections := [("dependencies", [("left-pad", "1.0.0")])];
  pkg_packageManager := Some "pnpm"
|}.

(** Options whose filter expression cannot be built. *)
Definition brokenFilterOptions (sections : list string) (message : string)
  : Options := {|
  opt_dep := sections;
  opt_workspacePackages := [];
  opt_filterAndReject := Thrown message;
  opt_packageManager := None;
  opt_upgrade := true
|}.

(** Options that list workspace packages. *)
Definition workspaceOptions (sections workspacePackages : list string)
  : Options := {|
  opt_dep := sections;
  opt_workspacePackages := workspacePackages;
  opt_filterAndReject := Ok (fun _ _ => true);
  opt_packageManager := None;
  opt_upgrade := true
|}.

(** Options with a filter on the names and versions. *)
Definition filteringOptions (sections : list string)
    (pred : string -> string -> bool) : Options := {|
  opt_dep := sections;
  opt_workspacePackages := [];
  opt_filterAndReject := Ok pred;
  opt_packageManager := None;
  opt_upgrade := true
|}.

(** The filter that rejects one name. *)
Definition allBut (rejected : string) (name _ : string) : bool :=
  negb (String.eqb name rejected).

(** ** Catalog entries *)

(** The places of a catalog file that can define a dependency of a
    catalog: the flat catalog and the named one, at the root and under
    [workspaces]. *)
Definition entryPaths (catalogName dep : string) : list (list string) :=
  [["catalog"; dep];
   ["catalogs"; catalogName; dep];
   ["workspaces"; "catalog"; dep];
   ["workspaces"; "catalogs"; catalogName; dep]].

(** The top-level properties under which the patcher looks. *)
Definition catalogRoots : list string := ["catalog"; "catalogs"; "workspaces"].

(** ** Reading a file and patching its content *)

(** The composition that upgradePackageData uses for a catalog file: the
    file is read and its content goes through the pure upgradeCatalogData,
    with the extension of the path. *)
Definition patchCatalogFile (filePath catalogName : string)
    (current upgraded : Index string) : IO Text :=
  ioBind (readFile filePath)
    (fun fileContent =>
       ioLift (Pure.upgradeCatalogData fileContent (extname filePath)
                 catalogName current upgraded)).

(** ** Footprints *)

(** Whatever the world and the result, the computation writes only to the
    listed paths, and every other file is after it as it was before. *)
Definition writesWithin (allowed : list string) {A} (m : IO A) : Prop :=
  forall w r w',
    m w = (r, w') ->
    exists evs,
      trace w' = trace w ++ evs
      /\ (forall p c, In (p, c) (writesOf evs) -> In p allowed)
      /\ (forall p, ~ In p allowed -> Obj.get p (files w') = Obj.get p (files w)).

(** The content still has every place that the parsed tree has for the
    operations. *)
Definition stillThere (fileRoot : value) (catalogName : string)
    (ops : Index string) (content : Text) : Prop :=
  forall e q, In e ops -> In q (jsonPaths catalogName (fst e)) ->
              exists_at q fileRoot = true -> getIn q content <> None.

(** The names under which processCatalogs looks for the catalog file. *)
Definition catalogFileNames : list string :=
  ["pnpm-workspace.yaml"; "package.json"].

(** Options of a run that only reports. *)
Definition reportOptions (packageManager : option string) : Options := {|
  opt_dep := ["dependencies"];
  opt_workspacePackages := [];
  opt_filterAndReject := Ok (fun _ _ => true);
  opt_packageManager := packageManager;
  opt_upgrade := false
|}.

(* ================================================================== *)
(** * The synthetic package of the catalogs: getCatalogPackageInfo *)
(* ================================================================== *)

(** An [Index<VersionSpec>] as a tree of values. *)
Definition specsDocument (o : Index string) : value :=
  VObj (map (fun e => (fst e, VStr (snd e))) o).

(** [getCatalogPackageInfo]: the catalogs of the workspace as one package,
    whose dependencies are the entries of all catalogs, and whose path is
    the pnpm workspace file or the package file with the suffix
    [#catalog]. *)
Definition getCatalogPackageInfo (options : Options) (pkgPath : string)
  : IO (option PackageInfo) :=
  if negb (truthyStr pkgPath) then ioRet None
  else
    ioBind (readCatalogDependencies options pkgPath)
      (fun catalogDependencies =>
         match catalogDependencies with
         | None => ioRet None
         | Some cds =>
             let flattenedCatalogDependencies :=
               fold_left Obj.assign (Obj.values cds) [] in
             let catalogPackageFile :=
               {| pkg_sections := [("dependencies", flattenedCatalogDependencies)];
                  pkg_packageManager := None |} in
             let catalogFilePath :=
               match opt_packageManager options with
               | Some "pnpm" => join (dirname pkgPath) "pnpm-workspace.yaml"
               | _ => (pkgPath ++ "#catalog")%string
               end in
             let syntheticFileContent :=
               JSON.stringify
                 (VObj [("name", VStr "catalog-dependencies");
                        ("version", VStr "1.0.0");
                        ("dependencies",
                         specsDocument flattenedCatalogDependencies)]) in
             ioRet (Some {| pi_name := Some "catalogs";
                            pi_pkg := catalogPackageFile;
                            pi_pkgFile := syntheticFileContent;
                            pi_filepath := catalogFilePath |})
         end).

(** ** Example worlds of the loader *)

(** A package.json with a default catalog at the root and another under
    [workspaces]. *)
Definition bunDual (rootCatalog workspacesCatalog : list (string * value)) : Text :=
  printed
    (VObj [("name", VStr "root");
           ("catalog", VObj rootCatalog);
           ("workspaces",
            VObj [("packages", packagesGlob);
                  ("catalog", VObj workspacesCatalog)])]).

Definition bunDualWorld : World := {|
  files := [("package.json",
             bunDual [("react", VStr "17.0.0"); ("axios", VStr "1.0.0")]
                     [("react", VStr "18.0.0")])];
  trace := []
|}.

(** A pnpm workspace file with catalogs, and no package.json beside it. *)
Definition orphanPnpmWorld : World := {|
  files := [("pnpm-workspace.yaml", twoCatalogsYaml "1.0.0" "17.0.0")];
  trace := []
|}.

(** A package.json in which two named catalogs define [react]. *)
Definition twoReactsWorld : World := {|
  files := [("package.json",
             printed
               (VObj [("name", VStr "root");
                      ("catalogs",
                       VObj [("web", catalogOf "react" "17.0.0");
                             ("mobile", catalogOf "react" "18.0.0")])]))];
  trace := []
|}.

(* ================================================================== *)
(** * Regular expressions of the sources *)
(* ================================================================== *)

(** The characters of the class that [escapeRegexp] replaces: the hyphen,
    the slash, the backslash and the characters that have a meaning in a
    pattern. *)
Definition regexpSpecial (a : ascii) : bool :=
  existsb (Ascii.eqb a) (list_ascii_of_string "-/\^$*+?.()|[]{}").

(** [escapeRegexp(s)]: every character of the class gets a backslash
    before it. *)
Fixpoint escapeRegexp (s : string) : string :=
  match s with
  | EmptyString => EmptyString
  | String a r =>
      if regexpSpecial a then String "\"%char (String a (escapeRegexp r))
      else String a (escapeRegexp r)
  end.

(** How [new RegExp] reads a pattern made of ordinary characters and of
    escaped characters of the class: an ordinary character stands for
    itself, and a backslash followed by a character of the class stands for
    that character.  [None] for a pattern in which a character of the class
    is not escaped. *)
Fixpoint literalOf (pattern : string) : option string :=
  match pattern with
  | EmptyString => Some EmptyString
  | String a r =>
      if Ascii.eqb a "\"%char then
        match r with
        | String b r' =>
            if regexpSpecial b then option_map (String b) (literalOf r') else None
        | EmptyString => None
        end
      else if regexpSpecial a then None
      else option_map (String a) (literalOf r)
  end.

(** The first occurrence of a marker in a string: the text before it and
    the text after it. *)
Fixpoint splitAtFirst (marker s : string) : option (string * string) :=
  if startsWith s marker then
    Some (EmptyString,
          String.substring (String.length marker)
            (String.length s - String.length marker) s)
  else
    match s with
    | EmptyString => None
    | String a r =>
        match splitAtFirst marker r with
        | Some (before, after) => Some (String a before, after)
        | None => None
        end
    end.

(** [s.includes(marker)] *)
Definition includes (s marker : string) : bool :=
  match splitAtFirst marker s with Some _ => true | None => false end.

(** The line terminators that the dot of a pattern does not match: the
    line feed and the carriage return.  (The separators U+2028 and U+2029
    are no characters of [ascii].) *)
Definition isLineTerminator (a : ascii) : bool :=
  Ascii.eqb a "010"%char || Ascii.eqb a "013"%char.

(** What [.*] matches at the start of a string, and what it leaves. *)
Fixpoint lineOf (s : string) : string :=
  match s with
  | EmptyString => EmptyString
  | String a r => if isLineTerminator a then EmptyString else String a (lineOf r)
  end.

Fixpoint afterLine (s : string) : string :=
  match s with
  | EmptyString => EmptyString
  | String a r => if isLineTerminator a then s else afterLine r
  end.

(** [s.endsWith(p)] *)
Definition endsWith (s p : string) : bool :=
  (String.length p <=? String.length s)%nat
  && String.eqb
       (String.substring (String.length s - String.length p) (String.length p) s)
       p.

(** [/^catalog-.*-dependencies$/.test(s)] for a string [s]. *)
Definition isSyntheticName (s : string) : bool :=
  startsWith s "catalog-"
  && endsWith
       (String.substring 8 (String.length s - 8) s) "-dependencies"
  && String.eqb
       (lineOf (String.substring 8 (String.length s - 8 - 13) s))
       (String.substring 8 (String.length s - 8 - 13) s).

(** [s.replace(/^catalog-/, '').replace(/-dependencies$/, '')] *)
Definition catalogNameOfSynthetic (s : string) : string :=
  let s1 :=
    if startsWith s "catalog-"
    then String.substring 8 (String.length s - 8) s else s in
  if endsWith s1 "-dependencies"
  then String.substring 0 (String.length s1 - 13) s1 else s1.

(* ================================================================== *)
(** * upgradePackageData on a catalog file *)
(* ================================================================== *)

(** [typeof v === 'object'] *)
Definition isObjectType (v : value) : bool :=
  match v with
  | VNull | VArr _ | VObj _ => true
  | _ => false
  end.

(** [Object.keys(v).length] *)
Definition keyCount (v : value) : nat :=
  match v with
  | VObj ms => length ms
  | VArr items => length items
  | VStr s => String.length s
  | _ => 0
  end.

Section PackageDataOnCatalogFiles.

(** The pattern test on a [name] that is an array, which is tested as the
    text of its items joined by commas. *)
Variable arrayNameIsSynthetic : list value -> bool.

(** The branch that rebuilds the catalogs of the pnpm workspace file from
    synthetic catalog data and returns them as JSON. *)
Variable rewriteSyntheticCatalogs : string -> Index string -> IO Text.

(** The replacement of the versions in the text of the dependency
    sections and of the packageManager field, by regular expressions. *)
Variable rewriteSections :
  Text -> Index string -> Index string -> Options -> outcome Text.

(** The test for synthetic catalog data:
    [typeof parsed === 'object' &&
     /^catalog-.*-dependencies$/.test(parsed.name) &&
     typeof parsed.dependencies === 'object' &&
     Object.keys(parsed).length <= 3] *)
Definition isSyntheticCatalogData (parsed : value) : outcome bool :=
  if isObjectType parsed then
    match parsed with
    | VNull => Thrown "TypeError: Cannot read properties of null"
    | _ =>
        let nameMatches :=
          match prop "name" parsed with
          | Some (VStr s) => isSyntheticName s
          | Some (VArr items) => arrayNameIsSynthetic items
          | _ => false
          end in
        Ok (nameMatches
            && match prop "dependencies" parsed with
               | Some d => isObjectType d
               | None => false
               end
            && (keyCount parsed <=? 3)%nat)
    end
  else Ok false.

(** [parsed.name.replace(/^catalog-/, '').replace(/-dependencies$/, '')] *)
Definition catalogNameOfData (parsed : value) : outcome string :=
  match parsed with
  | VNull => Thrown "TypeError: Cannot read properties of null"
  | _ =>
      match prop "name" parsed with
      | Some (VStr s) => Ok (catalogNameOfSynthetic s)
      | Some _ => Thrown "TypeError: parsed.name.replace is not a function"
      | None => Thrown "TypeError: Cannot read properties of undefined"
      end
  end.

(** [parsed.catalog || parsed.catalogs], or the same under a [workspaces]
    that is not an array. *)
Definition hasCatalogs (parsed : value) : outcome bool :=
  match parsed with
  | VNull => Thrown "TypeError: Cannot read properties of null"
  | _ =>
      Ok (truthyProp "catalog" parsed
          || truthyProp "catalogs" parsed
          || match prop "workspaces" parsed with
             | Some ws =>
                 truthy ws && negb (isArray ws)
                 && (truthyProp "catalog" ws || truthyProp "catalogs" ws)
             | None => false
             end)
  end.

(** What upgradePackageData does once there are upgrades to apply. *)
Definition applyUpgrades (pkgData : Text) (current upgraded : Index string)
    (options : Options) (pkgFile : option string) : IO Text :=
  let inSections := ioLift (rewriteSections pkgData current upgraded options) in
  match pkgFile with
  | None => inSections
  | Some pkgFile =>
      if negb (truthyStr pkgFile) then inSections
      else
        let fileName := basename pkgFile in
        let fileExtension := extname pkgFile in
        let notSynthetic :=
          if String.eqb fileName "pnpm-workspace.yaml" then
            ioBind (ioLift (JSON.parse pkgData))
              (fun parsed =>
            ioBind (ioLift (isSyntheticCatalogData parsed))
              (fun synthetic =>
                 if synthetic : bool then rewriteSyntheticCatalogs pkgFile upgraded
                 else
                   ioBind (ioLift (catalogNameOfData parsed))
                     (fun catalogName =>
                        ioBind (readFile pkgFile)
                          (fun yamlContent =>
                             ioLift (Pure.upgradeCatalogData yamlContent
                                       (extname pkgFile) catalogName
                                       current upgraded)))))
          else if String.eqb fileExtension ".json" then
            ioBind (ioLift (obind (JSON.parse pkgData) hasCatalogs))
              (fun catalogs =>
                 if catalogs : bool then
                   let catalogName := "default" in
                   ioBind (readFile pkgFile)
                     (fun fileContent =>
                        ioLift (Pure.upgradeCatalogData fileContent fileExtension
                                  catalogName current upgraded))
                 else inSections)
          else inSections in
        match splitAtFirst "#catalog:" pkgFile with
        | Some (before, after) =>
            let actualFilePath := (before ++ afterLine after)%string in
            let actualFileExtension := extname actualFilePath in
            if String.eqb actualFileExtension ".json" then
              let catalogName := lineOf after in
              ioBind (readFile actualFilePath)
                (fun actualFileContent =>
                   ioLift (Pure.upgradeCatalogData actualFileContent
                             actualFileExtension catalogName current upgraded))
            else notSynthetic
        | None => notSynthetic
        end
  end.

End PackageDataOnCatalogFiles.

(** ** Example runs *)

(** The run over two catalogs that both have an upgrade. *)
Definition twoCatalogsRun : outcome unit * World :=
  processCatalogs (desiredVersions [("axios", "1.2.0"); ("react", "18.0.0")])
    (runOptions (Some "pnpm")) twoCatalogsInfos (Some twoCatalogsDefinitions)
    twoCatalogsWorld.

(** The same run without the upgrade option. *)
Definition twoCatalogsReport : outcome unit * World :=
  processCatalogs (desiredVersions [("axios", "1.2.0"); ("react", "18.0.0")])
    (reportOptions (Some "pnpm")) twoCatalogsInfos (Some twoCatalogsDefinitions)
    twoCatalogsWorld.

(** A run of the earlier processCatalogs, with text transformations that
    change nothing. *)
Definition earlierRun : outcome unit * World :=
  Flattened.processCatalogs
    (desiredVersions [("axios", "1.2.0"); ("react", "18.0.0")])
    (fun fileContent _ _ => Ok fileContent) (fun fileContent _ _ => Ok fileContent)
    (runOptions (Some "pnpm")) twoCatalogsInfos (Some twoCatalogsDefinitions)
    twoCatalogsWorld.
(* ================================================================== *)
(** * Properties *)
(* ================================================================== *)

(** ** The concrete semver instance *)

Lemma greater_asym a b : SimpleSemver.greater a b = true -> SimpleSemver.greater b a = false.
Proof.
  destruct a as [[a1 a2] a3], b as [[b1 b2] b3]; unfold SimpleSemver.greater.
  repeat rewrite ?orb_true_iff, ?andb_true_iff, ?orb_false_iff,
    ?andb_false_iff, ?Nat.ltb_lt, ?Nat.eqb_eq, ?Nat.ltb_ge, ?Nat.eqb_neq.
  lia.
Qed.

Lemma valid_catalog s : startsWith s "catalog:" = true -> SimpleSemver.valid s = false.
Proof.
  intros H.
  destruct s as [|a s]; [discriminate|]. simpl in H.
  destruct (Ascii.eqb_spec "c"%char a) as [<-|]; [|discriminate].
  unfold SimpleSemver.valid, SimpleSemver.parse. simpl.
  destruct (splitOn "." s) as [|w ws]; [reflexivity|].
  destruct ws as [|w2 [|w3 [|w4 ws]]]; reflexivity.
Qed.

#[global] Instance simpleSemverLaws : SemverLaws simpleSemver.
Proof. split; [exact greater_asym | exact valid_catalog]. Qed.

Example getCurrentDependencies_lowest :
  getCurrentDependencies pkgTwoRanges
    (plainOptions ["dependencies"; "devDependencies"; "packageManager"])
  = Ok [("react", "^17.0.0"); ("left-pad", "1.0.0"); ("pnpm", "8.6.0")].
Proof. reflexivity. Qed.

(** ** Objects *)

Lemma get_set_eq {A} (k : string) (v : A) (o : Index A) :
  Obj.get k (Obj.set k v o) = Some v.
Proof.
  induction o as [|[k' v'] r IH]; simpl.
  - now rewrite String.eqb_refl.
  - destruct (String.eqb k k') eqn:E; simpl.
    + now rewrite String.eqb_refl.
    + now rewrite E.
Qed.

Lemma get_set_neq {A} (k k' : string) (v : A) (o : Index A) :
  k <> k' -> Obj.get k (Obj.set k' v o) = Obj.get k o.
Proof.
  intros N. induction o as [|[k2 v2] r IH]; simpl.
  - apply String.eqb_neq in N. now rewrite N.
  - destruct (String.eqb k' k2) eqn:E; simpl.
    + apply String.eqb_eq in E. subst k2.
      apply String.eqb_neq in N. now rewrite N.
    + now rewrite IH.
Qed.

Lemma has_set {A} (k k' : string) (v : A) (o : Index A) :
  Obj.has k (Obj.set k' v o) = String.eqb k k' || Obj.has k o.
Proof.
  unfold Obj.has. destruct (String.eqb_spec k k') as [->|N].
  - now rewrite get_set_eq.
  - now rewrite get_set_neq.
Qed.

Lemma wf_set {A} (k : string) (v : A) (o : Index A) :
  Obj.wf o = true -> Obj.wf (Obj.set k v o) = true.
Proof.
  induction o as [|[k' v'] r IH]; simpl; [reflexivity|].
  intros H. apply andb_true_iff in H as [H1 H2].
  destruct (String.eqb_spec k k') as [->|N]; simpl.
  - now rewrite H1.
  - rewrite has_set, IH by assumption.
    apply not_eq_sym in N. apply String.eqb_neq in N. rewrite N. simpl. now rewrite H1.
Qed.

Lemma wf_assign {A} (a b : Index A) :
  Obj.wf a = true -> Obj.wf (Obj.assign a b) = true.
Proof.
  unfold Obj.assign. revert a.
  induction b as [|[k v] r IH]; simpl; intros a H; [assumption|].
  apply IH. now apply wf_set.
Qed.

Lemma get_assign {A} (k : string) (a b : Index A) :
  Obj.wf b = true ->
  Obj.get k (Obj.assign a b)
  = match Obj.get k b with Some v => Some v | None => Obj.get k a end.
Proof.
  unfold Obj.assign. revert a.
  induction b as [|[k' v'] r IH]; simpl; intros a H; [reflexivity|].
  apply andb_true_iff in H as [H1 H2]. rewrite IH by assumption.
  destruct (String.eqb_spec k k') as [->|N].
  - unfold Obj.has in H1. destruct (Obj.get k' r); [discriminate|].
    apply get_set_eq.
  - now rewrite get_set_neq.
Qed.

Lemma get_In {A} (k : string) (v : A) (o : Index A) :
  Obj.get k o = Some v -> In (k, v) o.
Proof.
  induction o as [|[k' v'] r IH]; simpl; [discriminate|].
  destruct (String.eqb_spec k k') as [->|N].
  - intros [= ->]. now left.
  - intros H. right. now apply IH.
Qed.

Lemma In_has {A} (k : string) (v : A) (o : Index A) :
  In (k, v) o -> Obj.has k o = true.
Proof.
  unfold Obj.has.
  induction o as [|[k' v'] r IH]; simpl; [contradiction|].
  intros [[= -> ->]|H].
  - now rewrite String.eqb_refl.
  - destruct (String.eqb k k'); [reflexivity|]. now apply IH.
Qed.

Lemma In_get {A} (k : string) (v : A) (o : Index A) :
  Obj.wf o = true -> In (k, v) o -> Obj.get k o = Some v.
Proof.
  induction o as [|[k' v'] r IH]; simpl; [contradiction|].
  intros W [[= -> ->]|H].
  - now rewrite String.eqb_refl.
  - apply andb_true_iff in W as [W1 W2].
    destruct (String.eqb_spec k k') as [->|N].
    + apply In_has in H. rewrite H in W1. discriminate.
    + now apply IH.
Qed.

Lemma In_set {A} (kv : string * A) (k : string) (v : A) (o : Index A) :
  In kv (Obj.set k v o) -> kv = (k, v) \/ In kv o.
Proof.
  induction o as [|[k' v'] r IH]; simpl.
  - intros [<-|[]]. now left.
  - destruct (String.eqb k k'); simpl.
    + intros [<-|H]; [now left | now right; right].
    + intros [<-|H]; [now right; left |].
      destruct (IH H); [now left | now right; right].
Qed.

Lemma In_assign {A} (kv : string * A) (a b : Index A) :
  In kv (Obj.assign a b) -> In kv a \/ In kv b.
Proof.
  unfold Obj.assign. revert a.
  induction b as [|[k v] r IH]; simpl; intros a H; [now left|].
  destruct (IH _ H) as [H1|H1].
  - destruct (In_set _ _ _ _ H1) as [->|H2]; [now right; left | now left].
  - now right; right.
Qed.

(** ** filterObject *)

Lemma filterObject_In {A} (o r : Index A) (p : string -> A -> outcome bool)
    (k : string) (v : A) :
  filterObject o p = Ok r -> In (k, v) r -> In (k, v) o /\ p k v = Ok true.
Proof.
  revert r. induction o as [|[k' v'] o' IH]; simpl; intros r H Hin.
  - injection H as <-. contradiction.
  - destruct (p k' v') as [b|] eqn:Ep; simpl in H; [|discriminate].
    destruct (filterObject o' p) as [r'|] eqn:Er; simpl in H; [|discriminate].
    injection H as <-. destruct b.
    + destruct Hin as [[= -> ->]|Hin].
      * split; [now left | assumption].
      * destruct (IH _ eq_refl Hin). split; [now right | assumption].
    + destruct (IH _ eq_refl Hin). split; [now right | assumption].
Qed.

Lemma filterObject_has {A} (o r : Index A) (p : string -> A -> outcome bool)
    (k : string) :
  filterObject o p = Ok r -> Obj.has k r = true -> Obj.has k o = true.
Proof.
  unfold Obj.has. intros H Hk.
  destruct (Obj.get k r) as [v|] eqn:E; [|discriminate].
  apply get_In in E. destruct (filterObject_In _ _ _ _ _ H E) as [Hin _].
  apply (In_has _ _ _ Hin).
Qed.

Lemma filterObject_wf {A} (o r : Index A) (p : string -> A -> outcome bool) :
  filterObject o p = Ok r -> Obj.wf o = true -> Obj.wf r = true.
Proof.
  revert r. induction o as [|[k' v'] o' IH]; simpl; intros r H W.
  - now injection H as <-.
  - destruct (p k' v') as [b|] eqn:Ep; simpl in H; [|discriminate].
    destruct (filterObject o' p) as [r'|] eqn:Er; simpl in H; [|discriminate].
    injection H as <-. apply andb_true_iff in W as [W1 W2].
    destruct b; [|now apply IH]. simpl. rewrite (IH _ eq_refl W2), andb_true_r.
    destruct (Obj.has k' r') eqn:Eh; [|reflexivity].
    rewrite (filterObject_has _ _ _ _ Er Eh) in W1. discriminate.
Qed.

Lemma filterObject_get {A} (o r : Index A) (p : string -> A -> outcome bool)
    (k : string) :
  filterObject o p = Ok r -> Obj.wf o = true ->
  Obj.get k r
  = match Obj.get k o with
    | Some v => match p k v with Ok true => Some v | _ => None end
    | None => None
    end.
Proof.
  revert r. induction o as [|[k' v'] o' IH]; simpl; intros r H W.
  - now injection H as <-.
  - destruct (p k' v') as [b|] eqn:Ep; simpl in H; [|discriminate].
    destruct (filterObject o' p) as [r'|] eqn:Er; simpl in H; [|discriminate].
    injection H as <-. apply andb_true_iff in W as [W1 W2].
    specialize (IH _ eq_refl W2).
    destruct (String.eqb_spec k k') as [->|N].
    + rewrite Ep. destruct b; simpl.
      * now rewrite String.eqb_refl.
      * rewrite IH. unfold Obj.has in W1.
        now destruct (Obj.get k' o').
    + destruct b; simpl; [|assumption].
      apply String.eqb_neq in N. now rewrite N.
Qed.

(** A total predicate never makes [filterObject] throw. *)
Lemma filterObject_total {A} (o : Index A) (p : string -> A -> outcome bool) :
  (forall k v, In (k, v) o -> isOk (p k v) = true) ->
  exists r, filterObject o p = Ok r.
Proof.
  induction o as [|[k v] o' IH]; simpl; intros H.
  - now exists [].
  - assert (Hp : isOk (p k v) = true) by (apply H; now left).
    destruct (p k v) as [b|]; [|discriminate]. simpl.
    destruct IH as [r' ->]; [intros; apply H; now right|]. simpl.
    eexists. reflexivity.
Qed.

(* ================================================================== *)
(** ** Section resolution *)
(* ================================================================== *)

Section ResolverProperties.

Context {semver : Semver}.

Lemma isGreaterThanSafe_ok (spec : string) (old : option string) :
  specOk spec = true ->
  match old with Some o => specOk o | None => true end = true ->
  isGreaterThanSafe spec old = Ok (strictlyGreater spec old).
Proof.
  unfold isGreaterThanSafe, strictlyGreater, specOk.
  destruct (validRange spec); simpl; [|now destruct old].
  destruct old as [o|]; [|reflexivity].
  destruct (validRange o); simpl; [|reflexivity].
  destruct (minVersion spec); [|discriminate].
  destruct (minVersion o); [|discriminate]. reflexivity.
Qed.

Lemma lookupSpec_ok (name : string) (accum : Index (option string)) :
  accumOk accum = true ->
  match lookupSpec name accum with Some o => specOk o | None => true end = true.
Proof.
  unfold accumOk, lookupSpec. intros H.
  apply andb_true_iff in H as [_ H].
  destruct (Obj.get name accum) as [[v|]|] eqn:E; try reflexivity.
  apply get_In in E. rewrite forallb_forall in H. apply (H _ E).
Qed.

Lemma get_someValues (k : string) (o : Index string) :
  Obj.get k (someValues o) = option_map Some (Obj.get k o).
Proof.
  induction o as [|[k' v'] r IH]; simpl; [reflexivity|].
  now destruct (String.eqb k k').
Qed.

Lemma wf_someValues (o : Index string) : Obj.wf (someValues o) = Obj.wf o.
Proof.
  induction o as [|[k' v'] r IH]; simpl; [reflexivity|].
  rewrite IH. unfold Obj.has. rewrite get_someValues.
  now destruct (Obj.get k' r).
Qed.

(** What one ordinary section does to the accumulator. *)
Lemma mergeSection_ordinary (pkgData : PackageFile)
    (accum : Index (option string)) (s : string) :
  ordinary s = true -> sectionOk pkgData s = true -> accumOk accum = true ->
  exists accum',
    mergeSection pkgData accum s = Ok accum'
    /\ accumOk accum' = true
    /\ (forall e, In e accum' -> snd e = None -> In e accum)
    /\ forall name,
         lookupSpec name accum'
         = match Obj.get name (sectionOf pkgData s) with
           | Some spec =>
               if strictlyGreater spec (lookupSpec name accum)
               then lookupSpec name accum else Some spec
           | None => lookupSpec name accum
           end.
Proof.
  unfold ordinary, sectionOk, mergeSection. intros Hs Hsec Hacc.
  apply negb_true_iff in Hs. rewrite Hs.
  apply andb_true_iff in Hsec as [Wsec Osec].
  rewrite forallb_forall in Osec.
  set (p := fun dep spec =>
              let? g := isGreaterThanSafe spec (lookupSpec dep accum) in
              Ok (negb g)).
  assert (Hp : forall k v, In (k, v) (sectionOf pkgData s) ->
               p k v = Ok (negb (strictlyGreater v (lookupSpec k accum)))).
  { intros k v Hin. unfold p.
    rewrite isGreaterThanSafe_ok; [reflexivity| |].
    - apply (Osec _ Hin).
    - now apply lookupSpec_ok. }
  destruct (filterObject_total (sectionOf pkgData s) p) as [kept Hk].
  { intros k v Hin. now rewrite Hp. }
  rewrite Hk. simpl. eexists. split; [reflexivity|].
  pose proof (filterObject_wf _ _ _ Hk Wsec) as Wk.
  pose proof Hacc as Hacc'. unfold accumOk in Hacc'.
  apply andb_true_iff in Hacc' as [Wacc Oacc].
  rewrite forallb_forall in Oacc.
  split; [|split].
  - unfold accumOk. rewrite wf_assign by assumption. simpl.
    apply forallb_forall. intros [k v] Hin.
    destruct (In_assign _ _ _ Hin) as [H1|H1]; [now apply Oacc|].
    unfold someValues in H1. apply in_map_iff in H1 as [[k0 v0] [[= <- <-] H1]].
    simpl. destruct (filterObject_In _ _ _ _ _ Hk H1) as [H2 _].
    apply (Osec _ H2).
  - intros [k v] Hin Hv. simpl in Hv. subst v.
    destruct (In_assign _ _ _ Hin) as [H1|H1]; [assumption|].
    unfold someValues in H1. apply in_map_iff in H1 as [[k0 v0] [Heq _]].
    discriminate Heq.
  - intros name. unfold lookupSpec at 1.
    rewrite get_assign by now rewrite wf_someValues.
    rewrite get_someValues, (@filterObject_get _ _ _ _ name Hk Wsec).
    destruct (Obj.get name (sectionOf pkgData s)) as [spec|] eqn:E; simpl.
    + rewrite (Hp _ _ (get_In _ _ _ E)).
      destruct (strictlyGreater spec (lookupSpec name accum)); reflexivity.
    + reflexivity.
Qed.

End ResolverProperties.

Section PinStep.

Context {semver : Semver}.

(** What the packageManager pin does to the accumulator, for a name that
    it does not declare. *)
Lemma mergeSection_pin (pkgData : PackageFile)
    (accum : Index (option string)) (s name : string) :
  ordinary s = false -> pinOk pkgData name = true -> accumOk accum = true ->
  exists accum',
    mergeSection pkgData accum s = Ok accum'
    /\ accumOk accum' = true
    /\ (forall e, In e accum' -> snd e = None -> In e accum)
    /\ lookupSpec name accum' = lookupSpec name accum.
Proof.
  unfold ordinary, mergeSection, pinOk. intros Hs Hpin Hacc.
  apply negb_false_iff in Hs. rewrite Hs.
  exists (Obj.assign accum (parsePackageManager pkgData)).
  split; [reflexivity|].
  rewrite forallb_forall in Hpin.
  assert (Wpin : Obj.wf (parsePackageManager pkgData) = true).
  { unfold parsePackageManager. destruct (pkg_packageManager pkgData); [|reflexivity].
    destruct (truthyStr s0); [|reflexivity].
    now destruct (splitOn "@" s0). }
  unfold accumOk in Hacc. apply andb_true_iff in Hacc as [Wacc Oacc].
  rewrite forallb_forall in Oacc.
  split; [|split].
  - unfold accumOk. rewrite wf_assign by assumption. simpl.
    apply forallb_forall. intros e Hin.
    destruct (In_assign _ _ _ Hin) as [H1|H1]; [now apply Oacc|].
    specialize (Hpin _ H1). apply andb_true_iff in Hpin as [_ Hpin].
    now destruct (snd e).
  - intros e Hin Hv.
    destruct (In_assign _ _ _ Hin) as [H1|H1]; [assumption|].
    specialize (Hpin _ H1). apply andb_true_iff in Hpin as [_ Hpin].
    rewrite Hv in Hpin. discriminate.
  - unfold lookupSpec. rewrite get_assign by assumption.
    destruct (Obj.get name (parsePackageManager pkgData)) as [v|] eqn:E;
      [|reflexivity].
    apply get_In in E. specialize (Hpin _ E). simpl in Hpin.
    now rewrite String.eqb_refl in Hpin.
Qed.

End PinStep.

Section LowestWins.

Context {semver : Semver} {laws : SemverLaws semver}.

Variable pkgData : PackageFile.
Variables (name s1 s2 a b : string) (va vb : SemVer).

Hypothesis ordinary_s1 : ordinary s1 = true.
Hypothesis in_s1 : Obj.get name (sectionOf pkgData s1) = Some a.
Hypothesis in_s2 : Obj.get name (sectionOf pkgData s2) = Some b.
Hypothesis range_a : validRange a = true.
Hypothesis range_b : validRange b = true.
Hypothesis min_a : minVersion a = Some va.
Hypothesis min_b : minVersion b = Some vb.
Hypothesis a_lower : gt vb va = true.

Lemma strictlyGreater_a (old : option string) :
  oneOf a b old -> strictlyGreater a old = false.
Proof.
  unfold strictlyGreater.
  intros [-> | [-> | ->]]; [reflexivity| |];
    rewrite ?range_a, ?range_b, ?min_a, ?min_b; simpl.
  - destruct (gt va va) eqn:E; [|reflexivity].
    now rewrite (gt_asym _ _ E) in E.
  - now apply gt_asym.
Qed.

Lemma strictlyGreater_b_a : strictlyGreater b (Some a) = true.
Proof.
  unfold strictlyGreater. now rewrite range_a, range_b, min_a, min_b, a_lower.
Qed.

Lemma strictlyGreater_b_b : strictlyGreater b (Some b) = false.
Proof.
  unfold strictlyGreater. rewrite range_b, min_b. simpl.
  destruct (gt vb vb) eqn:E; [|reflexivity].
  now rewrite (gt_asym _ _ E) in E.
Qed.

(** The entry of [name] through the whole merge: once the lower spec is
    in the accumulator it stays, and the section that declares it puts it
    there. *)
Lemma mergeSections_lowest (depSections : list string) :
  forall accum,
    forallb (scanOk pkgData name) depSections = true ->
    forallb (declaredOnlyIn pkgData name s1 s2) depSections = true ->
    accumOk accum = true ->
    (forall e, In e accum -> snd e <> None) ->
    oneOf a b (lookupSpec name accum) ->
    exists final,
      mergeSections pkgData depSections accum = Ok final
      /\ accumOk final = true
      /\ (forall e, In e final -> snd e <> None)
      /\ oneOf a b (lookupSpec name final)
      /\ (lookupSpec name accum = Some a
          \/ existsb (String.eqb s1) depSections = true ->
          lookupSpec name final = Some a).
Proof.
  induction depSections as [|s rest IH]; simpl; intros accum Hs Hd Ha Hdef Hin.
  - exists accum. repeat split; try assumption.
    intros [H|H]; [assumption | discriminate].
  - apply andb_true_iff in Hs as [Hs1 Hs2].
    apply andb_true_iff in Hd as [Hd1 Hd2].
    assert (Hstep : exists accum',
               mergeSection pkgData accum s = Ok accum'
               /\ accumOk accum' = true
               /\ (forall e, In e accum' -> snd e = None -> In e accum)
               /\ oneOf a b (lookupSpec name accum')
               /\ (lookupSpec name accum = Some a \/ String.eqb s1 s = true ->
                   lookupSpec name accum' = Some a)).
    { unfold scanOk in Hs1. destruct (ordinary s) eqn:Ho.
      - destruct (mergeSection_ordinary pkgData accum s Ho Hs1 Ha)
          as (accum' & Hm & Ha' & Hnone & Hl).
        exists accum'. repeat (split; [assumption|]).
        rewrite Hl. unfold declaredOnlyIn in Hd1.
        destruct (String.eqb_spec s s1) as [->|N1].
        + rewrite in_s1, (strictlyGreater_a _ Hin).
          split; [right; now left | reflexivity].
        + destruct (String.eqb_spec s s2) as [->|N2].
          * rewrite in_s2.
            destruct Hin as [E|[E|E]]; rewrite E.
            -- simpl. split; [right; now right|].
               intros [H|H]; [discriminate|].
               apply String.eqb_eq in H. now subst.
            -- rewrite strictlyGreater_b_a.
               split; [right; now left | reflexivity].
            -- rewrite strictlyGreater_b_b. split; [right; now right|].
               intros [H|H]; [congruence|].
               apply String.eqb_eq in H. now subst.
          * simpl in Hd1. apply negb_true_iff in Hd1. unfold Obj.has in Hd1.
            destruct (Obj.get name (sectionOf pkgData s)); [discriminate|].
            split; [assumption|].
            intros [H|H]; [assumption|].
            apply String.eqb_eq in H. now subst.
      - destruct (mergeSection_pin pkgData accum s name Ho Hs1 Ha)
          as (accum' & Hm & Ha' & Hnone & Hl).
        exists accum'. repeat (split; [assumption|]).
        rewrite Hl. split; [assumption|].
        intros [H|H]; [assumption|].
        apply String.eqb_eq in H. subst s. rewrite ordinary_s1 in Ho.
        discriminate. }
    destruct Hstep as (accum' & Hm & Ha' & Hnone & Hin' & Hkeep).
    rewrite Hm. simpl.
    destruct (IH accum' Hs2 Hd2 Ha') as (final & Hf & Haf & Hdf & Hinf & Hres);
      [|assumption|].
    { intros e He Hn. apply (Hdef e); [now apply Hnone | assumption]. }
    exists final. repeat split; try assumption.
    intros [H|H].
    + apply Hres. left. apply Hkeep. now left.
    + apply orb_true_iff in H as [H|H].
      * apply Hres. left. apply Hkeep. now right.
      * apply Hres. now right.
Qed.

End LowestWins.

Lemma In_definedEntries (k v : string) (o : Index (option string)) :
  In (k, v) (definedEntries o) -> In (k, Some v) o.
Proof.
  induction o as [|[k' [v'|]] r IH]; simpl; [contradiction| |].
  - intros [[= -> ->]|H]; [now left | right; now apply IH].
  - intros H. right. now apply IH.
Qed.

Lemma get_definedEntries (k : string) (o : Index (option string)) :
  Obj.wf o = true ->
  Obj.get k (definedEntries o)
  = match Obj.get k o with Some (Some v) => Some v | _ => None end.
Proof.
  induction o as [|[k' [v'|]] r IH]; simpl; [reflexivity| |]; intros W;
    apply andb_true_iff in W as [W1 W2].
  - destruct (String.eqb k k'); [reflexivity | now apply IH].
  - rewrite IH by assumption.
    destruct (String.eqb_spec k k') as [->|N]; [|reflexivity].
    unfold Obj.has in W1. now destruct (Obj.get k' r).
Qed.

Lemma wf_definedEntries (o : Index (option string)) :
  Obj.wf o = true -> Obj.wf (definedEntries o) = true.
Proof.
  induction o as [|[k' [v'|]] r IH]; simpl; [reflexivity| |]; intros W;
    apply andb_true_iff in W as [W1 W2]; [|now apply IH].
  rewrite IH, andb_true_r by assumption.
  unfold Obj.has in *. rewrite get_definedEntries by assumption.
  now destruct (Obj.get k' r) as [[?|]|].
Qed.

Section ResolverTheorems.

Context {semver : Semver}.

(** A defined entry that is neither a workspace package nor a catalog
    reference, and that the filter accepts, passes the [try] block. *)
Lemma filterDependencies_keeps (options : Options)
    (allDependencies : Index (option string)) (name spec : string)
    (pred : string -> string -> bool) :
  Obj.wf allDependencies = true ->
  (forall e, In e allDependencies -> snd e <> None) ->
  lookupSpec name allDependencies = Some spec ->
  workspacePackageMap (opt_workspacePackages options) name = false ->
  startsWith spec "catalog:" = false ->
  opt_filterAndReject options = Ok pred ->
  pred name spec = true ->
  exists res,
    filterDependencies options allDependencies = Ok res
    /\ Obj.get name res = Some spec.
Proof.
  intros W Hdef Hl Hws Hcat Hf Hp. unfold filterDependencies.
  destruct (filterObject_total allDependencies (notWorkspaceNorCatalog options))
    as [inner Hi].
  { intros k v Hin. unfold notWorkspaceNorCatalog.
    destruct (workspacePackageMap _ k); [reflexivity|].
    destruct v; [reflexivity|]. now destruct (Hdef _ Hin). }
  rewrite Hi, Hf. simpl.
  destruct (filterObject_total (definedEntries inner)
              (fun n v => Ok (pred n v))) as [res Hr]; [reflexivity|].
  exists res. split; [assumption|].
  pose proof (filterObject_wf _ _ _ Hi W) as Wi.
  rewrite (@filterObject_get _ _ _ _ name Hr (wf_definedEntries _ Wi)).
  rewrite get_definedEntries by assumption.
  rewrite (@filterObject_get _ _ _ _ name Hi W).
  unfold lookupSpec in Hl.
  destruct (Obj.get name allDependencies) as [[v|]|]; try discriminate.
  injection Hl as ->. unfold notWorkspaceNorCatalog.
  rewrite Hws, Hcat. simpl. now rewrite Hp.
Qed.

Context {laws : SemverLaws semver}.

(** C1 (amended).  Lowest wins: when a name is declared in two ordinary
    sections (any section but the packageManager pin, which names another
    package) with specs that are ranges, and the name is not excluded by
    the workspace packages or by the filter, getCurrentDependencies returns
    a map that binds the name to the spec with the lower minimum version,
    whatever the order in which the sections are scanned. *)
Theorem lowest_spec_wins (pkgData : PackageFile) (options : Options)
    (name s1 s2 a b : string) (va vb : SemVer)
    (pred : string -> string -> bool) :
  forallb (scanOk pkgData name) (opt_dep options) = true ->
  ordinary s1 = true -> ordinary s2 = true ->
  existsb (String.eqb s1) (opt_dep options) = true ->
  existsb (String.eqb s2) (opt_dep options) = true ->
  forallb (declaredOnlyIn pkgData name s1 s2) (opt_dep options) = true ->
  Obj.get name (sectionOf pkgData s1) = Some a ->
  Obj.get name (sectionOf pkgData s2) = Some b ->
  validRange a = true -> validRange b = true ->
  minVersion a = Some va -> minVersion b = Some vb ->
  gt vb va = true ->
  workspacePackageMap (opt_workspacePackages options) name = false ->
  opt_filterAndReject options = Ok pred -> pred name a = true ->
  exists res,
    getCurrentDependencies pkgData options = Ok res
    /\ Obj.get name res = Some a.
Proof.
  intros Hs O1 _ H1 _ Hd In1 In2 Ra Rb Ma Mb Lt Hws Hf Hp.
  destruct (mergeSections_lowest (laws := laws) pkgData name s1 s2 a b va vb
              O1 In1 In2 Ra Rb Ma Mb Lt (opt_dep options) [] Hs Hd eq_refl)
    as (final & Hm & Hok & Hdef & _ & Hres).
  - intros e [].
  - now left.
  - unfold accumOk in Hok. apply andb_true_iff in Hok as [W _].
    assert (Hcat : startsWith a "catalog:" = false).
    { destruct (startsWith a "catalog:") eqn:E; [|reflexivity].
      rewrite (validRange_catalog _ E) in Ra. discriminate. }
    destruct (filterDependencies_keeps options final name a pred W Hdef
                (Hres (or_intror H1)) Hws Hcat Hf Hp) as (res & Hr & Hg).
    exists res. unfold getCurrentDependencies. rewrite Hm. simpl.
    now rewrite Hr.
Qed.

(** C2 (amended).  During section merging, a spec seen again for a name
    that the accumulator already holds is dropped only when it is strictly
    greater than the existing one (both are ranges and its minimum version
    is greater); in every other case, a strictly lower spec, a tie or an
    incomparable pair, the later spec replaces the existing one. *)
Theorem later_spec_replaces_unless_greater (pkgData : PackageFile)
    (accum : Index (option string)) (s name spec old : string) :
  ordinary s = true ->
  sectionOk pkgData s = true ->
  accumOk accum = true ->
  Obj.get name (sectionOf pkgData s) = Some spec ->
  lookupSpec name accum = Some old ->
  exists accum',
    mergeSection pkgData accum s = Ok accum'
    /\ lookupSpec name accum'
       = Some (if strictlyGreater spec (Some old) then old else spec).
Proof.
  intros Ho Hs Ha Hin Hold.
  destruct (mergeSection_ordinary pkgData accum s Ho Hs Ha)
    as (accum' & Hm & _ & _ & Hl).
  exists accum'. split; [assumption|].
  rewrite Hl, Hin, Hold. now destruct (strictlyGreater spec (Some old)).
Qed.

(** Where the entries of the merged map come from. *)
Lemma mergeSections_origin (pkgData : PackageFile) (depSections : list string) :
  forall accum final name (v : option string),
    mergeSections pkgData depSections accum = Ok final ->
    In (name, v) final ->
    In (name, v) accum
    \/ exists s, In s depSections
         /\ if String.eqb s "packageManager"
            then In (name, v) (parsePackageManager pkgData)
            else exists spec, v = Some spec
                              /\ In (name, spec) (sectionOf pkgData s).
Proof.
  induction depSections as [|s rest IH]; simpl; intros accum final name v Hm Hin.
  - injection Hm as <-. now left.
  - destruct (mergeSection pkgData accum s) as [accum'|] eqn:Es; simpl in Hm;
      [|discriminate].
    destruct (IH _ _ _ _ Hm Hin) as [H|(s' & Hs' & H)].
    + unfold mergeSection in Es.
      destruct (String.eqb s "packageManager") eqn:Epm.
      * injection Es as <-. destruct (In_assign _ _ _ H) as [H1|H1]; [now left|].
        right. exists s. split; [now left|]. now rewrite Epm.
      * destruct (filterObject (sectionOf pkgData s) _) as [kept|] eqn:Ek;
          simpl in Es; [|discriminate].
        injection Es as <-. destruct (In_assign _ _ _ H) as [H1|H1]; [now left|].
        right. exists s. split; [now left|]. rewrite Epm.
        unfold someValues in H1.
        apply in_map_iff in H1 as [[k0 v0] [[= <- <-] H1]].
        exists v0. split; [reflexivity|].
        apply (filterObject_In _ _ _ _ _ Ek H1).
    + right. exists s'. split; [now right | assumption].
Qed.

(** C6 (amended).  Catalog exclusion: no entry of the map that
    getCurrentDependencies returns has a spec that starts with the marker
    [catalog:], with or without a catalog name; and a name that the scanned
    sections declare only by catalog references is not in the map at all,
    whatever the package file and the options. *)
Theorem catalog_references_excluded (pkgData : PackageFile) (options : Options)
    (res : Index string) :
  getCurrentDependencies pkgData options = Ok res ->
  (forall name spec,
      Obj.get name res = Some spec -> startsWith spec "catalog:" = false)
  /\ (forall name,
         onlyCatalogRefs pkgData (opt_dep options) name = true ->
         Obj.get name res = None).
Proof.
  unfold getCurrentDependencies. intros H.
  destruct (mergeSections pkgData (opt_dep options) []) as [allDeps|] eqn:Em;
    simpl in H; [|discriminate].
  destruct (filterDependencies options allDeps) as [res'|] eqn:Ef;
    [|discriminate].
  injection H as ->. unfold filterDependencies in Ef.
  destruct (filterObject allDeps _) as [inner|] eqn:Ei; simpl in Ef;
    [|discriminate].
  destruct (opt_filterAndReject options) as [pred|]; simpl in Ef; [|discriminate].
  assert (Hkey : forall name spec, Obj.get name res = Some spec ->
                 In (name, Some spec) allDeps
                 /\ startsWith spec "catalog:" = false).
  { intros name spec Hg. apply get_In in Hg.
    destruct (filterObject_In _ _ _ _ _ Ef Hg) as [H1 _].
    apply In_definedEntries in H1.
    destruct (filterObject_In _ _ _ _ _ Ei H1) as [H2 H3].
    split; [assumption|]. unfold notWorkspaceNorCatalog in H3.
    destruct (workspacePackageMap _ name); [discriminate|].
    injection H3 as H3. now apply negb_true_iff in H3. }
  split.
  - intros name spec Hg. apply (Hkey _ _ Hg).
  - intros name Honly.
    destruct (Obj.get name res) as [spec|] eqn:Hg; [|reflexivity].
    destruct (Hkey _ _ Hg) as [Hin Hcat].
    destruct (mergeSections_origin _ _ _ _ _ _ Em Hin) as [[]|(s & Hs & Horigin)].
    unfold onlyCatalogRefs in Honly. rewrite forallb_forall in Honly.
    specialize (Honly _ Hs).
    destruct (String.eqb s "packageManager").
    + rewrite forallb_forall in Honly. specialize (Honly _ Horigin).
      simpl in Honly. now rewrite String.eqb_refl in Honly.
    + destruct Horigin as (spec' & [= <-] & Horigin).
      rewrite forallb_forall in Honly. specialize (Honly _ Horigin).
      simpl in Honly. rewrite String.eqb_refl, Hcat in Honly. discriminate.
Qed.

End ResolverTheorems.

(** *** The resolver on the example manifests *)

Lemma lowest_spec_wins_witness :
  (exists res,
      getCurrentDependencies pkgTwoRanges
        (plainOptions ["dependencies"; "devDependencies"; "packageManager"]) = Ok res
      /\ Obj.get "react" res = Some "^17.0.0")
  /\ (exists res,
         getCurrentDependencies pkgTwoRanges
           (plainOptions ["devDependencies"; "dependencies"; "packageManager"]) = Ok res
         /\ Obj.get "react" res = Some "^17.0.0").
Proof.
  split.
  - apply (@lowest_spec_wins simpleSemver simpleSemverLaws pkgTwoRanges
             (plainOptions ["dependencies"; "devDependencies"; "packageManager"])
             "react" "devDependencies" "dependencies" "^17.0.0" "^18.0.0"
             (17, 0, 0) (18, 0, 0) (fun _ _ => true));
      reflexivity.
  - apply (@lowest_spec_wins simpleSemver simpleSemverLaws pkgTwoRanges
             (plainOptions ["devDependencies"; "dependencies"; "packageManager"])
             "react" "devDependencies" "dependencies" "^17.0.0" "^18.0.0"
             (17, 0, 0) (18, 0, 0) (fun _ _ => true));
      reflexivity.
Defined.

(** C1, as stated, fails.  The packageManager pin is a scanned section
    and its version is a range, yet it replaces the lower spec that the
    dependencies section declares for the same name; and a name that the
    options list as a workspace package is in no returned map, whatever
    its specs. *)
Lemma lower_spec_not_in_map :
  (Obj.get "npm" (sectionOf pkgPinned "dependencies") = Some "1.0.0"
   /\ parsePackageManager pkgPinned = [("npm", Some "2.0.0")]
   /\ validRange "1.0.0" = true /\ validRange "2.0.0" = true
   /\ isGreaterThanSafe "2.0.0" (Some "1.0.0") = Ok true
   /\ getCurrentDependencies pkgPinned
        (plainOptions ["dependencies"; "packageManager"])
      = Ok [("npm", "2.0.0")])
  /\ getCurrentDependencies pkgTwoRanges
       {| opt_dep := ["dependencies"; "devDependencies"];
          opt_workspacePackages := ["react"];
          opt_filterAndReject := Ok (fun _ _ => true);
          opt_packageManager := None;
          opt_upgrade := true |}
     = Ok [("left-pad", "1.0.0")].
Proof. repeat split. Qed.

Lemma later_spec_replaces_unless_greater_witness :
  exists accum',
    mergeSection pkgTie [("react", Some "^1.0.0")] "devDependencies" = Ok accum'
    /\ lookupSpec "react" accum' = Some "1.0.0".
Proof.
  apply (@later_spec_replaces_unless_greater simpleSemver pkgTie
           [("react", Some "^1.0.0")] "devDependencies" "react"
           "1.0.0" "^1.0.0"); reflexivity.
Defined.

(** C2, as stated, fails: on a tie and on an incomparable pair the map
    holds the later spec, not the one seen first. *)
Lemma first_seen_spec_is_replaced :
  (minVersion "^1.0.0" = minVersion "1.0.0"
   /\ Obj.get "react" (sectionOf pkgTie "dependencies") = Some "^1.0.0"
   /\ getCurrentDependencies pkgTie
        (plainOptions ["dependencies"; "devDependencies"])
      = Ok [("react", "1.0.0")])
  /\ (validRange "github:facebook/react" = false
      /\ Obj.get "react" (sectionOf pkgUrlLater "dependencies") = Some "1.0.0"
      /\ getCurrentDependencies pkgUrlLater
           (plainOptions ["dependencies"; "devDependencies"])
         = Ok [("react", "github:facebook/react")]).
Proof. repeat split. Qed.

(** C6, as stated, fails for a name that one section declares by a catalog
    reference and a section scanned later declares by a direct spec: the
    merge keeps the later spec, which is no catalog reference, and the name
    is in the map. *)
Lemma name_with_catalog_reference_in_map :
  Obj.get "react" (sectionOf pkgPeer "devDependencies") = Some "catalog:"
  /\ startsWith "catalog:" "catalog:" = true
  /\ getCurrentDependencies pkgPeer
       (plainOptions ["devDependencies"; "peerDependencies"])
     = Ok [("react", "^17.0.0")].
Proof. repeat split. Qed.

Lemma catalog_references_excluded_witness :
  (forall name spec,
      Obj.get name [("left-pad", "1.0.0")] = Some spec ->
      startsWith spec "catalog:" = false)
  /\ (forall name,
         onlyCatalogRefs pkgConsumer ["dependencies"] name = true ->
         Obj.get name [("left-pad", "1.0.0")] = None).
Proof.
  apply (@catalog_references_excluded simpleSemver pkgConsumer
           (plainOptions ["dependencies"])).
  reflexivity.
Defined.

Example consumer_reference_is_skipped :
  onlyCatalogRefs pkgConsumer ["dependencies"] "lodash" = true
  /\ getCurrentDependencies pkgConsumer (plainOptions ["dependencies"])
     = Ok [("left-pad", "1.0.0")]
  /\ getCatalogDependencies pkgConsumer (plainOptions ["dependencies"])
     = Ok [("lodash", "catalog:")].
Proof. repeat split. Qed.

(* ================================================================== *)
(** ** Paths in a document *)
(* ================================================================== *)

Lemma set_get_same {A} (k : string) (v : A) (o : Index A) :
  Obj.get k o = Some v -> Obj.set k v o = o.
Proof.
  induction o as [|[k' v'] r IH]; simpl; [discriminate|].
  destruct (String.eqb_spec k k') as [->|N].
  - now intros [= ->].
  - intros H. now rewrite IH.
Qed.

Lemma diverge_sym (p q : list string) : diverge p q = diverge q p.
Proof.
  revert q. induction p as [|a p IH]; intros [|b q]; simpl; try reflexivity.
  rewrite (String.eqb_sym b a). now rewrite IH.
Qed.

Lemma getIn_wrapPath_diverge (p q : list string) (v : value) :
  diverge p q = true -> getIn q (wrapPath p v) = None.
Proof.
  revert q. induction p as [|a p IH]; intros [|b q]; simpl; try discriminate.
  rewrite (String.eqb_sym b a).
  destruct (String.eqb a b); [apply IH | reflexivity].
Qed.

Lemma getIn_wrapPath (p : list string) (v : value) :
  getIn p (wrapPath p v) = Some v.
Proof.
  induction p as [|a p IH]; simpl; [reflexivity|].
  now rewrite String.eqb_refl.
Qed.

(** A path that exists can be set. *)
Lemma setIn_defined (p : list string) (v : value) :
  forall d, getIn p d <> None -> exists d', setIn p v d = Ok d'.
Proof.
  induction p as [|k rest IH]; simpl; intros d H.
  - now exists v.
  - destruct d as [| | | | |ms]; try now destruct H.
    destruct (Obj.get k ms) as [c|]; [|now destruct H].
    destruct (IH c H) as [c' ->]. simpl. eexists. reflexivity.
Qed.

(** After a set, the path holds the new value. *)
Lemma getIn_setIn_same (p : list string) (v : value) :
  forall d d', setIn p v d = Ok d' -> getIn p d' = Some v.
Proof.
  induction p as [|k rest IH]; simpl; intros d d' H.
  - now injection H as <-.
  - destruct d as [| | | | |ms]; try discriminate.
    destruct (Obj.get k ms) as [c|].
    + destruct (setIn rest v c) as [c'|] eqn:E; simpl in H; [|discriminate].
      injection H as <-. rewrite get_set_eq. apply (IH _ _ E).
    + injection H as <-. rewrite get_set_eq. apply getIn_wrapPath.
Qed.

(** A set leaves every path that parts ways with it as it was. *)
Lemma getIn_setIn_diverge (p : list string) (v : value) :
  forall q d d',
    diverge p q = true -> setIn p v d = Ok d' -> getIn q d' = getIn q d.
Proof.
  induction p as [|k rest IH]; simpl; intros q d d' Hd H; [discriminate|].
  destruct q as [|k' q']; [discriminate|].
  destruct d as [| | | | |ms]; try discriminate. simpl.
  destruct (String.eqb_spec k k') as [<-|N].
  - destruct (Obj.get k ms) as [c|] eqn:Ek.
    + destruct (setIn rest v c) as [c'|] eqn:E; simpl in H; [|discriminate].
      injection H as <-. rewrite get_set_eq. apply (IH _ _ _ Hd E).
    + injection H as <-. rewrite get_set_eq.
      now apply getIn_wrapPath_diverge.
  - assert (Hk : forall x, Obj.get k' (Obj.set k x ms) = Obj.get k' ms).
    { intros x. apply get_set_neq. congruence. }
    destruct (Obj.get k ms) as [c|].
    + destruct (setIn rest v c) as [c'|]; simpl in H; [|discriminate].
      injection H as <-. now rewrite Hk.
    + injection H as <-. now rewrite Hk.
Qed.

(** Setting the value that is there changes nothing. *)
Lemma setIn_same_value (p : list string) (v : value) :
  forall d, getIn p d = Some v -> setIn p v d = Ok d.
Proof.
  induction p as [|k rest IH]; simpl; intros d H.
  - now injection H as ->.
  - destruct d as [| | | | |ms]; try discriminate.
    destruct (Obj.get k ms) as [c|] eqn:Ek; [|discriminate].
    rewrite (IH _ H). simpl. now rewrite set_get_same.
Qed.

Lemma absentOrHolds_setIn (p : list string) (v : string) (d d' : value) :
  setIn p (VStr v) d = Ok d' -> absentOrHolds p v d' = true.
Proof.
  intros H. unfold absentOrHolds. rewrite (getIn_setIn_same _ _ _ _ H).
  apply String.eqb_refl.
Qed.

(** *** setIfPresent *)

Lemma setIfPresent_defined (p : list string) (v : string) (d : value) :
  exists d', setIfPresent p v d = Ok d'.
Proof.
  unfold setIfPresent. destruct (getIn p d) eqn:E; [|now exists d].
  apply setIn_defined. congruence.
Qed.

Lemma setIfPresent_holds (p : list string) (v : string) (d d' : value) :
  setIfPresent p v d = Ok d' -> absentOrHolds p v d' = true.
Proof.
  unfold setIfPresent. destruct (getIn p d) eqn:E.
  - apply absentOrHolds_setIn.
  - intros [= <-]. unfold absentOrHolds. now rewrite E.
Qed.

Lemma setIfPresent_diverge (p q : list string) (v : string) (d d' : value) :
  diverge p q = true -> setIfPresent p v d = Ok d' -> getIn q d' = getIn q d.
Proof.
  unfold setIfPresent. intros Hd. destruct (getIn p d).
  - now apply getIn_setIn_diverge.
  - now intros [= <-].
Qed.

Lemma setIfPresent_settled (p : list string) (v : string) (d : value) :
  absentOrHolds p v d = true -> setIfPresent p v d = Ok d.
Proof.
  unfold absentOrHolds, setIfPresent.
  destruct (getIn p d) as [[| | |s| |]|] eqn:E; try discriminate; [|reflexivity].
  intros H. apply String.eqb_eq in H. subst s. now apply setIn_same_value.
Qed.

(** *** Guarded sets along several paths *)

Lemma bind_Ok {A} (m : outcome A) : (let? x := m in Ok x) = m.
Proof. now destruct m. Qed.

Lemma setPaths_defined (ps : list (list string)) (v : string) :
  forall d, exists d', setPaths ps v d = Ok d'.
Proof.
  unfold setPaths. induction ps as [|p r IH]; simpl; intros d.
  - now exists d.
  - destruct (setIfPresent_defined p v d) as [d' ->]. simpl. apply IH.
Qed.

Lemma setPaths_frame (ps : list (list string)) (v : string) (q : list string) :
  forall d d',
    forallb (fun p => diverge p q) ps = true ->
    setPaths ps v d = Ok d' -> getIn q d' = getIn q d.
Proof.
  unfold setPaths. induction ps as [|p r IH]; simpl; intros d d' Hq H.
  - now injection H as <-.
  - apply andb_true_iff in Hq as [Hq1 Hq2].
    destruct (setIfPresent p v d) as [d1|] eqn:E; simpl in H; [|discriminate].
    rewrite (IH _ _ Hq2 H). apply (setIfPresent_diverge _ _ _ _ _ Hq1 E).
Qed.

Lemma setPaths_holds (ps : list (list string)) (v : string) :
  forall d d',
    pairwiseDiverge ps = true ->
    setPaths ps v d = Ok d' ->
    forallb (fun p => absentOrHolds p v d') ps = true.
Proof.
  induction ps as [|p r IH]; simpl; intros d d' Hp H; [reflexivity|].
  apply andb_true_iff in Hp as [Hp1 Hp2]. unfold setPaths in H. simpl in H.
  destruct (setIfPresent p v d) as [d1|] eqn:E; simpl in H; [|discriminate].
  rewrite (IH _ _ Hp2 H), andb_true_r.
  unfold absentOrHolds.
  rewrite (setPaths_frame r v p d1 d'); [| |exact H].
  - apply (setIfPresent_holds _ _ _ _ E).
  - apply forallb_forall. intros q Hq. rewrite diverge_sym.
    rewrite forallb_forall in Hp1. now apply Hp1.
Qed.

Lemma setPaths_settled (ps : list (list string)) (v : string) (d : value) :
  forallb (fun p => absentOrHolds p v d) ps = true -> setPaths ps v d = Ok d.
Proof.
  unfold setPaths. induction ps as [|p r IH]; simpl; intros H; [reflexivity|].
  apply andb_true_iff in H as [H1 H2].
  rewrite (setIfPresent_settled _ _ _ H1). simpl. now apply IH.
Qed.

(* ================================================================== *)
(** ** The YAML path of the patcher *)
(* ================================================================== *)

Lemma yamlStep_setPaths (catalogName : string) (d : value) (dep v : string) :
  Pure.yamlStep catalogName d (dep, v)
  = setPaths (yamlPaths catalogName dep) v d.
Proof.
  unfold Pure.yamlStep, yamlPaths, setPaths.
  destruct (String.eqb catalogName "default"); simpl.
  - destruct (setIfPresent ["catalog"; dep] v d); simpl; [|reflexivity].
    now rewrite bind_Ok.
  - now rewrite bind_Ok.
Qed.

Lemma yamlPaths_pairwise (catalogName dep : string) :
  pairwiseDiverge (yamlPaths catalogName dep) = true.
Proof.
  unfold yamlPaths. now destruct (String.eqb catalogName "default").
Qed.

Lemma yamlPaths_diverge (catalogName dep dep' : string) (p q : list string) :
  dep <> dep' ->
  In p (yamlPaths catalogName dep) -> In q (yamlPaths catalogName dep') ->
  diverge p q = true.
Proof.
  intros N. apply String.eqb_neq in N. unfold yamlPaths.
  destruct (String.eqb catalogName "default"); simpl;
    intros Hp Hq; repeat (destruct Hp as [<-|Hp]; [|]);
    try contradiction; repeat (destruct Hq as [<-|Hq]; [|]);
    try contradiction; simpl; rewrite ?String.eqb_refl, ?N; reflexivity.
Qed.

Lemma wf_head_fresh {A} (e : string * A) (r : Index A) :
  Obj.wf (e :: r) = true -> forall e', In e' r -> fst e' <> fst e.
Proof.
  destruct e as [k v]. simpl. intros W [k' v'] Hin. simpl. intros ->.
  apply andb_true_iff in W as [W _]. rewrite (In_has _ _ _ Hin) in W.
  discriminate.
Qed.

Lemma wf_tail {A} (e : string * A) (r : Index A) :
  Obj.wf (e :: r) = true -> Obj.wf r = true.
Proof.
  destruct e. simpl. intros W. now apply andb_true_iff in W as [_ W].
Qed.

Lemma wf_filter {A} (f : string * A -> bool) (o : Index A) :
  Obj.wf o = true -> Obj.wf (filter f o) = true.
Proof.
  induction o as [|[k v] r IH]; simpl; [reflexivity|]. intros W.
  apply andb_true_iff in W as [W1 W2].
  destruct (f (k, v)); [|now apply IH]. simpl. rewrite IH, andb_true_r by assumption.
  destruct (Obj.has k (filter f r)) eqn:E; [|reflexivity].
  unfold Obj.has in E. destruct (Obj.get k (filter f r)) as [x|] eqn:G;
    [|discriminate].
  apply get_In, filter_In in G as [G _]. rewrite (In_has _ _ _ G) in W1.
  discriminate.
Qed.

(** One run of the YAML steps: it returns, every entry is settled in the
    result, and a path that parts ways with all the paths of the entries is
    untouched. *)
Lemma yamlRun (catalogName : string) (ops : Index string) :
  forall d,
    Obj.wf ops = true ->
    exists d1,
      foldOutcome (Pure.yamlStep catalogName) ops d = Ok d1
      /\ (forall e, In e ops -> yamlSettled catalogName d1 e = true)
      /\ (forall q,
             (forall e p, In e ops -> In p (yamlPaths catalogName (fst e)) ->
                          diverge p q = true) ->
             getIn q d1 = getIn q d).
Proof.
  induction ops as [|[dep v] r IH]; cbn [foldOutcome]; intros d W.
  - exists d. split; [reflexivity|]. split; [intros e []|reflexivity].
  - rewrite yamlStep_setPaths.
    destruct (setPaths_defined (yamlPaths catalogName dep) v d) as [d' Hd'].
    rewrite Hd'. simpl.
    destruct (IH d' (wf_tail _ _ W)) as (d1 & Hrun & Hset & Hframe).
    exists d1. split; [assumption|]. split.
    + intros e [<-|He]; [|now apply Hset].
      unfold yamlSettled. simpl.
      pose proof (setPaths_holds _ _ _ _ (yamlPaths_pairwise catalogName dep) Hd')
        as Hh.
      rewrite forallb_forall in Hh. apply forallb_forall. intros p Hp.
      unfold absentOrHolds. rewrite Hframe; [apply (Hh _ Hp)|].
      intros e' p' He' Hp'.
      apply (yamlPaths_diverge catalogName (fst e') dep); try assumption.
      apply (wf_head_fresh _ _ W _ He').
    + intros q Hq. rewrite Hframe.
      * apply (setPaths_frame (yamlPaths catalogName dep) v q d d'); [|assumption].
        apply forallb_forall. intros p Hp. apply (Hq (dep, v)); [now left|assumption].
      * intros e p He Hp. apply (Hq e); [now right | assumption].
Qed.

(** On a document where every entry is settled, the run changes nothing. *)
Lemma yamlRun_settled (catalogName : string) (ops : Index string) (d : value) :
  (forall e, In e ops -> yamlSettled catalogName d e = true) ->
  foldOutcome (Pure.yamlStep catalogName) ops d = Ok d.
Proof.
  induction ops as [|[dep v] r IH]; cbn [foldOutcome]; intros H; [reflexivity|].
  rewrite yamlStep_setPaths, setPaths_settled.
  - simpl. apply IH. intros e He. apply H. now right.
  - apply (H (dep, v)). now left.
Qed.

(** The YAML patcher prints the document that the steps leave: the tree
    they yield, the comments of the input, the layout of the library. *)
Lemma upgradeYaml_printed (fileContent : Text) (catalogName : string)
    (current upgraded : Index string) :
  Pure.upgradeYamlCatalogData fileContent catalogName current upgraded
  = let? d :=
      foldOutcome (Pure.yamlStep catalogName)
        (filter (fun e => truthyAt (fst e) current) upgraded) (tree fileContent) in
    Ok {| tree := d; indentation := 2; relaxed := relaxed fileContent |}.
Proof. reflexivity. Qed.

Lemma asPrinted_layout (text : Text) :
  asPrinted text <-> indentation text = 2.
Proof.
  unfold asPrinted, toString, parseDocument. destruct text as [t i r].
  cbn. split; [now intros [= ->] | now intros ->].
Qed.

Lemma upgradeYaml_idempotent (fileContent : Text) (catalogName : string)
    (current upgraded : Index string) :
  Obj.wf upgraded = true ->
  exists t1,
    Pure.upgradeYamlCatalogData fileContent catalogName current upgraded = Ok t1
    /\ Pure.upgradeYamlCatalogData t1 catalogName current upgraded = Ok t1.
Proof.
  intros W. rewrite upgradeYaml_printed.
  destruct (yamlRun catalogName
              (filter (fun e => truthyAt (fst e) current) upgraded)
              fileContent (wf_filter _ _ W)) as (d1 & Hrun & Hset & _).
  rewrite Hrun. cbn [obind].
  eexists. split; [reflexivity|].
  rewrite upgradeYaml_printed. cbn [tree relaxed].
  now rewrite yamlRun_settled.
Qed.

(* ================================================================== *)
(** ** The JSON path of the patcher *)
(* ================================================================== *)

Lemma modify_applyEdits (content : Text) (path : list string) (v : string) :
  (let? edits := modify content path v in Ok (applyEdits content edits))
  = setText path v content.
Proof.
  unfold modify, applyEdits, setText.
  destruct (setIn path (VStr v) content) as [t|] eqn:E; simpl; [|reflexivity].
  now rewrite E.
Qed.

Lemma withTree_same (text : Text) : withTree text text = text.
Proof. now destruct text. Qed.

(** The edit of a text, by the edit of its tree. *)

Lemma setText_defined (p : list string) (v : string) (d : Text) :
  getIn p d <> None -> exists d', setText p v d = Ok d'.
Proof.
  intros H. unfold setText.
  destruct (setIn_defined p (VStr v) d H) as [t ->]. simpl. eexists. reflexivity.
Qed.

Lemma setText_tree (p : list string) (v : string) (d d' : Text) :
  setText p v d = Ok d' ->
  setIn p (VStr v) d = Ok (tree d')
  /\ indentation d' = indentation d /\ relaxed d' = relaxed d.
Proof.
  unfold setText. destruct (setIn p (VStr v) d) as [t|]; simpl; [|discriminate].
  intros [= <-]. now repeat split.
Qed.

Lemma getIn_setText_same (p : list string) (v : string) (d d' : Text) :
  setText p v d = Ok d' -> getIn p d' = Some (VStr v).
Proof.
  intros H. apply setText_tree in H as (H & _). apply (getIn_setIn_same _ _ _ _ H).
Qed.

Lemma getIn_setText_diverge (p : list string) (v : string) (q : list string)
    (d d' : Text) :
  diverge p q = true -> setText p v d = Ok d' -> getIn q d' = getIn q d.
Proof.
  intros Hd H. apply setText_tree in H as (H & _).
  apply (getIn_setIn_diverge _ _ _ _ _ Hd H).
Qed.

Lemma setText_same_value (p : list string) (v : string) (d : Text) :
  getIn p d = Some (VStr v) -> setText p v d = Ok d.
Proof.
  intros H. unfold setText. rewrite (setIn_same_value _ _ _ H). simpl.
  now rewrite withTree_same.
Qed.

Lemma exists_workspaces_path (fileRoot : value) (catalogName dep : string) :
  exists_at ("workspaces" :: Pure.keyPath catalogName dep) fileRoot = true ->
  Pure.hasWorkspacesCatalogs fileRoot = true.
Proof.
  unfold exists_at, Pure.hasWorkspacesCatalogs, Pure.keyPath, findNodeAtLocation,
    exists_at.
  destruct fileRoot as [| | | | |ms]; try discriminate. simpl.
  destruct (Obj.get "workspaces" ms) as [ws|]; [|discriminate].
  destruct (truthyStr catalogName); simpl;
    (destruct ws as [| | | | |ms']; try discriminate); simpl.
  - destruct (Obj.get "catalogs" ms'); [|discriminate].
    intros _. now rewrite orb_true_r.
  - destruct (Obj.get "catalog" ms'); [reflexivity | discriminate].
Qed.

(** What a step of the [reduce] does when the paths found in the parsed
    tree are still in the content. *)
Lemma jsonStep_spec (fileRoot : value) (catalogName : string)
    (current : Index string) (content : Text) (dep v : string) :
  (forall q, In q (jsonPaths catalogName dep) ->
             exists_at q fileRoot = true -> getIn q content <> None) ->
  Pure.jsonStep fileRoot catalogName current content (dep, v)
  = if strictEq (Obj.get dep current) v then Ok content
    else match jsonTarget fileRoot catalogName dep with
         | Some target => setText target v content
         | None => Ok content
         end.
Proof.
  intros Hin. unfold Pure.jsonStep, jsonTarget, findNodeAtLocation.
  destruct (strictEq (Obj.get dep current) v); [reflexivity|].
  set (kp := Pure.keyPath catalogName dep) in *.
  destruct (exists_at ("workspaces" :: kp) fileRoot) eqn:Ews.
  - rewrite (exists_workspaces_path _ _ _ Ews). cbn [andb].
    destruct (exists_at kp fileRoot) eqn:Ekp.
    + rewrite modify_applyEdits.
      destruct (setText_defined kp v content) as [c1 ->].
      * apply Hin; [now left | assumption].
      * cbn [obind]. apply modify_applyEdits.
    + cbn [obind]. apply modify_applyEdits.
  - rewrite andb_false_r.
    destruct (exists_at kp fileRoot) eqn:Ekp; [|reflexivity].
    now rewrite modify_applyEdits, bind_Ok.
Qed.

Lemma jsonPaths_diverge (catalogName dep dep' : string) (p q : list string) :
  dep <> dep' ->
  In p (jsonPaths catalogName dep) -> In q (jsonPaths catalogName dep') ->
  diverge p q = true.
Proof.
  intros N. apply String.eqb_neq in N. unfold jsonPaths, Pure.keyPath.
  destruct (truthyStr catalogName); simpl;
    intros [<-|[<-|[]]] [<-|[<-|[]]]; simpl;
    rewrite ?String.eqb_refl, ?N; reflexivity.
Qed.

Lemma jsonPaths_same_or_diverge (catalogName dep : string) (p q : list string) :
  In p (jsonPaths catalogName dep) -> In q (jsonPaths catalogName dep) ->
  p = q \/ diverge p q = true.
Proof.
  unfold jsonPaths, Pure.keyPath.
  destruct (truthyStr catalogName); simpl;
    intros [<-|[<-|[]]] [<-|[<-|[]]]; auto.
Qed.

Lemma jsonTarget_In (fileRoot : value) (catalogName dep : string)
    (target : list string) :
  jsonTarget fileRoot catalogName dep = Some target ->
  In target (jsonPaths catalogName dep) /\ exists_at target fileRoot = true.
Proof.
  unfold jsonTarget, jsonPaths.
  destruct (exists_at ("workspaces" :: _) fileRoot) eqn:E1.
  - intros [= <-]. split; [right; now left | assumption].
  - destruct (exists_at (Pure.keyPath _ _) fileRoot) eqn:E2; [|discriminate].
    intros [= <-]. split; [now left | assumption].
Qed.

Lemma exists_at_getIn (q : list string) (d d' : value) :
  getIn q d = getIn q d' -> exists_at q d = exists_at q d'.
Proof. unfold exists_at. now intros ->. Qed.

(** One step, from a content that still has the paths of its entry as the
    parsed tree has them. *)
Lemma jsonStep_effect (fileRoot : value) (catalogName : string)
    (current : Index string) (content : Text) (dep v : string) :
  (forall q, In q (jsonPaths catalogName dep) ->
             getIn q content = getIn q fileRoot) ->
  exists d',
    Pure.jsonStep fileRoot catalogName current content (dep, v) = Ok d'
    /\ (forall q,
           (forall p, In p (jsonPaths catalogName dep) -> diverge p q = true) ->
           getIn q d' = getIn q content)
    /\ (strictEq (Obj.get dep current) v = false ->
        forall target, jsonTarget fileRoot catalogName dep = Some target ->
                       getIn target d' = Some (VStr v))
    /\ (forall q, In q (jsonPaths catalogName dep) ->
                  exists_at q d' = exists_at q fileRoot).
Proof.
  intros Hinv. rewrite jsonStep_spec.
  2:{ intros q Hq He. rewrite (Hinv _ Hq). unfold exists_at in He.
      now destruct (getIn q fileRoot). }
  assert (Hstay : forall q, In q (jsonPaths catalogName dep) ->
                            exists_at q content = exists_at q fileRoot).
  { intros q Hq. apply exists_at_getIn. now apply Hinv. }
  destruct (strictEq (Obj.get dep current) v).
  { exists content. repeat split; try assumption; try reflexivity. discriminate. }
  destruct (jsonTarget fileRoot catalogName dep) as [target|] eqn:Et.
  2:{ exists content. repeat split; try assumption; try reflexivity. discriminate. }
  destruct (jsonTarget_In _ _ _ _ Et) as [Hin Hex].
  destruct (setText_defined target v content) as [d' Hd'].
  { rewrite (Hinv _ Hin). unfold exists_at in Hex.
    now destruct (getIn target fileRoot). }
  exists d'. split; [assumption|]. split; [|split].
  - intros q Hq. apply (getIn_setText_diverge target v); [|assumption].
    now apply Hq.
  - intros _ t [= <-]. apply (getIn_setText_same _ _ _ _ Hd').
  - intros q Hq.
    destruct (jsonPaths_same_or_diverge _ _ _ _ Hin Hq) as [<-|Hd].
    + unfold exists_at at 1. now rewrite (getIn_setText_same _ _ _ _ Hd'), Hex.
    + rewrite <- (Hstay _ Hq). apply exists_at_getIn.
      apply (getIn_setText_diverge target v); assumption.
Qed.

(** One run of the JSON steps. *)
Lemma jsonRun (fileRoot : value) (catalogName : string)
    (current ops : Index string) :
  forall content : Text,
    Obj.wf ops = true ->
    (forall e q, In e ops -> In q (jsonPaths catalogName (fst e)) ->
                 getIn q content = getIn q fileRoot) ->
    exists d1,
      foldOutcome (Pure.jsonStep fileRoot catalogName current) ops content = Ok d1
      /\ (forall q,
             (forall e p, In e ops -> In p (jsonPaths catalogName (fst e)) ->
                          diverge p q = true) ->
             getIn q d1 = getIn q content)
      /\ (forall e, In e ops ->
                    strictEq (Obj.get (fst e) current) (snd e) = false ->
                    forall target,
                      jsonTarget fileRoot catalogName (fst e) = Some target ->
                      getIn target d1 = Some (VStr (snd e)))
      /\ (forall e q, In e ops -> In q (jsonPaths catalogName (fst e)) ->
                      exists_at q d1 = exists_at q fileRoot).
Proof.
  induction ops as [|[dep v] r IH]; cbn [foldOutcome]; intros content W Hinv.
  - exists content. split; [reflexivity|]. split; [reflexivity|].
    split; intros e; intros; contradiction.
  - destruct (jsonStep_effect fileRoot catalogName current content dep v)
      as (d' & Hstep & Hframe' & Hset' & Hex').
    { intros q Hq. apply (Hinv (dep, v)); [now left | assumption]. }
    rewrite Hstep. cbn [obind].
    assert (Hfresh : forall e' p q, In e' r ->
              In p (jsonPaths catalogName (fst e')) ->
              In q (jsonPaths catalogName dep) -> diverge p q = true).
    { intros e' p q He' Hp Hq.
      apply (jsonPaths_diverge catalogName (fst e') dep); try assumption.
      apply (wf_head_fresh _ _ W _ He'). }
    destruct (IH d' (wf_tail _ _ W)) as (d1 & Hrun & Hframe & Hset & Hex).
    { intros e q He Hq. rewrite Hframe'.
      - apply (Hinv e); [now right | assumption].
      - intros p Hp. rewrite diverge_sym. now apply (Hfresh e q p). }
    exists d1. split; [assumption|]. split; [|split].
    + intros q Hq. rewrite Hframe.
      * apply Hframe'. intros p Hp. apply (Hq (dep, v)); [now left | assumption].
      * intros e p He Hp. apply (Hq e); [now right | assumption].
    + intros e [<-|He] Hne target Ht; [|now apply (Hset e)].
      simpl in *. rewrite Hframe; [now apply Hset'|].
      intros e' p He' Hp. apply (Hfresh e' p target He' Hp).
      apply (jsonTarget_In _ _ _ _ Ht).
    + intros e q [<-|He] Hq; [|now apply (Hex e)].
      simpl in *. rewrite <- (Hex' _ Hq). apply exists_at_getIn.
      apply Hframe. intros e' p He' Hp. now apply (Hfresh e' p q).
Qed.

Lemma foldOutcome_fixed {A B} (f : A -> B -> outcome A) (l : list B) (a : A) :
  (forall x, In x l -> f a x = Ok a) -> foldOutcome f l a = Ok a.
Proof.
  induction l as [|x r IH]; cbn [foldOutcome]; intros H; [reflexivity|].
  rewrite (H x) by now left. simpl. apply IH. intros y Hy. apply H. now right.
Qed.

Lemma jsonTarget_ext (d d' : value) (catalogName dep : string) :
  (forall q, In q (jsonPaths catalogName dep) ->
             exists_at q d' = exists_at q d) ->
  jsonTarget d' catalogName dep = jsonTarget d catalogName dep.
Proof.
  intros H. unfold jsonTarget.
  rewrite (H ("workspaces" :: Pure.keyPath catalogName dep)) by (right; now left).
  rewrite (H (Pure.keyPath catalogName dep)) by now left.
  reflexivity.
Qed.

Lemma upgradeJson_idempotent (fileContent : Text) (catalogName : string)
    (current upgraded : Index string) :
  Obj.wf upgraded = true ->
  exists t1,
    Pure.upgradeJsonCatalogData fileContent catalogName current upgraded = Ok t1
    /\ Pure.upgradeJsonCatalogData t1 catalogName current upgraded = Ok t1.
Proof.
  intros W. unfold Pure.upgradeJsonCatalogData, parseTree.
  destruct (jsonRun fileContent catalogName current upgraded fileContent W)
    as (d1 & Hrun & _ & Hset & Hex); [reflexivity|].
  exists d1. split; [assumption|].
  apply foldOutcome_fixed. intros [dep v] He.
  rewrite jsonStep_spec.
  - destruct (strictEq (Obj.get dep current) v) eqn:Es; [reflexivity|].
    rewrite (jsonTarget_ext fileContent d1) by (intros q Hq; apply (Hex _ _ He Hq)).
    destruct (jsonTarget fileContent catalogName dep) as [target|] eqn:Et;
      [|reflexivity].
    apply setText_same_value. apply (Hset _ He Es _ Et).
  - intros q _ Hq. unfold exists_at in Hq. now destruct (getIn q d1).
Qed.

(* ================================================================== *)
(** ** Properties of upgradeCatalogData on file content *)
(* ================================================================== *)

(** C8.  Idempotence: for a supported file type, upgradeCatalogData
    returns a text, and applying the same operations to that text returns
    it unchanged. *)
Theorem upgradeCatalogData_idempotent (fileContent : Text)
    (fileExtension catalogName : string) (current upgraded : Index string) :
  supported fileExtension = true ->
  Obj.wf upgraded = true ->
  exists t1,
    Pure.upgradeCatalogData fileContent fileExtension catalogName current upgraded
    = Ok t1
    /\ Pure.upgradeCatalogData t1 fileExtension catalogName current upgraded
       = Ok t1.
Proof.
  unfold supported, Pure.upgradeCatalogData. intros Hs W.
  destruct (String.eqb fileExtension ".yaml" || String.eqb fileExtension ".yml").
  - now apply upgradeYaml_idempotent.
  - simpl in Hs. rewrite Hs. now apply upgradeJson_idempotent.
Qed.

Lemma upgradeCatalogData_idempotent_witness :
  exists t1,
    Pure.upgradeCatalogData (jsonDual "1.0.0" "1.0.0") ".json" ""
      [("foo", "1.0.0")] [("foo", "2.0.0")] = Ok t1
    /\ Pure.upgradeCatalogData t1 ".json" ""
         [("foo", "1.0.0")] [("foo", "2.0.0")] = Ok t1.
Proof.
  apply (upgradeCatalogData_idempotent (jsonDual "1.0.0" "1.0.0") ".json" ""
           [("foo", "1.0.0")] [("foo", "2.0.0")]); reflexivity.
Defined.

Lemma jsonRun_all_same (fileRoot : value) (catalogName : string)
    (current upgraded : Index string) (content : Text) :
  forallb (fun e => strictEq (Obj.get (fst e) current) (snd e)) upgraded = true ->
  foldOutcome (Pure.jsonStep fileRoot catalogName current) upgraded content
  = Ok content.
Proof.
  intros H. rewrite forallb_forall in H. apply foldOutcome_fixed.
  intros [dep v] He. specialize (H _ He). simpl in H.
  unfold Pure.jsonStep. now rewrite H.
Qed.

(** The JSON steps change the tree of the text, and no other byte. *)
Lemma jsonRun_layout (fileRoot : value) (catalogName : string)
    (current ops : Index string) :
  forall content result : Text,
    foldOutcome (Pure.jsonStep fileRoot catalogName current) ops content
    = Ok result ->
    indentation result = indentation content /\ relaxed result = relaxed content.
Proof.
  induction ops as [|[dep v] r IH]; cbn [foldOutcome]; intros content result H.
  - injection H as <-. now split.
  - destruct (Pure.jsonStep fileRoot catalogName current content (dep, v))
      as [c1|] eqn:E; cbn [obind] in H; [|discriminate].
    destruct (IH _ _ H) as [H1 H2]. rewrite H1, H2. clear IH H H1 H2.
    unfold Pure.jsonStep in E.
    destruct (strictEq (Obj.get dep current) v); [injection E as <-; now split|].
    assert (Hedit : forall p c,
              (let? edits := modify content p v in Ok (applyEdits content edits))
              = Ok c ->
              indentation c = indentation content /\ relaxed c = relaxed content).
    { intros p c Hc. rewrite modify_applyEdits in Hc.
      now apply setText_tree in Hc as (_ & Hc). }
    destruct (findNodeAtLocation fileRoot (Pure.keyPath catalogName dep)).
    + destruct (let? edits := modify content (Pure.keyPath catalogName dep) v in
                Ok (applyEdits content edits)) as [c0|] eqn:E0;
        cbn [obind] in E; [|discriminate].
      destruct (Pure.hasWorkspacesCatalogs fileRoot
                && findNodeAtLocation fileRoot
                     ("workspaces" :: Pure.keyPath catalogName dep)).
      * apply (Hedit _ _ E).
      * injection E as <-. apply (Hedit _ _ E0).
    + cbn [obind] in E.
      destruct (Pure.hasWorkspacesCatalogs fileRoot
                && findNodeAtLocation fileRoot
                     ("workspaces" :: Pure.keyPath catalogName dep)).
      * apply (Hedit _ _ E).
      * injection E as <-. now split.
Qed.

(** C7 (amended).  No-op purity: on the JSON path, operations whose old
    version equals their new version leave the text as it is, byte for
    byte.  The YAML path does not compare the two and prints the document
    again: when the entries that the patcher locates hold that version
    already, the text it returns has the tree and the comments of the
    input, and it is the input itself when the input is in the form in
    which the library prints it. *)
Theorem same_version_operations_keep_text (fileContent : Text)
    (fileExtension catalogName : string) (current upgraded : Index string) :
  supported fileExtension = true ->
  forallb (fun e => strictEq (Obj.get (fst e) current) (snd e)) upgraded = true ->
  String.eqb fileExtension ".json"
  || forallb (yamlSettled catalogName fileContent) upgraded = true ->
  exists result,
    Pure.upgradeCatalogData fileContent fileExtension catalogName current upgraded
    = Ok result
    /\ tree result = tree fileContent
    /\ relaxed result = relaxed fileContent
    /\ (String.eqb fileExtension ".json" = true -> result = fileContent)
    /\ (asPrinted fileContent -> result = fileContent).
Proof.
  unfold supported, Pure.upgradeCatalogData. intros Hs Hsame Hset.
  destruct (String.eqb fileExtension ".yaml" || String.eqb fileExtension ".yml")
    eqn:Ey.
  - assert (Hj : String.eqb fileExtension ".json" = false).
    { apply orb_true_iff in Ey as [E|E]; apply String.eqb_eq in E; now subst. }
    rewrite Hj in Hset. simpl in Hset. rewrite forallb_forall in Hset.
    rewrite upgradeYaml_printed, yamlRun_settled.
    + cbn [obind]. eexists.
      split; [reflexivity|]. split; [reflexivity|]. split; [reflexivity|].
      split; [now rewrite Hj | now intros Hp].
    + intros e He. apply Hset. now apply filter_In in He.
  - simpl in Hs. rewrite Hs. unfold Pure.upgradeJsonCatalogData.
    exists fileContent. rewrite jsonRun_all_same by assumption.
    now repeat split.
Qed.

Lemma same_version_operations_keep_text_witness :
  Pure.upgradeCatalogData (jsonDual "1.0.0" "3.0.0") ".json" ""
    [("foo", "1.0.0")] [("foo", "1.0.0")] = Ok (jsonDual "1.0.0" "3.0.0")
  /\ Pure.upgradeCatalogData (yamlTwoDefaults "2.0.0" "2.0.0") ".yaml" "default"
       [("foo", "2.0.0")] [("foo", "2.0.0")] = Ok (yamlTwoDefaults "2.0.0" "2.0.0")
  /\ exists result,
       Pure.upgradeCatalogData (indentedByFour (yamlTwoDefaults "2.0.0" "2.0.0"))
         ".yaml" "default" [("foo", "2.0.0")] [("foo", "2.0.0")] = Ok result
       /\ tree result = tree (yamlTwoDefaults "2.0.0" "2.0.0").
Proof.
  split; [|split].
  - destruct (same_version_operations_keep_text (jsonDual "1.0.0" "3.0.0") ".json"
                "" [("foo", "1.0.0")] [("foo", "1.0.0")])
      as (result & H & _ & _ & Hjson & _);
      [reflexivity | reflexivity | reflexivity |].
    rewrite H, Hjson; reflexivity.
  - destruct (same_version_operations_keep_text (yamlTwoDefaults "2.0.0" "2.0.0")
                ".yaml" "default" [("foo", "2.0.0")] [("foo", "2.0.0")])
      as (result & H & _ & _ & _ & Hprinted);
      [reflexivity | reflexivity | reflexivity |].
    rewrite H, Hprinted; reflexivity.
  - destruct (same_version_operations_keep_text
                (indentedByFour (yamlTwoDefaults "2.0.0" "2.0.0"))
                ".yaml" "default" [("foo", "2.0.0")] [("foo", "2.0.0")])
      as (result & H & Htree & _); [reflexivity | reflexivity | reflexivity |].
    exists result. split; [exact H | exact Htree].
Defined.

(** The YAML path prints the document again: a text that indents by four
    comes back with the formatting of the library, although no value of it
    has changed. *)
Lemma yaml_patch_prints_the_document_again :
  Pure.upgradeCatalogData (indentedByFour (yamlTwoDefaults "2.0.0" "2.0.0"))
    ".yaml" "default" [("foo", "2.0.0")] [("foo", "2.0.0")]
  = Ok (yamlTwoDefaults "2.0.0" "2.0.0")
  /\ yamlTwoDefaults "2.0.0" "2.0.0"
     <> indentedByFour (yamlTwoDefaults "2.0.0" "2.0.0").
Proof. split; [reflexivity | discriminate]. Qed.

(** The comments of a YAML text are in the text that the patcher returns. *)
Lemma yaml_patch_keeps_the_comments :
  Pure.upgradeCatalogData (commented (yamlTwoDefaults "1.0.0" "1.0.0"))
    ".yaml" "default" [("foo", "1.0.0")] [("foo", "2.0.0")]
  = Ok (commented (yamlTwoDefaults "2.0.0" "2.0.0")).
Proof. reflexivity. Qed.

(** C7, as stated, fails on the YAML path: the operation has the same old
    and new version, and the text changes.  The YAML path keeps the
    operations whose dependency is in the current map and writes the new
    version to every entry it locates; here the flat [catalog] entry held
    another version than the current map. *)
Lemma yaml_same_version_operation_changes_text :
  strictEq (Obj.get "foo" [("foo", "2.0.0")]) "2.0.0" = true
  /\ Pure.upgradeCatalogData (yamlTwoDefaults "1.0.0" "2.0.0") ".yaml" "default"
       [("foo", "2.0.0")] [("foo", "2.0.0")]
     = Ok (yamlTwoDefaults "2.0.0" "2.0.0")
  /\ yamlTwoDefaults "2.0.0" "2.0.0" <> yamlTwoDefaults "1.0.0" "2.0.0".
Proof. repeat split. discriminate. Qed.






Example absent_from_current_on_catalog_file :
  Pure.upgradeCatalogData (jsonDefaultCatalog "4.17.20" "1.0.0") ".json" ""
    [("left-pad", "1.0.0")] [("lodash", "4.17.21")]
  = Ok (jsonDefaultCatalog "4.17.21" "1.0.0")
  /\ Pure.upgradeCatalogData (jsonDefaultCatalog "4.17.20" "1.0.0") ".yaml" "default"
       [("left-pad", "1.0.0")] [("lodash", "4.17.21")]
     = Ok (jsonDefaultCatalog "4.17.20" "1.0.0").
Proof. split; reflexivity. Qed.

(** Whenever the entry under [workspaces] exists, one operation leaves the
    entry at the root as it was: the edit under [workspaces] is applied to
    the content the step started with. *)
Lemma root_entry_untouched_when_nested_exists (fileContent : Text)
    (catalogName : string) (current : Index string) (dep newVersion : string) :
  exists_at ("workspaces" :: Pure.keyPath catalogName dep) fileContent = true ->
  exists t1,
    Pure.upgradeJsonCatalogData fileContent catalogName current
      [(dep, newVersion)] = Ok t1
    /\ getIn (Pure.keyPath catalogName dep) t1
       = getIn (Pure.keyPath catalogName dep) fileContent.
Proof.
  intros Hws. unfold Pure.upgradeJsonCatalogData, parseTree. cbn [foldOutcome].
  rewrite jsonStep_spec, bind_Ok.
  2:{ intros q _ Hq. unfold exists_at in Hq. now destruct (getIn q fileContent). }
  destruct (strictEq (Obj.get dep current) newVersion).
  { now exists fileContent. }
  unfold jsonTarget. rewrite Hws.
  destruct (setText_defined ("workspaces" :: Pure.keyPath catalogName dep)
              newVersion fileContent) as [t1 Ht1].
  { unfold exists_at in Hws. now destruct (getIn _ fileContent). }
  exists t1. split; [assumption|].
  apply (getIn_setText_diverge ("workspaces" :: Pure.keyPath catalogName dep)
           newVersion); [|assumption].
  unfold Pure.keyPath. now destruct (truthyStr catalogName).
Qed.

(** C5 on the code.  One operation for [foo] of the default catalog, on a
    document that has it at [catalog.foo] and at [workspaces.catalog.foo]:
    the second edit is computed from the content the step started with, so
    the entry at the root keeps the old version.  With the catalog name
    ["default"] the pure revision builds the path [catalogs.default.foo]
    and changes nothing. *)
Lemma dual_location_root_keeps_old_version :
  Pure.upgradeCatalogData (jsonDual "1.0.0" "1.0.0") ".json" ""
    [("foo", "1.0.0")] [("foo", "2.0.0")]
  = Ok (jsonDual "1.0.0" "2.0.0")
  /\ getIn ["catalog"; "foo"] (jsonDual "1.0.0" "2.0.0") = Some (VStr "1.0.0")
  /\ getIn ["workspaces"; "catalog"; "foo"] (jsonDual "1.0.0" "2.0.0")
     = Some (VStr "2.0.0")
  /\ Pure.upgradeCatalogData (jsonDual "1.0.0" "1.0.0") ".json" "default"
       [("foo", "1.0.0")] [("foo", "2.0.0")]
     = Ok (jsonDual "1.0.0" "1.0.0")
  /\ OnFile.upgradeCatalogData "package.json" "default"
       [("foo", "1.0.0")] [("foo", "2.0.0")]
       {| files := [("package.json", jsonDual "1.0.0" "1.0.0")]; trace := [] |}
     = (Ok (jsonDual "1.0.0" "2.0.0"),
        {| files := [("package.json", jsonDual "1.0.0" "1.0.0")];
           trace := [EvRead "package.json"] |}).
Proof. repeat split. Qed.

(* ================================================================== *)
(** ** The catalog orchestration *)
(* ================================================================== *)

(** A call of the file-based upgradeCatalogData that returns has read the
    file once and written nothing. *)
Lemma upgradeCatalogData_reads_once (filePath catalogName : string)
    (current upgraded : Index string) (w w' : World) (t : Text) :
  OnFile.upgradeCatalogData filePath catalogName current upgraded w = (Ok t, w') ->
  trace w' = trace w ++ [EvRead filePath] /\ files w' = files w.
Proof.
  unfold OnFile.upgradeCatalogData, OnFile.upgradeYamlCatalogData,
    OnFile.upgradeJsonCatalogData, ioBind, ioLift, readFile.
  destruct (String.eqb (extname filePath) ".yaml"
            || String.eqb (extname filePath) ".yml").
  - destruct (Obj.get filePath (files w)); [|discriminate].
    intros [= _ <-]. now split.
  - destruct (String.eqb (extname filePath) ".json"); [|discriminate].
    destruct (Obj.get filePath (files w)); [|discriminate].
    intros [= _ <-]. now split.
Qed.

Lemma writesOf_app (a b : list Event) :
  writesOf (a ++ b) = writesOf a ++ writesOf b.
Proof.
  induction a as [|e a IH]; simpl; [reflexivity|].
  destruct e; simpl; now rewrite ?IH.
Qed.

Lemma set_set_same {A} (k : string) (v v' : A) (o : Index A) :
  Obj.set k v (Obj.set k v' o) = Obj.set k v o.
Proof.
  induction o as [|[k0 v0] r IH]; simpl.
  - now rewrite String.eqb_refl.
  - destruct (String.eqb k k0) eqn:E; simpl.
    + now rewrite String.eqb_refl.
    + now rewrite E, IH.
Qed.

(** The file-based upgradeCatalogData reads the file and returns the patch
    of what the file holds. *)
Lemma upgradeCatalogData_patched (filePath catalogName : string)
    (current upgraded : Index string) (content : Text) (w : World) :
  supported (extname filePath) = true ->
  Obj.get filePath (files w) = Some content ->
  OnFile.upgradeCatalogData filePath catalogName current upgraded w
  = (patchOfFile filePath content catalogName current upgraded,
     logEvent (EvRead filePath) w).
Proof.
  intros Hs H.
  unfold patchOfFile, OnFile.upgradeCatalogData, OnFile.upgradeYamlCatalogData,
    OnFile.upgradeJsonCatalogData.
  unfold supported in Hs.
  destruct (String.eqb (extname filePath) ".yaml"
            || String.eqb (extname filePath) ".yml").
  - unfold ioBind, ioLift, readFile. cbn [files Obj.get].
    now rewrite String.eqb_refl, H.
  - cbn [orb] in Hs. rewrite Hs.
    unfold ioBind, ioLift, readFile. cbn [files Obj.get].
    now rewrite String.eqb_refl, H.
Qed.

Lemma writesOf_roundTrips (path : string) (contents : list Text) :
  writesOf (roundTrips path contents) = map (pair path) contents.
Proof.
  induction contents as [|c r IH]; simpl; [reflexivity|]. now rewrite IH.
Qed.

Lemma roundContents_length (cds : Index (Index string)) (path : string)
    (entries : Index (Index string)) :
  forall content,
    length (roundContents cds path entries content)
    <= length (filter hasUpgrades entries).
Proof.
  induction entries as [|[catalogName upgradedDeps] rest IH];
    cbn [roundContents filter]; intros content; [apply Nat.le_refl|].
  unfold hasUpgrades at 1. cbn [snd].
  destruct (Obj.isEmpty upgradedDeps); cbn [negb]; [apply IH|].
  destruct (patchOfFile path content _ _ upgradedDeps); simpl;
    [apply le_n_S, IH | apply Nat.le_0_l].
Qed.

Lemma last_default {A} (l : list A) (x d d' : A) :
  last (x :: l) d = last (x :: l) d'.
Proof.
  revert x. induction l as [|y l IH]; intros x; [reflexivity|].
  change (last (y :: l) d = last (y :: l) d'). apply IH.
Qed.

Lemma last_cons {A} (l : list A) (x d : A) : last (x :: l) d = last l x.
Proof.
  destruct l as [|y l]; [reflexivity|].
  change (last (y :: l) d = last (y :: l) x). apply last_default.
Qed.

(** The loop of processCatalogs, round by round: what it adds to the trace
    and what it leaves in the catalog file. *)
Lemma loop_rounds (cds : Index (Index string)) (path : string)
    (entries : Index (Index string)) :
  supported (extname path) = true ->
  forall (fileContent content : Text) (w : World) r (w' : World),
    Obj.get path (files w) = Some content ->
    forEachIO (applyCatalog cds path) entries fileContent w = (r, w') ->
    files w'
    = Obj.set path (last (roundContents cds path entries content) content) (files w)
    /\ ((isOk r = true
         /\ trace w'
            = trace w ++ roundTrips path (roundContents cds path entries content)
         /\ length (roundContents cds path entries content)
            = length (filter hasUpgrades entries))
        \/ (isOk r = false
            /\ trace w'
               = trace w
                 ++ roundTrips path (roundContents cds path entries content)
                 ++ [EvRead path]
            /\ length (roundContents cds path entries content)
               < length (filter hasUpgrades entries))).
Proof.
  intros Hs.
  induction entries as [|[catalogName upgradedDeps] rest IH];
    cbn [forEachIO roundContents filter]; intros fileContent content w r w' Hc H.
  - injection H as <- <-. cbn [last roundTrips flat_map].
    split; [now rewrite set_get_same|]. left. now rewrite app_nil_r.
  - unfold ioBind at 1 in H. unfold applyCatalog at 1 in H.
    change (hasUpgrades (catalogName, upgradedDeps))
      with (negb (Obj.isEmpty upgradedDeps)).
    destruct (Obj.isEmpty upgradedDeps); cbn [negb] in *.
    + unfold ioRet in H. apply (IH _ _ _ _ _ Hc H).
    + unfold ioBind at 1 in H.
      rewrite (upgradeCatalogData_patched _ _ _ _ _ _ Hs Hc) in H.
      destruct (patchOfFile path content _ _ upgradedDeps) as [c1|e].
      * unfold ioBind, writeFile, ioRet in H.
        cbn [logEvent files trace] in H.
        assert (Hc1 : Obj.get path
                        (files {| files := Obj.set path c1 (files w);
                                  trace := (trace w ++ [EvRead path])
                                           ++ [EvWrite path c1] |})
                      = Some c1) by (cbn [files]; apply get_set_eq).
        destruct (IH _ c1 _ _ _ Hc1 H) as [Hf Ht]. cbn [files trace] in Hf, Ht.
        split.
        { now rewrite Hf, set_set_same, last_cons. }
        cbn [roundTrips flat_map length]. fold (roundTrips path).
        destruct Ht as [(Hr & Ht & Hl)|(Hr & Ht & Hl)]; [left|right];
          (split; [assumption|]); (split; [|lia]);
          rewrite Ht; cbn [app]; now rewrite <- !app_assoc.
      * injection H as <- <-. cbn [last roundTrips flat_map length].
        split; [cbn [logEvent files]; now rewrite set_get_same|].
        right. split; [reflexivity|]. split; [reflexivity | lia].
Qed.

Lemma checkUpgrades_no_definitions
    (upgradePackageDefinitions : Index string -> Options -> Index string)
    (options : Options) (catalogReferences : Index (list string)) :
  checkUpgrades upgradePackageDefinitions options [] catalogReferences = [].
Proof.
  unfold checkUpgrades.
  induction catalogReferences as [|[n ps] r IH]; [reflexivity|].
  cbn [map fold_left]. exact IH.
Qed.

Lemma pnpm_or_not (pm : string) (A : Type) (x y : A) :
  match pm with "pnpm" => x | _ => y end = if String.eqb pm "pnpm" then x else y.
Proof.
  destruct (String.eqb_spec pm "pnpm") as [->|N]; [reflexivity|].
  repeat (let a := fresh "a" in
          destruct pm as [|a pm]; [reflexivity|];
          destruct a as [[] [] [] [] [] [] [] []]; try reflexivity).
  destruct pm; [now destruct N | reflexivity].
Qed.

Ltac search_done :=
  split; [reflexivity|];
  split;
  [ first [ exists []; split; [now rewrite app_nil_r | reflexivity]
          | exists [EvRead "package.json"]; split; reflexivity ]
  | let p := fresh "p" in
    let Hp := fresh "Hp" in
    intros p Hp; first [discriminate Hp | injection Hp as <-; simpl; tauto] ].

(** The search for the catalog file reads and writes nothing, and what
    it finds is the pnpm workspace file or the package file. *)
Lemma findCatalogFile_reads (options : Options) (w : World) r (w' : World) :
  findCatalogFile options w = (r, w') ->
  files w' = files w
  /\ (exists evs, trace w' = trace w ++ evs /\ writesOf evs = [])
  /\ forall p, r = Ok (Some p) -> In p catalogFileNames.
Proof.
  unfold findCatalogFile, catalogFileNames. intros H.
  assert (Hfirst : exists r0,
            match opt_packageManager options with
            | Some "pnpm" => findUp "pnpm-workspace.yaml"
            | _ => ioRet None
            end w = (Ok r0, w)
            /\ (r0 = None \/ r0 = Some "pnpm-workspace.yaml")).
  { destruct (opt_packageManager options) as [pm|];
      [|exists None; split; [reflexivity | now left]].
    rewrite pnpm_or_not. destruct (String.eqb pm "pnpm");
      [|exists None; split; [reflexivity | now left]].
    unfold findUp. eexists. split; [reflexivity|].
    destruct (Obj.has "pnpm-workspace.yaml" (files w)); [now right | now left]. }
  destruct Hfirst as (r0 & E0 & Hr0). unfold ioBind at 1 in H. rewrite E0 in H.
  destruct Hr0 as [->| ->].
  2:{ injection H as <- <-. search_done. }
  unfold ioBind at 1, findUp at 1 in H.
  destruct (Obj.has "package.json" (files w)).
  2:{ injection H as <- <-. search_done. }
  unfold ioBind at 1, readFile at 1 in H.
  destruct (Obj.get "package.json" (files w)) as [c|].
  2:{ injection H as <- <-. search_done. }
  unfold ioBind at 1, ioLift at 1 in H.
  destruct (JSON.parse c) as [packageData|e].
  2:{ injection H as <- <-. search_done. }
  destruct packageData;
    try match type of H with
        | (if ?c then _ else _) _ = _ => destruct c
        end;
    injection H as <- <-; search_done.
Qed.

(** C3 (amended).  processCatalogs applies the upgrades catalog by catalog.
    In a run that upgrades and finds the catalog file, every write is a
    write of that file, and the texts written are those of the rounds: for
    each catalog that has upgrades, in order, what upgradeCatalogData
    returns for the file as the round before left it.  When every round
    returns, the run has read the file once and then made one read and one
    write of it per catalog with upgrades, and the file holds the text of
    the last round. *)
Theorem one_round_trip_per_catalog
    (upgradePackageDefinitions : Index string -> Options -> Index string)
    (options : Options) (packageInfos : list PackageInfo)
    (catalogDependencies : Index (Index string))
    (catalogReferences : Index (list string))
    (path : string) (content : Text) (w w1 : World) :
  opt_upgrade options = true ->
  collectReferences options packageInfos = Ok catalogReferences ->
  findCatalogFile options w = (Ok (Some path), w1) ->
  Obj.get path (files w) = Some content ->
  let upgradedCatalogDeps :=
    checkUpgrades upgradePackageDefinitions options catalogDependencies
      catalogReferences in
  let contents :=
    roundContents catalogDependencies path upgradedCatalogDeps content in
  let run :=
    processCatalogs upgradePackageDefinitions options packageInfos
      (Some catalogDependencies) w in
  writesOf (trace (snd run)) = writesOf (trace w) ++ map (pair path) contents
  /\ (upgradedCatalogDeps <> [] ->
      length contents = length upgradedCatalogDeps ->
      run = (Ok tt,
             {| files := Obj.set path (last contents content) (files w);
                trace := trace w1 ++ EvRead path :: roundTrips path contents |})).
Proof.
  intros Hupgrade Hrefs Hfind Hcontent upgradedCatalogDeps contents run.
  destruct (findCatalogFile_reads _ _ _ _ Hfind)
    as (Hf1 & (evs0 & Ht1 & Hw0) & Hname).
  assert (Hs : supported (extname path) = true).
  { destruct (Hname path eq_refl) as [<-|[<-|[]]]; reflexivity. }
  assert (Hc2 : Obj.get path (files (logEvent (EvRead path) w1)) = Some content).
  { cbn [logEvent files]. now rewrite Hf1. }
  destruct (forEachIO (applyCatalog catalogDependencies path) upgradedCatalogDeps
              content (logEvent (EvRead path) w1)) as [r w2] eqn:Eloop.
  assert (Hrun : (upgradedCatalogDeps = [] /\ run = (Ok tt, w))
                 \/ (upgradedCatalogDeps <> []
                     /\ run = match r with
                              | Ok _ => (Ok tt, w2)
                              | Thrown e =>
                                  consoleError
                                    ("Error updating catalog file " ++ path
                                     ++ ": " ++ e) w2
                              end)).
  { subst run. unfold processCatalogs.
    destruct (Obj.isEmpty catalogDependencies) eqn:Ecds.
    { left. split; [|reflexivity]. destruct catalogDependencies; [|discriminate].
      apply checkUpgrades_no_definitions. }
    unfold ioBind, ioLift, tryCatch, ioRet. rewrite Hrefs.
    destruct (Obj.isEmpty catalogReferences) eqn:Erefs.
    { left. split; [|reflexivity]. now destruct catalogReferences. }
    fold upgradedCatalogDeps.
    destruct (Obj.isEmpty upgradedCatalogDeps) eqn:Eup.
    { left. split; [|reflexivity]. now destruct upgradedCatalogDeps. }
    right. split; [now destruct upgradedCatalogDeps|].
    cbn [negb]. rewrite Hfind, Hupgrade. unfold readFile.
    rewrite Hf1, Hcontent. rewrite Eloop. now destruct r. }
  destruct (loop_rounds _ _ _ Hs _ _ _ _ _ Hc2 Eloop) as [Hf2 Ht2].
  fold contents in Hf2, Ht2. cbn [logEvent files trace] in Hf2, Ht2.
  pose proof (roundContents_length catalogDependencies path upgradedCatalogDeps
                content) as Hle.
  fold contents in Hle.
  pose proof (filter_length_le hasUpgrades upgradedCatalogDeps) as Hle'.
  destruct Hrun as [[Hnil ->]|[Hne ->]].
  { subst contents. rewrite Hnil. cbn [roundContents map snd].
    split; [now rewrite app_nil_r | intros N; now destruct N]. }
  destruct Ht2 as [(Hr & Ht2 & Hl)|(Hr & Ht2 & Hl)].
  - destruct r as [res|]; [|discriminate]. cbn [snd].
    split.
    + rewrite Ht2, Ht1, !writesOf_app, Hw0, writesOf_roundTrips. cbn [writesOf].
      now rewrite !app_nil_r.
    + intros _ _. f_equal. destruct w2 as [f2 t2]. cbn [files trace] in *.
      rewrite Hf2, Ht2, Hf1. now rewrite <- app_assoc.
  - destruct r as [res|e]; [discriminate|].
    unfold consoleError. cbn [snd logEvent trace].
    split.
    + rewrite Ht2, Ht1, !writesOf_app, Hw0, writesOf_roundTrips. cbn [writesOf].
      now rewrite !app_nil_r.
    + intros _ Hlen. lia.
Qed.

Lemma one_round_trip_per_catalog_witness :
  readCatalogDependencies (runOptions (Some "pnpm")) "package.json" prefixedWorld
  = (Ok (Some prefixedDefinitions), prefixedLoaded)
  /\ writesOf
       (trace (snd (processCatalogs
                      (desiredVersions [("axios", "1.2.0"); ("react", "18.0.0")])
                      (runOptions (Some "pnpm")) twoCatalogsInfos
                      (Some prefixedDefinitions) prefixedLoaded)))
     = [("pnpm-workspace.yaml", prefixedYaml "1.2.0" "17.0.0");
        ("pnpm-workspace.yaml", prefixedYaml "1.2.0" "18.0.0")]
  /\ processCatalogs
       (desiredVersions [("axios", "1.2.0"); ("react", "18.0.0")])
       (runOptions (Some "pnpm")) twoCatalogsInfos
       (Some prefixedDefinitions) prefixedLoaded
     = (Ok tt,
        {| files := [("package.json", printed (VObj [("name", VStr "root")]));
                     ("pnpm-workspace.yaml", prefixedYaml "1.2.0" "18.0.0")];
           trace := [EvRead "pnpm-workspace.yaml"; EvRead "package.json";
                     EvRead "pnpm-workspace.yaml";
                     EvRead "pnpm-workspace.yaml";
                     EvWrite "pnpm-workspace.yaml" (prefixedYaml "1.2.0" "17.0.0");
                     EvRead "pnpm-workspace.yaml";
                     EvWrite "pnpm-workspace.yaml"
                       (prefixedYaml "1.2.0" "18.0.0")] |}).
Proof.
  destruct (one_round_trip_per_catalog
              (desiredVersions [("axios", "1.2.0"); ("react", "18.0.0")])
              (runOptions (Some "pnpm")) twoCatalogsInfos prefixedDefinitions
              [("mobile", ["axios"]); ("web", ["react"])]
              "pnpm-workspace.yaml" (prefixedYaml "1.0.0" "17.0.0")
              prefixedLoaded prefixedLoaded)
    as [Hwrites Hrun]; [reflexivity | reflexivity | reflexivity | reflexivity |].
  split; [reflexivity|]. split.
  - exact Hwrites.
  - apply Hrun; [discriminate | reflexivity].
Defined.

(** A catalog other than the one being upgraded is untouched by the YAML
    steps. *)
Lemma yaml_other_catalog_untouched (catalogName other : string)
    (ops : Index string) (d d1 : value) :
  Obj.wf ops = true ->
  String.eqb catalogName other = false ->
  foldOutcome (Pure.yamlStep catalogName) ops d = Ok d1 ->
  getIn ["catalogs"; other] d1 = getIn ["catalogs"; other] d.
Proof.
  intros W N Hrun.
  destruct (yamlRun catalogName ops d W) as (d1' & Hrun' & _ & Hframe).
  rewrite Hrun in Hrun'. injection Hrun' as <-.
  apply Hframe. intros e p _. unfold yamlPaths.
  destruct (String.eqb catalogName "default") eqn:E.
  - apply String.eqb_eq in E. subst catalogName.
    intros [<-|[<-|[]]]; simpl; [reflexivity|]. now rewrite N.
  - intros [<-|[]]. simpl. now rewrite N.
Qed.

(** *** The scenarios *)

(** With the definitions under the keys that processCatalogs looks up,
    the scenario of the two named catalogs goes through: the run rewrites
    [catalogs.mobile.axios] and writes the file once; the [web] catalog,
    whatever it holds, is in the written text as it was. *)
Lemma referenced_catalog_is_rewritten_when_keyed_by_reference
    (webCatalog : value) (webDeps : Index string) (oldVersion newVersion : string) :
  truthyStr oldVersion = true ->
  String.eqb newVersion oldVersion = false ->
  processCatalogs (desiredVersions [("axios", newVersion)])
    (runOptions (Some "pnpm")) [consumerInfo "axios" "catalog:mobile"]
    (Some (namedCatalogs oldVersion webDeps))
    {| files := [("pnpm-workspace.yaml", namedYaml webCatalog oldVersion)];
       trace := [] |}
  = (Ok tt,
     {| files := [("pnpm-workspace.yaml", namedYaml webCatalog newVersion)];
        trace := [EvRead "pnpm-workspace.yaml"; EvRead "pnpm-workspace.yaml";
                  EvWrite "pnpm-workspace.yaml"
                    (namedYaml webCatalog newVersion)] |})
  /\ processCatalogs (desiredVersions [("axios", newVersion)])
       (runOptions None) [consumerInfo "axios" "catalog:mobile"]
       (Some (namedCatalogs oldVersion webDeps))
       {| files := [("package.json", namedJson webCatalog oldVersion)];
          trace := [] |}
     = (Ok tt,
        {| files := [("package.json", namedJson webCatalog newVersion)];
           trace := [EvRead "package.json"; EvRead "package.json";
                     EvRead "package.json";
                     EvWrite "package.json"
                       (namedJson webCatalog newVersion)] |}).
Proof.
  intros Hold Hnew.
  assert (Hup : forall options,
             desiredVersions [("axios", newVersion)] [("axios", oldVersion)] options
             = [("axios", newVersion)]).
  { intros options. unfold desiredVersions. simpl. now rewrite Hnew. }
  split.
  - unfold processCatalogs, checkUpgrades, upgradesOfCatalog, ioBind, ioLift.
    simpl. rewrite Hold. simpl. rewrite Hup. simpl.
    unfold tryCatch, ioBind, ioRet, readFile, writeFile,
      OnFile.upgradeCatalogData, OnFile.upgradeYamlCatalogData, ioLift. simpl.
    unfold truthyAt. simpl. now rewrite Hold.
  - unfold processCatalogs, checkUpgrades, upgradesOfCatalog, ioBind, ioLift.
    simpl. rewrite Hold. simpl. rewrite Hup. simpl.
    unfold tryCatch, ioBind, ioRet, readFile, writeFile,
      OnFile.upgradeCatalogData, OnFile.upgradeJsonCatalogData, ioLift. simpl.
    now rewrite String.eqb_sym, Hnew.
Qed.

(** C9 on the code.  Two named catalogs [mobile] and [web] that both
    define [axios], a desired version for [axios], and one consumer that
    refers to [catalog:mobile], with the catalogs loaded by
    readCatalogDependencies.  The loader stores the catalogs under their
    names, [web] and [mobile], and processCatalogs looks for the key
    [catalog:mobile]: it finds no definition, computes no upgrade, and
    writes nothing.  The entry [catalogs.mobile.axios] stays at the old
    version, in a pnpm workspace file and in a package.json. *)
Theorem referenced_named_catalog_is_not_rewritten :
  readCatalogDependencies (runOptions (Some "pnpm")) "package.json" namedPnpmWorld
  = (Ok (Some [("web", [("axios", "1.0.0")]); ("mobile", [("axios", "1.0.0")])]),
     {| files := files namedPnpmWorld;
        trace := [EvRead "pnpm-workspace.yaml"; EvRead "package.json"] |})
  /\ loadAndProcess [("axios", "1.2.0")] (runOptions (Some "pnpm"))
       [consumerInfo "axios" "catalog:mobile"] namedPnpmWorld
     = (Ok tt,
        {| files := files namedPnpmWorld;
           trace := [EvRead "pnpm-workspace.yaml"; EvRead "package.json"] |})
  /\ option_map (fun text : Text => getIn ["catalogs"; "mobile"; "axios"] text)
       (Obj.get "pnpm-workspace.yaml"
          (files (snd (loadAndProcess [("axios", "1.2.0")]
                         (runOptions (Some "pnpm"))
                         [consumerInfo "axios" "catalog:mobile"] namedPnpmWorld))))
     = Some (Some (VStr "1.0.0"))
  /\ readCatalogDependencies (runOptions None) "package.json" namedBunWorld
     = (Ok (Some [("web", [("axios", "1.0.0")]); ("mobile", [("axios", "1.0.0")])]),
        {| files := files namedBunWorld; trace := [EvRead "package.json"] |})
  /\ loadAndProcess [("axios", "1.2.0")] (runOptions None)
       [consumerInfo "axios" "catalog:mobile"] namedBunWorld
     = (Ok tt,
        {| files := files namedBunWorld; trace := [EvRead "package.json"] |}).
Proof. repeat split. Qed.

(** C3, as stated, fails: with upgrades in two catalogs of one file, the
    run reads the file three times and writes it twice, the second round
    starting from the text that the first one wrote.  The catalogs are
    loaded by readCatalogDependencies from a pnpm workspace file that names
    them [catalog:mobile] and [catalog:web], the keys that processCatalogs
    looks up; the entries that the rounds rewrite are those of the catalogs
    [mobile] and [web]. *)
Lemma two_catalogs_two_writes :
  loadAndProcess [("axios", "1.2.0"); ("react", "18.0.0")]
    (runOptions (Some "pnpm")) twoCatalogsInfos prefixedWorld
  = (Ok tt,
     {| files := [("package.json", printed (VObj [("name", VStr "root")]));
                  ("pnpm-workspace.yaml", prefixedYaml "1.2.0" "18.0.0")];
        trace := [EvRead "pnpm-workspace.yaml"; EvRead "package.json";
                  EvRead "pnpm-workspace.yaml";
                  EvRead "pnpm-workspace.yaml";
                  EvWrite "pnpm-workspace.yaml" (prefixedYaml "1.2.0" "17.0.0");
                  EvRead "pnpm-workspace.yaml";
                  EvWrite "pnpm-workspace.yaml" (prefixedYaml "1.2.0" "18.0.0")] |})
  /\ length (writesOf
               (trace (snd (loadAndProcess
                              [("axios", "1.2.0"); ("react", "18.0.0")]
                              (runOptions (Some "pnpm")) twoCatalogsInfos
                              prefixedWorld))))
     = 2.
Proof. split; reflexivity. Qed.

(** C4 on the code.  The lodash scenario, with the catalogs loaded by
    readCatalogDependencies.  With a pnpm workspace file, the loader reads
    only [catalogs] from it and finds no catalog at all; with the catalog
    in package.json, it stores the default catalog under the key
    [default], and processCatalogs looks for the key [catalog:].  In both
    runs nothing is written: the definition stays at 4.17.20.  The
    consumer manifest is not written either. *)
Theorem default_catalog_definition_is_not_rewritten :
  readCatalogDependencies (runOptions (Some "pnpm")) "package.json" lodashPnpmWorld
  = (Ok None,
     {| files := files lodashPnpmWorld;
        trace := [EvRead "pnpm-workspace.yaml"; EvRead "package.json"] |})
  /\ loadAndProcess [("lodash", "4.17.21")] (runOptions (Some "pnpm"))
       [consumerInfo "lodash" "catalog:"] lodashPnpmWorld
     = (Ok tt,
        {| files := files lodashPnpmWorld;
           trace := [EvRead "pnpm-workspace.yaml"; EvRead "package.json"] |})
  /\ readCatalogDependencies (runOptions None) "package.json" lodashBunWorld
     = (Ok (Some [("default", [("lodash", "4.17.20")])]),
        {| files := files lodashBunWorld; trace := [EvRead "package.json"] |})
  /\ loadAndProcess [("lodash", "4.17.21")] (runOptions None)
       [consumerInfo "lodash" "catalog:"] lodashBunWorld
     = (Ok tt,
        {| files := files lodashBunWorld; trace := [EvRead "package.json"] |}).
Proof. repeat split. Qed.

(** The consumer manifest of the scenario: its reference to the catalog is
    not among its current dependencies, no upgrade is computed for it, and
    upgradePackageData returns its text as it is. *)
Example consumer_manifest_text_is_returned_unchanged
    (applyUpgrades :
       Text -> Index string -> Index string -> Options -> option string -> IO Text)
    (packageManager : option string) (w : World) :
  getCurrentDependencies (pi_pkg (consumerInfo "lodash" "catalog:"))
    (runOptions packageManager) = Ok []
  /\ upgradePackageData applyUpgrades
       (pi_pkgFile (consumerInfo "lodash" "catalog:")) []
       (desiredVersions [("lodash", "4.17.21")] [] (runOptions packageManager))
       (runOptions packageManager)
       (Some (pi_filepath (consumerInfo "lodash" "catalog:"))) w
     = (Ok (consumerText "lodash" "catalog:"), w).
Proof. split; reflexivity. Qed.

(** Whatever the packages and the resolver: when no key of the catalog
    definitions has the form [catalog:<name>], processCatalogs finds no
    upgrade and leaves the world as it is, without a read or a write. *)
Lemma processCatalogs_misses_unprefixed_keys
    (upgradePackageDefinitions : Index string -> Options -> Index string)
    (options : Options) (packageInfos : list PackageInfo)
    (catalogDependencies : Index (Index string)) (w : World) :
  (forall name, Obj.get ("catalog:" ++ name) catalogDependencies = None) ->
  exists r,
    processCatalogs upgradePackageDefinitions options packageInfos
      (Some catalogDependencies) w = (r, w).
Proof.
  intros Hmiss. unfold processCatalogs.
  destruct (Obj.isEmpty catalogDependencies); [now exists (Ok tt)|].
  unfold ioBind, ioLift.
  destruct (collectReferences options packageInfos) as [refs|e];
    [|now exists (Thrown e)].
  destruct (Obj.isEmpty refs); [now exists (Ok tt)|].
  assert (E : checkUpgrades upgradePackageDefinitions options catalogDependencies refs
              = []).
  { unfold checkUpgrades. induction refs as [|[n ps] r IH]; [reflexivity|].
    cbn [map fold_left]. unfold upgradesOfCatalog at 2. now rewrite Hmiss. }
  rewrite E. now exists (Ok tt).
Qed.

(** With the definitions under the key that processCatalogs looks up, the
    same scenario goes through: the definition is rewritten, the file is
    written once, and the consumer manifest is as it was. *)
Example default_catalog_rewritten_when_keyed_by_reference :
  processCatalogs (desiredVersions [("lodash", "4.17.21")])
    (runOptions (Some "pnpm")) [consumerInfo "lodash" "catalog:"]
    (Some [("catalog:", [("lodash", "4.17.20")])]) lodashPnpmWorld
  = (Ok tt,
     {| files := [("package.json", printed (VObj [("name", VStr "root")]));
                  ("pnpm-workspace.yaml", lodashYaml "4.17.21");
                  ("packages/a/package.json", consumerText "lodash" "catalog:")];
        trace := [EvRead "pnpm-workspace.yaml"; EvRead "pnpm-workspace.yaml";
                  EvWrite "pnpm-workspace.yaml" (lodashYaml "4.17.21")] |})
  /\ processCatalogs (desiredVersions [("lodash", "4.17.21")])
       (runOptions None) [consumerInfo "lodash" "catalog:"]
       (Some [("catalog:", [("lodash", "4.17.20")])]) lodashBunWorld
     = (Ok tt,
        {| files := [("package.json", lodashJson "4.17.21");
                     ("packages/a/package.json", consumerText "lodash" "catalog:")];
           trace := [EvRead "package.json"; EvRead "package.json";
                     EvRead "package.json";
                     EvWrite "package.json" (lodashJson "4.17.21")] |}).
Proof. split; reflexivity. Qed.

(* ================================================================== *)
(** ** The earlier orchestration *)
(* ================================================================== *)

Lemma writesAtMost_weaken {A} (n n' : nat) (m : IO A) :
  n <= n' -> writesAtMost n m -> writesAtMost n' m.
Proof.
  intros Hle H w r w' E. destruct (H _ _ _ E) as (evs & Ht & Hl).
  exists evs. split; [assumption | lia].
Qed.

Lemma writesAtMost_ret {A} (a : A) : writesAtMost 0 (ioRet a).
Proof.
  intros w r w' [= _ <-]. exists []. now rewrite app_nil_r.
Qed.

Lemma writesAtMost_lift {A} (m : outcome A) : writesAtMost 0 (ioLift m).
Proof.
  intros w r w' [= _ <-]. exists []. now rewrite app_nil_r.
Qed.

Lemma writesAtMost_readFile (path : string) : writesAtMost 0 (readFile path).
Proof.
  intros w r w'. unfold readFile.
  destruct (Obj.get path (files w)); intros [= _ <-];
    exists [EvRead path]; now split.
Qed.

Lemma writesAtMost_writeFile (path : string) (content : Text) :
  writesAtMost 1 (writeFile path content).
Proof.
  intros w r w' [= _ <-]. exists [EvWrite path content]. now split.
Qed.

Lemma writesAtMost_consoleError (message : string) :
  writesAtMost 0 (consoleError message).
Proof.
  intros w r w' [= _ <-]. exists [EvConsoleError message]. now split.
Qed.

Lemma writesAtMost_findUp (name : string) : writesAtMost 0 (findUp name).
Proof.
  intros w r w' [= _ <-]. exists []. now rewrite app_nil_r.
Qed.

Lemma writesAtMost_bind {A B} (a b : nat) (m : IO A) (k : A -> IO B) :
  writesAtMost a m -> (forall x, writesAtMost b (k x)) ->
  writesAtMost (a + b) (ioBind m k).
Proof.
  intros Hm Hk w r w' E. unfold ioBind in E.
  destruct (m w) as [[x|e] w1] eqn:Em;
    destruct (Hm _ _ _ Em) as (evs1 & Ht1 & Hl1).
  - destruct (Hk x _ _ _ E) as (evs2 & Ht2 & Hl2).
    exists (evs1 ++ evs2). split.
    + now rewrite Ht2, Ht1, app_assoc.
    + rewrite writesOf_app, length_app. lia.
  - injection E as _ <-. exists evs1. split; [assumption | lia].
Qed.

Lemma writesAtMost_tryCatch {A} (a b : nat) (m : IO A) (h : string -> IO A) :
  writesAtMost a m -> (forall e, writesAtMost b (h e)) ->
  writesAtMost (a + b) (tryCatch m h).
Proof.
  intros Hm Hh w r w' E. unfold tryCatch in E.
  destruct (m w) as [[x|e] w1] eqn:Em;
    destruct (Hm _ _ _ Em) as (evs1 & Ht1 & Hl1).
  - injection E as _ <-. exists evs1. split; [assumption | lia].
  - destruct (Hh e _ _ _ E) as (evs2 & Ht2 & Hl2).
    exists (evs1 ++ evs2). split.
    + now rewrite Ht2, Ht1, app_assoc.
    + rewrite writesOf_app, length_app. lia.
Qed.

Lemma writesAtMost_findCatalogFile (options : Options) :
  writesAtMost 0 (findCatalogFile options).
Proof.
  intros w r w' H.
  destruct (findCatalogFile_reads _ _ _ _ H) as (_ & (evs & Ht & Hw) & _).
  exists evs. split; [assumption|]. rewrite Hw. apply Nat.le_refl.
Qed.

Section FlattenedProperties.

Variable upgradePackageDefinitions : Index string -> Options -> Index string.
Variables patchYaml patchJson : Text -> Index string -> Index string -> outcome Text.

Lemma flattened_upgradeCatalogData_reads (filePath : string)
    (current upgraded : Index string) :
  writesAtMost 0
    (Flattened.upgradeCatalogData patchYaml patchJson filePath current upgraded).
Proof.
  unfold Flattened.upgradeCatalogData.
  destruct (_ || _).
  - apply (writesAtMost_bind 0 0); [apply writesAtMost_readFile|].
    intros. apply writesAtMost_lift.
  - destruct (String.eqb _ ".json"); [|apply writesAtMost_lift].
    apply (writesAtMost_bind 0 0); [apply writesAtMost_readFile|].
    intros. apply writesAtMost_lift.
Qed.

(** The flattening revision of processCatalogs writes at most once in a
    run. *)
Lemma flattened_processCatalogs_writes_at_most_once (options : Options)
    (packageInfos : list PackageInfo)
    (catalogDependencies : option (Index (Index string))) :
  writesAtMost 1
    (Flattened.processCatalogs upgradePackageDefinitions patchYaml patchJson
       options packageInfos catalogDependencies).
Proof.
  unfold Flattened.processCatalogs.
  destruct catalogDependencies as [cds|];
    [|apply (writesAtMost_weaken 0); [lia | apply writesAtMost_ret]].
  destruct (Obj.isEmpty cds);
    [apply (writesAtMost_weaken 0); [lia | apply writesAtMost_ret]|].
  apply (writesAtMost_bind 0 1); [apply writesAtMost_lift|].
  intros catalogReferences.
  destruct (Obj.isEmpty (Flattened.referenced _ _));
    [apply (writesAtMost_weaken 0); [lia | apply writesAtMost_ret]|].
  destruct (negb _);
    [|apply (writesAtMost_weaken 0); [lia | apply writesAtMost_ret]].
  apply (writesAtMost_bind 0 1); [apply writesAtMost_findCatalogFile|].
  intros [path|];
    [|apply (writesAtMost_weaken 0); [lia | apply writesAtMost_ret]].
  destruct (opt_upgrade options);
    [|apply (writesAtMost_weaken 0); [lia | apply writesAtMost_ret]].
  apply (writesAtMost_tryCatch 1 0).
  - apply (writesAtMost_bind 0 1);
      [apply flattened_upgradeCatalogData_reads|].
    intros. apply writesAtMost_writeFile.
  - intros. apply writesAtMost_consoleError.
Qed.

(** The flattening revision does not look at the catalog that a consumer
    names: a run with a consumer of [catalog:mobile] is the run with a
    consumer of [catalog:web]. *)
Lemma flattened_ignores_the_catalog_name (packageManager : option string)
    (catalogDependencies : option (Index (Index string))) (w : World) :
  Flattened.processCatalogs upgradePackageDefinitions patchYaml patchJson
    (runOptions packageManager) [consumerInfo "axios" "catalog:mobile"]
    catalogDependencies w
  = Flattened.processCatalogs upgradePackageDefinitions patchYaml patchJson
      (runOptions packageManager) [consumerInfo "axios" "catalog:web"]
      catalogDependencies w.
Proof. reflexivity. Qed.

End FlattenedProperties.

(* ================================================================== *)
(** * Further properties of the section resolver *)
(* ================================================================== *)

Lemma get_assign_absent {A} (k : string) (a b : Index A) :
  Obj.has k b = false -> Obj.get k (Obj.assign a b) = Obj.get k a.
Proof.
  unfold Obj.assign. revert a.
  induction b as [|[k' v'] r IH]; simpl; intros a H; [reflexivity|].
  unfold Obj.has in H. simpl in H.
  destruct (String.eqb_spec k k') as [->|N]; [discriminate|].
  rewrite IH by exact H. now apply get_set_neq.
Qed.

Lemma has_In {A} (k : string) (o : Index A) :
  Obj.has k o = false -> forall v, ~ In (k, v) o.
Proof.
  intros H v Hin. now rewrite (In_has _ _ _ Hin) in H.
Qed.

Lemma filterObject_keeps {A} (o : Index A) (p : string -> A -> outcome bool) :
  forall r k v,
    filterObject o p = Ok r -> In (k, v) o -> p k v = Ok true -> In (k, v) r.
Proof.
  induction o as [|[k' v'] o' IH]; simpl; intros r k v H Hin Hp; [contradiction|].
  destruct (p k' v') as [b|] eqn:Ep; simpl in H; [|discriminate].
  destruct (filterObject o' p) as [r'|] eqn:Er; simpl in H; [|discriminate].
  injection H as <-. destruct Hin as [[= -> ->]|Hin].
  - rewrite Hp in Ep. injection Ep as <-. now left.
  - destruct b; [right|]; now apply (IH r' k v).
Qed.

(** The first entry on which the predicate throws makes [filterObject]
    throw. *)
Lemma filterObject_throws {A} (o : Index A) (p : string -> A -> outcome bool)
    (k : string) (v : A) :
  In (k, v) o -> isOk (p k v) = false -> exists e, filterObject o p = Thrown e.
Proof.
  induction o as [|[k' v'] o' IH]; simpl; intros Hin Hp; [contradiction|].
  destruct (p k' v') as [b|e] eqn:Ep; simpl; [|now exists e].
  destruct Hin as [[= -> ->]|Hin]; [rewrite Ep in Hp; discriminate|].
  destruct (IH Hin Hp) as [e ->]. now exists e.
Qed.

Lemma splitOn_lacks (c : ascii) (s : string) :
  lacks c s = true -> splitOn c s = [s].
Proof.
  induction s as [|a r IH]; simpl; [reflexivity|]. intros H.
  apply andb_true_iff in H as [H1 H2]. apply negb_true_iff in H1.
  now rewrite H1, IH.
Qed.

Lemma splitOn_app (c : ascii) (a b : string) :
  lacks c a = true -> splitOn c (a ++ String c b) = a :: splitOn c b.
Proof.
  induction a as [|x r IH]; simpl; intros H.
  - now rewrite Ascii.eqb_refl.
  - apply andb_true_iff in H as [H1 H2]. apply negb_true_iff in H1.
    now rewrite H1, IH.
Qed.

Lemma mergeSections_app {semver : Semver} (pkgData : PackageFile)
    (l1 l2 : list string) (accum : Index (option string)) :
  mergeSections pkgData (l1 ++ l2) accum
  = let? a := mergeSections pkgData l1 accum in mergeSections pkgData l2 a.
Proof.
  revert accum. induction l1 as [|s r IH]; simpl; intros accum; [reflexivity|].
  destruct (mergeSection pkgData accum s); simpl; [apply IH | reflexivity].
Qed.

Lemma mergeSections_wf {semver : Semver} (pkgData : PackageFile)
    (depSections : list string) :
  forall accum final,
    Obj.wf accum = true ->
    mergeSections pkgData depSections accum = Ok final -> Obj.wf final = true.
Proof.
  induction depSections as [|s r IH]; simpl; intros accum final W H.
  - now injection H as <-.
  - destruct (mergeSection pkgData accum s) as [a|] eqn:E; simpl in H;
      [|discriminate].
    apply (IH a); [|assumption]. unfold mergeSection in E.
    destruct (String.eqb s "packageManager").
    + injection E as <-. now apply wf_assign.
    + destruct (filterObject _ _); simpl in E; [|discriminate].
      injection E as <-. now apply wf_assign.
Qed.

Lemma parsePackageManager_pair (pkgData : PackageFile) (name version : string) :
  lacks "@" name = true ->
  lacks "@" version = true ->
  pkg_packageManager pkgData = Some (name ++ "@" ++ version)%string ->
  parsePackageManager pkgData = [(name, Some version)].
Proof.
  intros Hn Hv Hpm. unfold parsePackageManager. rewrite Hpm.
  assert (T : truthyStr (name ++ "@" ++ version) = true) by (now destruct name).
  rewrite T. change ("@" ++ version)%string with (String "@"%char version).
  now rewrite splitOn_app, splitOn_lacks.
Qed.

Lemma parsePackageManager_bare (pkgData : PackageFile) (pm : string) :
  truthyStr pm = true ->
  lacks "@" pm = true ->
  pkg_packageManager pkgData = Some pm ->
  parsePackageManager pkgData = [(pm, None)].
Proof.
  intros Ht Hl Hpm. unfold parsePackageManager.
  now rewrite Hpm, Ht, splitOn_lacks.
Qed.

Section ResolverExtras.

Context {semver : Semver}.

(** Where the entries of the merged catalog references come from. *)
Lemma catalogSections_origin (pkgData : PackageFile) (depSections : list string) :
  forall accum final name ref,
    catalogSections pkgData depSections accum = Ok final ->
    In (name, ref) final ->
    In (name, ref) accum
    \/ exists s, In s depSections
         /\ In (name, ref) (sectionOf pkgData s)
         /\ startsWith ref "catalog:" = true.
Proof.
  induction depSections as [|s rest IH]; simpl; intros accum final name ref H Hin.
  - injection H as <-. now left.
  - unfold catalogSection in H at 1.
    destruct (filterObject (sectionOf pkgData s) _) as [cat|] eqn:Ec; simpl in H;
      [|discriminate].
    destruct (IH _ _ _ _ H Hin) as [H1|(s' & Hs' & H1)].
    + destruct (In_assign _ _ _ H1) as [H2|H2]; [now left|].
      right. exists s. split; [now left|].
      destruct (filterObject_In _ _ _ _ _ Ec H2) as [H3 H4].
      split; [assumption|]. now injection H4.
    + right. exists s'. split; [now right | assumption].
Qed.

Lemma catalogSections_total (pkgData : PackageFile) (depSections : list string) :
  forall accum, exists final, catalogSections pkgData depSections accum = Ok final.
Proof.
  induction depSections as [|s rest IH]; simpl; intros accum; [now exists accum|].
  unfold catalogSection.
  destruct (filterObject_total (sectionOf pkgData s)
              (fun _ version => Ok (startsWith version "catalog:")))
    as [cat ->]; [reflexivity|].
  simpl. apply IH.
Qed.

Lemma catalogSections_wf (pkgData : PackageFile) (depSections : list string) :
  forall accum final,
    Obj.wf accum = true ->
    catalogSections pkgData depSections accum = Ok final -> Obj.wf final = true.
Proof.
  induction depSections as [|s rest IH]; simpl; intros accum final W H.
  - now injection H as <-.
  - unfold catalogSection in H at 1.
    destruct (filterObject (sectionOf pkgData s) _) as [cat|]; simpl in H;
      [|discriminate].
    apply (IH _ _ (wf_assign _ cat W) H).
Qed.

(** The two filters of getCatalogDependencies, read backwards. *)
Lemma getCatalogDependencies_inv (pkgData : PackageFile) (options : Options)
    (res : Index string) :
  getCatalogDependencies pkgData options = Ok res ->
  exists allDeps inner pred,
    catalogSections pkgData (opt_dep options) [] = Ok allDeps
    /\ filterObject allDeps
         (fun name _ =>
            Ok (negb (workspacePackageMap (opt_workspacePackages options) name)))
       = Ok inner
    /\ opt_filterAndReject options = Ok pred
    /\ filterObject inner (fun name version => Ok (pred name version)) = Ok res.
Proof.
  unfold getCatalogDependencies. intros H.
  destruct (catalogSections pkgData (opt_dep options) []) as [allDeps|];
    simpl in H; [|discriminate].
  destruct (filterObject allDeps _) as [inner|] eqn:Ei; simpl in H; [|discriminate].
  destruct (opt_filterAndReject options) as [pred|]; simpl in H; [|discriminate].
  destruct (filterObject inner _) as [res'|] eqn:Er; simpl in H; [|discriminate].
  injection H as <-. now exists allDeps, inner, pred.
Qed.

(** The filters of getCurrentDependencies, read backwards. *)
Lemma getCurrentDependencies_inv (pkgData : PackageFile) (options : Options)
    (res : Index string) :
  getCurrentDependencies pkgData options = Ok res ->
  exists allDeps inner pred,
    mergeSections pkgData (opt_dep options) [] = Ok allDeps
    /\ filterObject allDeps (notWorkspaceNorCatalog options) = Ok inner
    /\ opt_filterAndReject options = Ok pred
    /\ filterObject (definedEntries inner)
         (fun name version => Ok (pred name version)) = Ok res.
Proof.
  unfold getCurrentDependencies. intros H.
  destruct (mergeSections pkgData (opt_dep options) []) as [allDeps|];
    simpl in H; [|discriminate].
  destruct (filterDependencies options allDeps) as [res'|] eqn:Ef; [|discriminate].
  injection H as ->. unfold filterDependencies in Ef.
  destruct (filterObject allDeps _) as [inner|] eqn:Ei; simpl in Ef; [|discriminate].
  destruct (opt_filterAndReject options) as [pred|]; simpl in Ef; [|discriminate].
  now exists allDeps, inner, pred.
Qed.

(** X8.  The map that getCatalogDependencies returns holds catalog references
    only: each entry is declared by a scanned section with a spec that
    starts with [catalog:]. *)
Theorem catalog_dependencies_are_declared_references
    (pkgData : PackageFile) (options : Options) (res : Index string)
    (name ref : string) :
  getCatalogDependencies pkgData options = Ok res ->
  Obj.get name res = Some ref ->
  startsWith ref "catalog:" = true
  /\ exists s, In s (opt_dep options) /\ In (name, ref) (sectionOf pkgData s).
Proof.
  intros H Hg.
  destruct (getCatalogDependencies_inv _ _ _ H) as (allDeps & inner & pred & Hm & Hi & _ & Hr).
  apply get_In in Hg.
  destruct (filterObject_In _ _ _ _ _ Hr Hg) as [H1 _].
  destruct (filterObject_In _ _ _ _ _ Hi H1) as [H2 _].
  destruct (catalogSections_origin _ _ _ _ _ _ Hm H2) as [[]|(s & Hs & Hin & Hc)].
  split; [assumption|]. now exists s.
Qed.

(** X9.  No catalog reference is lost: a name that a scanned section declares
    by a catalog reference, and that no section scanned later declares by
    another catalog reference, is in the map with that reference, unless it
    is a workspace package or the filter rejects it. *)
Theorem last_catalog_reference_is_reported
    (pkgData : PackageFile) (options : Options)
    (before after : list string) (s name ref : string)
    (pred : string -> string -> bool) :
  opt_dep options = before ++ s :: after ->
  Obj.wf (sectionOf pkgData s) = true ->
  Obj.get name (sectionOf pkgData s) = Some ref ->
  startsWith ref "catalog:" = true ->
  (forall s' r, In s' after -> In (name, r) (sectionOf pkgData s') ->
                startsWith r "catalog:" = false) ->
  workspacePackageMap (opt_workspacePackages options) name = false ->
  opt_filterAndReject options = Ok pred ->
  pred name ref = true ->
  exists res,
    getCatalogDependencies pkgData options = Ok res
    /\ Obj.get name res = Some ref.
Proof.
  intros Hdep Wsec Hget Hcat Hafter Hws Hf Hp.
  assert (Hrest : forall l accum,
             (forall s' r, In s' l -> In (name, r) (sectionOf pkgData s') ->
                           startsWith r "catalog:" = false) ->
             Obj.get name accum = Some ref ->
             exists final, catalogSections pkgData l accum = Ok final
                           /\ Obj.get name final = Some ref).
  { induction l as [|s' l IH]; simpl; intros accum Hl Ha.
    - now exists accum.
    - unfold catalogSection at 1.
      destruct (filterObject_total (sectionOf pkgData s')
                  (fun _ version => Ok (startsWith version "catalog:")))
        as [cat Hc]; [reflexivity|].
      rewrite Hc. simpl. apply IH.
      + intros s2 r Hs2. apply Hl. now right.
      + rewrite get_assign_absent; [assumption|].
        destruct (Obj.has name cat) eqn:E; [|reflexivity].
        unfold Obj.has in E. destruct (Obj.get name cat) as [r|] eqn:G;
          [|discriminate].
        apply get_In in G. destruct (filterObject_In _ _ _ _ _ Hc G) as [G1 G2].
        injection G2 as G2. rewrite (Hl s' r) in G2; [discriminate|now left|assumption]. }
  assert (Hall : exists allDeps,
             catalogSections pkgData (opt_dep options) [] = Ok allDeps
             /\ Obj.get name allDeps = Some ref).
  { rewrite Hdep.
    assert (Happ : forall l1 l2 accum,
               catalogSections pkgData (l1 ++ l2) accum
               = let? a := catalogSections pkgData l1 accum in
                 catalogSections pkgData l2 a).
    { induction l1 as [|x l1 IH]; simpl; intros l2 accum; [reflexivity|].
      destruct (catalogSection pkgData accum x); simpl; [apply IH | reflexivity]. }
    rewrite Happ.
    destruct (catalogSections_total pkgData before []) as [acc1 ->].
    cbn [obind catalogSections]. unfold catalogSection at 1.
    destruct (filterObject_total (sectionOf pkgData s)
                (fun _ version => Ok (startsWith version "catalog:")))
      as [cat Hc]; [reflexivity|].
    rewrite Hc. cbn [obind]. apply Hrest; [assumption|].
    rewrite get_assign by apply (filterObject_wf _ _ _ Hc Wsec).
    rewrite (@filterObject_get _ _ _ _ name Hc Wsec), Hget, Hcat. reflexivity. }
  destruct Hall as (allDeps & Hm & Hg).
  pose proof (catalogSections_wf _ _ [] _ eq_refl Hm) as Wall.
  unfold getCatalogDependencies. rewrite Hm. cbn [obind].
  destruct (filterObject_total allDeps
              (fun name0 _ =>
                 Ok (negb (workspacePackageMap (opt_workspacePackages options) name0))))
    as [inner Hi]; [reflexivity|].
  rewrite Hi, Hf. cbn [obind].
  destruct (filterObject_total inner (fun n v => Ok (pred n v))) as [res Hr];
    [reflexivity|].
  rewrite Hr. exists res. split; [reflexivity|].
  rewrite (@filterObject_get _ _ _ _ name Hr (filterObject_wf _ _ _ Hi Wall)).
  rewrite (@filterObject_get _ _ _ _ name Hi Wall), Hg, Hws. simpl.
  now rewrite Hp.
Qed.

(** X3.  A name that the options list as a workspace package is in neither
    map, whatever the package file declares for it. *)
Theorem workspace_packages_are_left_out
    (pkgData : PackageFile) (options : Options) (name : string) :
  workspacePackageMap (opt_workspacePackages options) name = true ->
  (forall res, getCurrentDependencies pkgData options = Ok res ->
               Obj.get name res = None)
  /\ (forall res, getCatalogDependencies pkgData options = Ok res ->
                  Obj.get name res = None).
Proof.
  intros Hws. split; intros res H;
    destruct (Obj.get name res) as [spec|] eqn:Hg; try reflexivity;
    apply get_In in Hg.
  - destruct (getCurrentDependencies_inv _ _ _ H)
      as (allDeps & inner & pred & _ & Hi & _ & Hr).
    destruct (filterObject_In _ _ _ _ _ Hr Hg) as [H1 _].
    apply In_definedEntries in H1.
    destruct (filterObject_In _ _ _ _ _ Hi H1) as [_ H2].
    unfold notWorkspaceNorCatalog in H2. rewrite Hws in H2. discriminate.
  - destruct (getCatalogDependencies_inv _ _ _ H)
      as (allDeps & inner & pred & _ & Hi & _ & Hr).
    destruct (filterObject_In _ _ _ _ _ Hr Hg) as [H1 _].
    destruct (filterObject_In _ _ _ _ _ Hi H1) as [_ H2].
    rewrite Hws in H2. discriminate.
Qed.

(** X4.  Every entry of either map has passed the filter that the options
    build: the predicate holds of each name that getCurrentDependencies or
    getCatalogDependencies returns, with the spec that the map binds it
    to. *)
Theorem filter_decides_the_entries
    (pkgData : PackageFile) (options : Options)
    (pred : string -> string -> bool) :
  opt_filterAndReject options = Ok pred ->
  (forall res name spec,
      getCurrentDependencies pkgData options = Ok res ->
      Obj.get name res = Some spec -> pred name spec = true)
  /\ (forall res name ref,
         getCatalogDependencies pkgData options = Ok res ->
         Obj.get name res = Some ref -> pred name ref = true).
Proof.
  intros Hf. split; intros res name spec H Hg; apply get_In in Hg.
  - destruct (getCurrentDependencies_inv _ _ _ H)
      as (allDeps & inner & pred' & _ & _ & Hf' & Hr).
    rewrite Hf in Hf'. injection Hf' as <-.
    destruct (filterObject_In _ _ _ _ _ Hr Hg) as [_ H1]. now injection H1.
  - destruct (getCatalogDependencies_inv _ _ _ H)
      as (allDeps & inner & pred' & _ & _ & Hf' & Hr).
    rewrite Hf in Hf'. injection Hf' as <-.
    destruct (filterObject_In _ _ _ _ _ Hr Hg) as [_ H1]. now injection H1.
Qed.

(** A filter expression that cannot be built is reported as a program
    error with the prefix [Invalid filter: ]: always by
    getCatalogDependencies, and by getCurrentDependencies once the sections
    are merged and every merged entry has a version. *)
Theorem malformed_filter_is_a_program_error
    (pkgData : PackageFile) (options : Options) (e : string) :
  opt_filterAndReject options = Thrown e ->
  getCatalogDependencies pkgData options = Thrown ("Invalid filter: " ++ e)
  /\ (forall allDeps,
         mergeSections pkgData (opt_dep options) [] = Ok allDeps ->
         (forall entry, In entry allDeps -> snd entry <> None) ->
         getCurrentDependencies pkgData options
         = Thrown ("Invalid filter: " ++ e)).
Proof.
  intros Hf. split.
  - unfold getCatalogDependencies.
    destruct (catalogSections_total pkgData (opt_dep options) []) as [allDeps ->].
    cbn [obind].
    destruct (filterObject_total allDeps
                (fun name0 _ =>
                   Ok (negb (workspacePackageMap (opt_workspacePackages options) name0))))
      as [inner ->]; [reflexivity|].
    now rewrite Hf.
  - intros allDeps Hm Hdef. unfold getCurrentDependencies, filterDependencies.
    rewrite Hm. cbn [obind].
    destruct (filterObject_total allDeps (notWorkspaceNorCatalog options))
      as [inner ->].
    { intros k v Hin. unfold notWorkspaceNorCatalog.
      destruct (workspacePackageMap _ k); [reflexivity|].
      destruct v; [reflexivity|]. now destruct (Hdef _ Hin). }
    now rewrite Hf.
Qed.

(** X2.  Whatever getCurrentDependencies returns for a name is declared for it:
    by a scanned section, or by the packageManager field when that is
    scanned. *)
Theorem returned_specs_are_declared
    (pkgData : PackageFile) (options : Options) (res : Index string)
    (name spec : string) :
  getCurrentDependencies pkgData options = Ok res ->
  Obj.get name res = Some spec ->
  exists s,
    In s (opt_dep options)
    /\ if String.eqb s "packageManager"
       then In (name, Some spec) (parsePackageManager pkgData)
       else In (name, spec) (sectionOf pkgData s).
Proof.
  intros H Hg. apply get_In in Hg.
  destruct (getCurrentDependencies_inv _ _ _ H)
    as (allDeps & inner & pred & Hm & Hi & _ & Hr).
  destruct (filterObject_In _ _ _ _ _ Hr Hg) as [H1 _].
  apply In_definedEntries in H1.
  destruct (filterObject_In _ _ _ _ _ Hi H1) as [H2 _].
  destruct (mergeSections_origin _ _ _ _ _ _ Hm H2) as [[]|(s & Hs & Ho)].
  exists s. split; [assumption|].
  destruct (String.eqb s "packageManager"); [assumption|].
  now destruct Ho as (spec' & [= <-] & Ho).
Qed.

(** X5.  parsePackageManager splits the field at [@]: [name@version] gives the
    pair of the two; a field without [@] gives the name with no version;
    and a scoped name, which starts with [@], gives the empty name, bound
    to the text up to the second [@]. *)
Theorem parsePackageManager_splits_at_the_sign
    (sections : Index (Index string)) (name version : string) :
  lacks "@" name = true ->
  lacks "@" version = true ->
  parsePackageManager (withPackageManager sections (name ++ "@" ++ version))
  = [(name, Some version)]
  /\ (truthyStr name = true ->
      parsePackageManager (withPackageManager sections name) = [(name, None)])
  /\ parsePackageManager
       (withPackageManager sections ("@" ++ name ++ "@" ++ version))
     = [("", Some name)].
Proof.
  intros Hn Hv. split; [|split].
  - now apply parsePackageManager_pair.
  - intros T. now apply parsePackageManager_bare.
  - unfold parsePackageManager, withPackageManager. cbn [pkg_packageManager].
    change (truthyStr ("@" ++ name ++ "@" ++ version)) with true. cbv iota.
    change ("@" ++ name ++ "@" ++ version)%string
      with (String "@"%char (name ++ String "@"%char version)).
    cbn [splitOn]. rewrite Ascii.eqb_refl.
    now rewrite splitOn_app, splitOn_lacks.
Qed.

(** X6.  The packageManager field takes precedence when it is scanned last: the
    map binds the package manager to the version of the field, whatever
    the sections scanned before declare for that name, since the field is
    spread over the accumulator without a comparison. *)
Theorem package_manager_field_scanned_last_wins
    (pkgData : PackageFile) (options : Options) (sections : list string)
    (name version : string) (acc : Index (option string))
    (pred : string -> string -> bool) :
  opt_dep options = sections ++ ["packageManager"] ->
  pkg_packageManager pkgData = Some (name ++ "@" ++ version)%string ->
  lacks "@" name = true ->
  lacks "@" version = true ->
  mergeSections pkgData sections [] = Ok acc ->
  workspacePackageMap (opt_workspacePackages options) name = false ->
  startsWith version "catalog:" = false ->
  opt_filterAndReject options = Ok pred ->
  pred name version = true ->
  exists res,
    getCurrentDependencies pkgData options = Ok res
    /\ Obj.get name res = Some version.
Proof.
  intros Hdep Hpkg Hn Hv Hm Hws Hcat Hf Hp.
  assert (Hpin : parsePackageManager pkgData = [(name, Some version)])
    by now apply parsePackageManager_pair.
  set (final := Obj.assign acc [(name, Some version)]).
  assert (Hfinal : mergeSections pkgData (opt_dep options) [] = Ok final).
  { rewrite Hdep, mergeSections_app, Hm. cbn [obind mergeSections].
    unfold mergeSection. change (String.eqb "packageManager" "packageManager") with true.
    cbv iota. now rewrite Hpin. }
  assert (Wacc : Obj.wf acc = true)
    by apply (mergeSections_wf pkgData sections [] acc eq_refl Hm).
  assert (Hdef : forall e, In e final -> snd e <> None).
  { intros [k v] Hin. simpl.
    destruct (In_assign _ _ _ Hin) as [H1|[[= <- <-]|[]]]; [|discriminate].
    destruct (mergeSections_origin _ _ _ _ _ _ Hm H1) as [[]|(s & _ & Ho)].
    destruct (String.eqb s "packageManager").
    - rewrite Hpin in Ho. destruct Ho as [[= _ <-]|[]]. discriminate.
    - destruct Ho as (spec & -> & _). discriminate. }
  destruct (filterDependencies_keeps options final name version pred) as (res & Hr & Hg);
    try assumption.
  - now apply wf_assign.
  - unfold lookupSpec, final. rewrite get_assign by reflexivity.
    simpl. now rewrite String.eqb_refl.
  - exists res. unfold getCurrentDependencies. rewrite Hfinal. cbn [obind].
    now rewrite Hr.
Qed.

(** X7.  A packageManager field without a version makes getCurrentDependencies
    fail when it is scanned last: the field yields an entry whose version
    is undefined, on which the test for a catalog reference throws, and the
    exception is reported as an invalid filter. *)
Theorem package_manager_without_version_is_an_invalid_filter
    (pkgData : PackageFile) (options : Options) (sections : list string)
    (pm : string) (acc : Index (option string)) :
  opt_dep options = sections ++ ["packageManager"] ->
  pkg_packageManager pkgData = Some pm ->
  truthyStr pm = true ->
  lacks "@" pm = true ->
  mergeSections pkgData sections [] = Ok acc ->
  workspacePackageMap (opt_workspacePackages options) pm = false ->
  exists message,
    getCurrentDependencies pkgData options = Thrown ("Invalid filter: " ++ message).
Proof.
  intros Hdep Hpkg Ht Hl Hm Hws.
  assert (Hpin : parsePackageManager pkgData = [(pm, None)])
    by now apply parsePackageManager_bare.
  set (final := Obj.assign acc [(pm, None)]).
  assert (Hfinal : mergeSections pkgData (opt_dep options) [] = Ok final).
  { rewrite Hdep, mergeSections_app, Hm. cbn [obind mergeSections].
    unfold mergeSection. change (String.eqb "packageManager" "packageManager") with true.
    cbv iota. now rewrite Hpin. }
  assert (Hin : In (pm, @None string) final).
  { apply get_In. unfold final. rewrite get_assign by reflexivity.
    simpl. now rewrite String.eqb_refl. }
  destruct (filterObject_throws final (notWorkspaceNorCatalog options) pm None Hin)
    as [e He].
  { unfold notWorkspaceNorCatalog. now rewrite Hws. }
  exists e. unfold getCurrentDependencies, filterDependencies.
  rewrite Hfinal. cbn [obind]. now rewrite He.
Qed.

(** X1.  A name that exactly one scanned section declares is returned with the
    spec of that declaration, when the scan is in order for the name (the
    sections have pairwise different names and ranges with a minimum
    version, and the packageManager field, if it is scanned, names another
    package and has a version), unless the spec is a catalog reference, the
    name is a workspace package or the name of an inherited member, or the
    filter rejects it. *)
Theorem spec_declared_once_is_returned
    (pkgData : PackageFile) (options : Options) (s name spec : string)
    (pred : string -> string -> bool) :
  forallb (scanOk pkgData name) (opt_dep options) = true ->
  ordinary s = true ->
  In s (opt_dep options) ->
  Obj.get name (sectionOf pkgData s) = Some spec ->
  (forall s', In s' (opt_dep options) -> s' <> s ->
              Obj.has name (sectionOf pkgData s') = false) ->
  startsWith spec "catalog:" = false ->
  workspacePackageMap (opt_workspacePackages options) name = false ->
  inherited name = false ->
  opt_filterAndReject options = Ok pred ->
  pred name spec = true ->
  exists res,
    getCurrentDependencies pkgData options = Ok res
    /\ Obj.get name res = Some spec.
Proof.
  intros Hscan Ho Hs Hget Hother Hcat Hws _ Hf Hp.
  assert (Hrun : forall l accum,
             forallb (scanOk pkgData name) l = true ->
             (forall s', In s' l -> s' <> s ->
                         Obj.has name (sectionOf pkgData s') = false) ->
             accumOk accum = true ->
             (forall e, In e accum -> snd e <> None) ->
             (lookupSpec name accum = None \/ lookupSpec name accum = Some spec) ->
             exists final,
               mergeSections pkgData l accum = Ok final
               /\ Obj.wf final = true
               /\ (forall e, In e final -> snd e <> None)
               /\ (lookupSpec name accum = Some spec \/ In s l ->
                   lookupSpec name final = Some spec)).
  { induction l as [|s0 l IH]; simpl; intros accum Hl Hoth Ha Hdef Hlk.
    - exists accum. split; [reflexivity|]. split.
      + unfold accumOk in Ha. now apply andb_true_iff in Ha as [Ha _].
      + split; [assumption|]. intros [H|[]]. assumption.
    - apply andb_true_iff in Hl as [Hl1 Hl2].
      assert (Hstep : exists accum',
                 mergeSection pkgData accum s0 = Ok accum'
                 /\ accumOk accum' = true
                 /\ (forall e, In e accum' -> snd e = None -> In e accum)
                 /\ (lookupSpec name accum' = None
                     \/ lookupSpec name accum' = Some spec)
                 /\ (lookupSpec name accum = Some spec \/ s0 = s ->
                     lookupSpec name accum' = Some spec)).
      { unfold scanOk in Hl1. destruct (ordinary s0) eqn:Eo.
        - destruct (mergeSection_ordinary pkgData accum s0 Eo Hl1 Ha)
            as (accum' & Hm & Ha' & Hnone & Hl').
          exists accum'. repeat (split; [assumption|]). rewrite Hl'.
          destruct (String.eqb_spec s0 s) as [->|N].
          + rewrite Hget.
            assert (E : (if strictlyGreater spec (lookupSpec name accum)
                         then lookupSpec name accum else Some spec) = Some spec).
            { destruct Hlk as [-> | ->]; [reflexivity|].
              now destruct (strictlyGreater spec (Some spec)). }
            rewrite E. split; [now right | reflexivity].
          + specialize (Hoth s0 (or_introl eq_refl) N). unfold Obj.has in Hoth.
            destruct (Obj.get name (sectionOf pkgData s0)); [discriminate|].
            split; [assumption|]. intros [H|H]; [assumption | contradiction].
        - destruct (mergeSection_pin pkgData accum s0 name Eo Hl1 Ha)
            as (accum' & Hm & Ha' & Hnone & Hl').
          exists accum'. repeat (split; [assumption|]). rewrite Hl'.
          split; [assumption|]. intros [H|H]; [assumption|].
          subst s0. rewrite Ho in Eo. discriminate. }
      destruct Hstep as (accum' & Hm & Ha' & Hnone & Hlk' & Hkeep).
      rewrite Hm. cbn [obind].
      destruct (IH accum' Hl2) as (final & Hfin & Wf & Hdf & Hres); try assumption.
      { intros s' Hs'. apply Hoth. now right. }
      { intros e He Hn. apply (Hdef e); [now apply Hnone | assumption]. }
      exists final. repeat (split; [assumption|]).
      intros [H|[H|H]].
      + apply Hres. left. apply Hkeep. now left.
      + apply Hres. left. apply Hkeep. now right.
      + apply Hres. now right. }
  destruct (Hrun (opt_dep options) [] Hscan Hother eq_refl)
    as (final & Hm & Wf & Hdef & Hres).
  { intros e []. }
  { now left. }
  destruct (filterDependencies_keeps options final name spec pred Wf Hdef
              (Hres (or_intror Hs)) Hws Hcat Hf Hp) as (res & Hr & Hg).
  exists res. unfold getCurrentDependencies. rewrite Hm. cbn [obind].
  now rewrite Hr.
Qed.

End ResolverExtras.

Lemma catalog_dependencies_are_declared_references_witness :
  startsWith "catalog:" "catalog:" = true
  /\ exists s, In s ["dependencies"]
       /\ In ("lodash", "catalog:") (sectionOf pkgConsumer s).
Proof.
  apply (catalog_dependencies_are_declared_references pkgConsumer
           (plainOptions ["dependencies"]) [("lodash", "catalog:")]
           "lodash" "catalog:"); reflexivity.
Defined.

(** *** The further properties on the example manifests *)

Lemma last_catalog_reference_is_reported_witness :
  exists res,
    getCatalogDependencies pkgTwoRefs
      (plainOptions ["dependencies"; "devDependencies"]) = Ok res
    /\ Obj.get "lodash" res = Some "catalog:dev".
Proof.
  apply (last_catalog_reference_is_reported pkgTwoRefs
           (plainOptions ["dependencies"; "devDependencies"])
           ["dependencies"] [] "devDependencies" "lodash" "catalog:dev"
           (fun _ _ => true)); try reflexivity.
  intros s' r [].
Defined.

Lemma workspace_packages_are_left_out_witness :
  (forall res,
      getCurrentDependencies pkgTwoRanges
        (workspaceOptions ["dependencies"; "devDependencies"] ["react"]) = Ok res ->
      Obj.get "react" res = None)
  /\ (forall res,
         getCatalogDependencies pkgTwoRanges
           (workspaceOptions ["dependencies"; "devDependencies"] ["react"]) = Ok res ->
         Obj.get "react" res = None).
Proof.
  apply (@workspace_packages_are_left_out simpleSemver pkgTwoRanges
           (workspaceOptions ["dependencies"; "devDependencies"] ["react"]) "react").
  reflexivity.
Defined.

Lemma filter_decides_the_entries_witness :
  (forall res name spec,
      getCurrentDependencies pkgTwoRanges
        (filteringOptions ["dependencies"] (allBut "react")) = Ok res ->
      Obj.get name res = Some spec -> allBut "react" name spec = true)
  /\ (forall res name ref,
         getCatalogDependencies pkgTwoRanges
           (filteringOptions ["dependencies"] (allBut "react")) = Ok res ->
         Obj.get name res = Some ref -> allBut "react" name ref = true).
Proof.
  apply (@filter_decides_the_entries simpleSemver pkgTwoRanges
           (filteringOptions ["dependencies"] (allBut "react")) (allBut "react")).
  reflexivity.
Defined.

Lemma malformed_filter_is_a_program_error_witness :
  getCatalogDependencies pkgConsumer
    (brokenFilterOptions ["dependencies"] "Invalid regular expression")
  = Thrown "Invalid filter: Invalid regular expression"
  /\ (forall allDeps,
         mergeSections pkgConsumer ["dependencies"] [] = Ok allDeps ->
         (forall entry, In entry allDeps -> snd entry <> None) ->
         getCurrentDependencies pkgConsumer
           (brokenFilterOptions ["dependencies"] "Invalid regular expression")
         = Thrown "Invalid filter: Invalid regular expression").
Proof.
  apply (@malformed_filter_is_a_program_error simpleSemver pkgConsumer
           (brokenFilterOptions ["dependencies"] "Invalid regular expression")
           "Invalid regular expression").
  reflexivity.
Defined.

Lemma returned_specs_are_declared_witness :
  exists s,
    In s ["dependencies"; "devDependencies"; "packageManager"]
    /\ if String.eqb s "packageManager"
       then In ("pnpm", Some "8.6.0") (parsePackageManager pkgTwoRanges)
       else In ("pnpm", "8.6.0") (sectionOf pkgTwoRanges s).
Proof.
  apply (@returned_specs_are_declared simpleSemver pkgTwoRanges
           (plainOptions ["dependencies"; "devDependencies"; "packageManager"])
           [("react", "^17.0.0"); ("left-pad", "1.0.0"); ("pnpm", "8.6.0")]
           "pnpm" "8.6.0"); reflexivity.
Defined.

Lemma parsePackageManager_splits_at_the_sign_witness :
  parsePackageManager (withPackageManager [] "pnpm@8.6.0") = [("pnpm", Some "8.6.0")]
  /\ (truthyStr "pnpm" = true ->
      parsePackageManager (withPackageManager [] "pnpm") = [("pnpm", None)])
  /\ parsePackageManager (withPackageManager [] "@pnpm@8.6.0") = [("", Some "pnpm")].
Proof.
  apply (parsePackageManager_splits_at_the_sign [] "pnpm" "8.6.0"); reflexivity.
Defined.

Lemma package_manager_field_scanned_last_wins_witness :
  exists res,
    getCurrentDependencies pkgPinned
      (plainOptions ["dependencies"; "packageManager"]) = Ok res
    /\ Obj.get "npm" res = Some "2.0.0".
Proof.
  apply (@package_manager_field_scanned_last_wins simpleSemver pkgPinned
           (plainOptions ["dependencies"; "packageManager"]) ["dependencies"]
           "npm" "2.0.0" [("npm", Some "1.0.0")] (fun _ _ => true));
    reflexivity.
Defined.

Lemma package_manager_without_version_is_an_invalid_filter_witness :
  exists message,
    getCurrentDependencies pkgBarePin
      (plainOptions ["dependencies"; "packageManager"])
    = Thrown ("Invalid filter: " ++ message).
Proof.
  apply (@package_manager_without_version_is_an_invalid_filter simpleSemver
           pkgBarePin (plainOptions ["dependencies"; "packageManager"])
           ["dependencies"] "pnpm" [("left-pad", Some "1.0.0")]);
    reflexivity.
Defined.

Lemma spec_declared_once_is_returned_witness :
  exists res,
    getCurrentDependencies pkgTwoRanges
      (plainOptions ["dependencies"; "devDependencies"; "packageManager"]) = Ok res
    /\ Obj.get "left-pad" res = Some "1.0.0".
Proof.
  apply (@spec_declared_once_is_returned simpleSemver pkgTwoRanges
           (plainOptions ["dependencies"; "devDependencies"; "packageManager"])
           "dependencies" "left-pad" "1.0.0" (fun _ _ => true));
    try reflexivity.
  - simpl. tauto.
  - intros s' [<-|[<-|[<-|[]]]] N; try reflexivity. now destruct N.
Defined.

(* ================================================================== *)
(** * Further properties of the catalog patcher *)
(* ================================================================== *)

Lemma yamlPaths_entryPaths (catalogName dep : string) (p : list string) :
  In p (yamlPaths catalogName dep) -> In p (entryPaths catalogName dep).
Proof.
  unfold yamlPaths, entryPaths.
  destruct (String.eqb_spec catalogName "default") as [->|N]; simpl; tauto.
Qed.

Lemma jsonPaths_entryPaths (catalogName dep : string) (p : list string) :
  In p (jsonPaths catalogName dep) -> In p (entryPaths catalogName dep).
Proof.
  unfold jsonPaths, entryPaths, Pure.keyPath.
  destruct (truthyStr catalogName); simpl; tauto.
Qed.

Lemma eqb_catalog_catalogs :
  String.eqb "catalog" "catalogs" = false
  /\ String.eqb "catalogs" "catalog" = false
  /\ String.eqb "catalog" "workspaces" = false
  /\ String.eqb "catalogs" "workspaces" = false
  /\ String.eqb "workspaces" "catalog" = false
  /\ String.eqb "workspaces" "catalogs" = false.
Proof. repeat split. Qed.

(** Two places of catalog entries are the same place or part ways. *)
Lemma entryPaths_eq_or_diverge (c d c' d' : string) (p q : list string) :
  In p (entryPaths c d) -> In q (entryPaths c' d') ->
  p = q \/ diverge p q = true.
Proof.
  unfold entryPaths. simpl.
  intros [<-|[<-|[<-|[<-|[]]]]] [<-|[<-|[<-|[<-|[]]]]]; simpl;
    try (right; reflexivity);
    destruct (String.eqb_spec d d') as [->|]; try (now right);
    try (destruct (String.eqb_spec c c') as [->|]); try (now right);
    now left.
Qed.

(** Places of entries of different dependencies part ways. *)
Lemma entryPaths_diverge (c d c' d' : string) (p q : list string) :
  d <> d' ->
  In p (entryPaths c d) -> In q (entryPaths c' d') -> diverge p q = true.
Proof.
  intros N Hp Hq.
  destruct (entryPaths_eq_or_diverge c d c' d' p q Hp Hq) as [<-|H]; [|exact H].
  exfalso. unfold entryPaths in *. simpl in *.
  destruct Hp as [<-|[<-|[<-|[<-|[]]]]];
    destruct Hq as [Hq|[Hq|[Hq|[Hq|[]]]]]; congruence.
Qed.

Lemma setIfPresent_present (p q : list string) (v : string) (d d' : value) :
  p = q \/ diverge p q = true ->
  setIfPresent p v d = Ok d' -> exists_at q d' = exists_at q d.
Proof.
  intros [<-|Hd] H.
  - unfold setIfPresent in H. unfold exists_at.
    destruct (getIn p d) eqn:E.
    + now rewrite (getIn_setIn_same _ _ _ _ H).
    + injection H as <-. now rewrite E.
  - apply exists_at_getIn. apply (setIfPresent_diverge _ _ _ _ _ Hd H).
Qed.

Lemma setPaths_present (ps : list (list string)) (v : string) (q : list string) :
  forall d d',
    (forall p, In p ps -> p = q \/ diverge p q = true) ->
    setPaths ps v d = Ok d' -> exists_at q d' = exists_at q d.
Proof.
  unfold setPaths. induction ps as [|p r IH]; simpl; intros d d' Hq H.
  - now injection H as <-.
  - destruct (setIfPresent p v d) as [d1|] eqn:E; simpl in H; [|discriminate].
    rewrite (IH d1 d'); [| |assumption].
    + apply (setIfPresent_present p q v d d1); [|assumption]. apply Hq. now left.
    + intros p' Hp'. apply Hq. now right.
Qed.

(** The YAML steps add no entry and remove none. *)
Lemma yamlRun_present (catalogName : string) (ops : Index string)
    (q : list string) :
  forall d d1,
    (forall e p, In e ops -> In p (yamlPaths catalogName (fst e)) ->
                 p = q \/ diverge p q = true) ->
    foldOutcome (Pure.yamlStep catalogName) ops d = Ok d1 ->
    exists_at q d1 = exists_at q d.
Proof.
  induction ops as [|[dep v] r IH]; cbn [foldOutcome]; intros d d1 Hq H.
  - now injection H as <-.
  - rewrite yamlStep_setPaths in H.
    destruct (setPaths (yamlPaths catalogName dep) v d) as [d'|] eqn:E;
      simpl in H; [|discriminate].
    rewrite (IH d' d1); [| |assumption].
    + apply (setPaths_present _ _ _ _ _ (fun p Hp => Hq (dep, v) p (or_introl eq_refl) Hp) E).
    + intros e p He. apply Hq. now right.
Qed.

(** Among finitely many places, one is the place [q] or all part ways with it. *)
Lemma one_is_or_all_diverge (ps : list (list string)) (q : list string) :
  (forall p, In p ps -> p = q \/ diverge p q = true) ->
  In q ps \/ forall p, In p ps -> diverge p q = true.
Proof.
  induction ps as [|p r IH]; intros H.
  - right. intros p [].
  - destruct (H p (or_introl eq_refl)) as [->|Hd]; [left; now left|].
    destruct IH as [Hin|Hall].
    + intros p' Hp'. apply H. now right.
    + left. now right.
    + right. intros p' [<-|Hp']; [assumption | now apply Hall].
Qed.

(** The places that the patcher looks at for the operations. *)
Lemma in_flat_map_paths (paths : string -> list (list string))
    (ops : Index string) (p : list string) :
  In p (flat_map (fun e => paths (fst e)) ops)
  <-> exists e, In e ops /\ In p (paths (fst e)).
Proof. apply in_flat_map. Qed.

Lemma diverge_cons_neq (a b : string) (p q : list string) :
  String.eqb a b = false -> diverge (a :: p) (b :: q) = true.
Proof. intros H. simpl. now rewrite H. Qed.

Lemma diverge_cons_eq (a : string) (p q : list string) :
  diverge (a :: p) (a :: q) = diverge p q.
Proof. simpl. now rewrite String.eqb_refl. Qed.

Ltac part_ways :=
  repeat first
    [ rewrite diverge_cons_eq
    | apply diverge_cons_neq;
      first [ reflexivity | assumption | apply String.eqb_neq; congruence ] ].

Section PatcherExtras.

Variables (fileContent : Text) (fileExtension catalogName : string).
Variables (current upgraded : Index string) (result : Text).

Hypothesis wf_upgraded : Obj.wf upgraded = true.
Hypothesis patched :
  Pure.upgradeCatalogData fileContent fileExtension catalogName current upgraded
  = Ok result.

(** A place that parts ways with every place that the patcher looks at
    holds after the patch what it held before. *)
Lemma patcher_frame_looked_at (q : list string) :
  (forall e p, In e upgraded ->
               In p (yamlPaths catalogName (fst e) ++ jsonPaths catalogName (fst e)) ->
               diverge p q = true) ->
  getIn q result = getIn q fileContent.
Proof.
  intros Hq. unfold Pure.upgradeCatalogData in patched.
  destruct (String.eqb fileExtension ".yaml" || String.eqb fileExtension ".yml").
  - rewrite upgradeYaml_printed in patched.
    set (ops := filter (fun e => truthyAt (fst e) current) upgraded)
      in *.
    destruct (yamlRun catalogName ops fileContent (wf_filter _ _ wf_upgraded))
      as (d1 & Hrun & _ & Hframe).
    rewrite Hrun in patched. injection patched as <-.
    apply Hframe. intros e p He Hp. apply (Hq e).
    + now apply filter_In in He.
    + apply in_or_app. now left.
  - destruct (String.eqb fileExtension ".json"); [|discriminate].
    unfold Pure.upgradeJsonCatalogData, parseTree in patched.
    destruct (jsonRun fileContent catalogName current upgraded fileContent
                wf_upgraded) as (d1 & Hrun & Hframe & _); [reflexivity|].
    rewrite Hrun in patched. injection patched as <-.
    apply Hframe. intros e p He Hp. apply (Hq e p He).
    apply in_or_app. now right.
Qed.

(** A place that parts ways with every place of an entry of an upgraded
    dependency holds after the patch what it held before. *)
Lemma patcher_frame (q : list string) :
  (forall e p, In e upgraded -> In p (entryPaths catalogName (fst e)) ->
               diverge p q = true) ->
  getIn q result = getIn q fileContent.
Proof.
  intros Hq. apply patcher_frame_looked_at. intros e p He Hp.
  apply (Hq e p He). apply in_app_or in Hp as [Hp|Hp].
  - now apply yamlPaths_entryPaths.
  - now apply jsonPaths_entryPaths.
Qed.

(** A place that is the place of an entry, or parts ways with all of
    them, is defined after the patch exactly when it was before. *)
Lemma patcher_present (q : list string) :
  (forall e p, In e upgraded -> In p (entryPaths catalogName (fst e)) ->
               p = q \/ diverge p q = true) ->
  exists_at q result = exists_at q fileContent.
Proof.
  intros Hq. unfold Pure.upgradeCatalogData in patched.
  destruct (String.eqb fileExtension ".yaml" || String.eqb fileExtension ".yml").
  - rewrite upgradeYaml_printed in patched.
    destruct (foldOutcome (Pure.yamlStep catalogName) _ fileContent)
      as [d1|] eqn:Hrun; simpl in patched; [|discriminate].
    injection patched as <-.
    apply (yamlRun_present _ _ _ _ _ (fun e p He Hp =>
             Hq e p (proj1 (proj1 (filter_In _ _ _) He))
               (yamlPaths_entryPaths _ _ _ Hp)) Hrun).
  - destruct (String.eqb fileExtension ".json"); [|discriminate].
    unfold Pure.upgradeJsonCatalogData, parseTree in patched.
    destruct (jsonRun fileContent catalogName current upgraded fileContent
                wf_upgraded) as (d1 & Hrun & Hframe & _ & Hex); [reflexivity|].
    rewrite Hrun in patched. injection patched as <-.
    destruct (one_is_or_all_diverge
                (flat_map (fun e => jsonPaths catalogName (fst e)) upgraded) q)
      as [Hin|Hall].
    + intros p Hp. apply in_flat_map_paths in Hp as (e & He & Hp).
      apply (Hq e p He). now apply jsonPaths_entryPaths.
    + apply in_flat_map_paths in Hin as (e & He & Hp). apply (Hex e q He Hp).
    + apply exists_at_getIn. apply Hframe. intros e p He Hp.
      apply Hall. apply in_flat_map_paths. now exists e.
Qed.

End PatcherExtras.

(** X12.  The patcher adds no entry to a catalog and removes none: each place
    that can define a dependency of a catalog, in the flat catalog or in a
    named one, at the root or under [workspaces], is defined in the result
    exactly when it was defined in the content. *)
Theorem patcher_adds_and_removes_no_entry
    (fileContent : Text) (fileExtension catalogName : string)
    (current upgraded : Index string) (result : Text) :
  Obj.wf upgraded = true ->
  Pure.upgradeCatalogData fileContent fileExtension catalogName current upgraded
  = Ok result ->
  forall c dep q,
    In q (entryPaths c dep) -> exists_at q result = exists_at q fileContent.
Proof.
  intros W H c dep q Hq. apply (patcher_present _ _ _ _ _ _ W H).
  intros e p _ Hp. apply (entryPaths_eq_or_diverge _ _ _ _ _ _ Hp Hq).
Qed.

(** X13.  What the patcher leaves as it was: every top-level property other
    than [catalog], [catalogs] and [workspaces]; every entry, in whatever
    catalog, of a dependency that the upgraded map does not name; every
    named catalog other than the one being upgraded; and, when that one is
    neither the default catalog nor the empty name, the flat catalog. *)
Theorem patcher_changes_nothing_else
    (fileContent : Text) (fileExtension catalogName : string)
    (current upgraded : Index string) (result : Text) :
  Obj.wf upgraded = true ->
  Pure.upgradeCatalogData fileContent fileExtension catalogName current upgraded
  = Ok result ->
  (forall k, existsb (String.eqb k) catalogRoots = false ->
             getIn [k] result = getIn [k] fileContent)
  /\ (forall c dep q,
         Obj.get dep upgraded = None -> In q (entryPaths c dep) ->
         getIn q result = getIn q fileContent)
  /\ (forall other,
         other <> catalogName ->
         getIn ["catalogs"; other] result = getIn ["catalogs"; other] fileContent
         /\ getIn ["workspaces"; "catalogs"; other] result
            = getIn ["workspaces"; "catalogs"; other] fileContent)
  /\ (catalogName <> "default" -> catalogName <> "" ->
      getIn ["catalog"] result = getIn ["catalog"] fileContent
      /\ getIn ["workspaces"; "catalog"] result
         = getIn ["workspaces"; "catalog"] fileContent).
Proof.
  intros W H. split; [|split; [|split]].
  - intros k Hk. apply (patcher_frame _ _ _ _ _ _ W H).
    intros e p _ Hp. unfold catalogRoots in Hk. simpl in Hk.
    apply orb_false_iff in Hk as [K1 Hk].
    apply orb_false_iff in Hk as [K2 Hk].
    apply orb_false_iff in Hk as [K3 _].
    rewrite String.eqb_sym in K1, K2, K3.
    unfold entryPaths in Hp. simpl in Hp.
    destruct Hp as [<-|[<-|[<-|[<-|[]]]]]; part_ways.
  - intros c dep q Hdep Hq. apply (patcher_frame _ _ _ _ _ _ W H).
    intros e p He Hp.
    apply (entryPaths_diverge catalogName (fst e) c dep p q); try assumption.
    intros Heq. destruct e as [k v]. simpl in Heq. subst k.
    apply In_has in He. unfold Obj.has in He. now rewrite Hdep in He.
  - intros other N.
    assert (N1 : String.eqb catalogName other = false)
      by (apply String.eqb_neq; congruence).
    split; apply (patcher_frame_looked_at _ _ _ _ _ _ W H); intros e p _ Hp;
      unfold yamlPaths, jsonPaths, Pure.keyPath in Hp;
      destruct (String.eqb_spec catalogName "default") as [E|E];
      destruct (truthyStr catalogName); simpl in Hp;
      repeat (destruct Hp as [<-|Hp]; [try subst catalogName; part_ways|]);
      try contradiction.
  - intros N1 N2.
    assert (T : truthyStr catalogName = true).
    { unfold truthyStr. apply negb_true_iff. now apply String.eqb_neq. }
    split; apply (patcher_frame_looked_at _ _ _ _ _ _ W H); intros e p _ Hp;
      unfold yamlPaths, jsonPaths, Pure.keyPath in Hp; rewrite T in Hp;
      destruct (String.eqb_spec catalogName "default") as [E|E];
      try contradiction; simpl in Hp;
      repeat (destruct Hp as [<-|Hp]; [part_ways|]); try contradiction.
Qed.

(** X10.  The effect of the YAML patcher: for a dependency of the upgraded map
    that the current map has, every entry that the patcher locates for it
    and that the content defines holds the new version afterwards. *)
Theorem yaml_located_entries_hold_the_new_version
    (fileContent : Text) (catalogName : string)
    (current upgraded : Index string) (result : Text)
    (dep newVersion : string) (p : list string) :
  Obj.wf upgraded = true ->
  Pure.upgradeYamlCatalogData fileContent catalogName current upgraded
  = Ok result ->
  Obj.get dep upgraded = Some newVersion ->
  truthyOpt (Obj.get dep current) = true ->
  In p (yamlPaths catalogName dep) ->
  exists_at p fileContent = true ->
  getIn p result = Some (VStr newVersion).
Proof.
  intros W H Hup Hcur Hp Hex.
  rewrite upgradeYaml_printed in H.
  set (ops := filter (fun e => truthyAt (fst e) current) upgraded) in *.
  destruct (yamlRun catalogName ops fileContent (wf_filter _ _ W))
    as (d1 & Hrun & Hset & _).
  rewrite Hrun in H. injection H as <-. cbn [printed tree].
  assert (Hin : In (dep, newVersion) ops).
  { apply filter_In. split; [now apply get_In|].
    cbn [fst]. unfold truthyAt.
    destruct (Obj.get dep current); [assumption | discriminate]. }
  specialize (Hset _ Hin). unfold yamlSettled in Hset.
  rewrite forallb_forall in Hset. specialize (Hset p Hp). cbn [snd] in Hset.
  assert (Hpres : exists_at p d1 = true).
  { rewrite <- Hex. apply (yamlRun_present catalogName ops p fileContent d1);
      [|assumption].
    intros e q _ Hq.
    apply (entryPaths_eq_or_diverge catalogName (fst e) catalogName dep);
      now apply yamlPaths_entryPaths. }
  unfold absentOrHolds in Hset. unfold exists_at in Hpres.
  destruct (getIn p d1) as [[| | |s| |]|]; try discriminate.
  apply String.eqb_eq in Hset. now subst s.
Qed.

Lemma yaml_located_entries_hold_the_new_version_witness :
  getIn ["catalogs"; "default"; "foo"] (yamlTwoDefaults "2.0.0" "2.0.0")
  = Some (VStr "2.0.0").
Proof.
  apply (yaml_located_entries_hold_the_new_version
           (yamlTwoDefaults "1.0.0" "1.5.0") "default"
           [("foo", "1.0.0")] [("foo", "2.0.0")] (yamlTwoDefaults "2.0.0" "2.0.0")
           "foo" "2.0.0" ["catalogs"; "default"; "foo"]);
    try reflexivity.
  right. now left.
Defined.

(** X11.  The effect of the JSON patcher: for a dependency whose upgraded
    version is not the version of the current map, the entry that the
    patcher writes, the one under [workspaces] when the content has it and
    else the one at the root, holds the new version afterwards. *)
Theorem json_written_entry_holds_the_new_version
    (fileContent : Text) (catalogName : string)
    (current upgraded : Index string) (result : Text)
    (dep newVersion : string) (target : list string) :
  Obj.wf upgraded = true ->
  Pure.upgradeJsonCatalogData fileContent catalogName current upgraded
  = Ok result ->
  Obj.get dep upgraded = Some newVersion ->
  strictEq (Obj.get dep current) newVersion = false ->
  jsonTarget fileContent catalogName dep = Some target ->
  getIn target result = Some (VStr newVersion).
Proof.
  intros W H Hup Hne Ht. unfold Pure.upgradeJsonCatalogData, parseTree in H.
  destruct (jsonRun fileContent catalogName current upgraded fileContent W)
    as (d1 & Hrun & _ & Hset & _); [reflexivity|].
  rewrite Hrun in H. injection H as <-.
  apply (Hset (dep, newVersion)); [now apply get_In | assumption | assumption].
Qed.

Lemma json_written_entry_holds_the_new_version_witness :
  getIn ["catalogs"; "mobile"; "axios"] (namedJson (catalogOf "react" "17.0.0") "1.2.0")
  = Some (VStr "1.2.0").
Proof.
  apply (json_written_entry_holds_the_new_version
           (namedJson (catalogOf "react" "17.0.0") "1.0.0") "mobile"
           [("axios", "1.0.0")] [("axios", "1.2.0")]
           (namedJson (catalogOf "react" "17.0.0") "1.2.0")
           "axios" "1.2.0" ["catalogs"; "mobile"; "axios"]);
    reflexivity.
Defined.

Lemma patcher_adds_and_removes_no_entry_witness :
  exists_at ["workspaces"; "catalog"; "foo"] (jsonDual "1.0.0" "2.0.0")
  = exists_at ["workspaces"; "catalog"; "foo"] (jsonDual "1.0.0" "1.0.0").
Proof.
  apply (patcher_adds_and_removes_no_entry (jsonDual "1.0.0" "1.0.0") ".json" ""
           [("foo", "1.0.0")] [("foo", "2.0.0")] (jsonDual "1.0.0" "2.0.0")
           eq_refl eq_refl "" "foo").
  right. right. now left.
Defined.

Lemma patcher_changes_nothing_else_witness :
  (forall k, existsb (String.eqb k) catalogRoots = false ->
             getIn [k] (twoCatalogsYaml "1.2.0" "17.0.0")
             = getIn [k] (twoCatalogsYaml "1.0.0" "17.0.0"))
  /\ (forall c dep q,
         Obj.get dep [("axios", "1.2.0")] = None -> In q (entryPaths c dep) ->
         getIn q (twoCatalogsYaml "1.2.0" "17.0.0")
         = getIn q (twoCatalogsYaml "1.0.0" "17.0.0"))
  /\ (forall other,
         other <> "mobile" ->
         getIn ["catalogs"; other] (twoCatalogsYaml "1.2.0" "17.0.0")
         = getIn ["catalogs"; other] (twoCatalogsYaml "1.0.0" "17.0.0")
         /\ getIn ["workspaces"; "catalogs"; other] (twoCatalogsYaml "1.2.0" "17.0.0")
            = getIn ["workspaces"; "catalogs"; other] (twoCatalogsYaml "1.0.0" "17.0.0"))
  /\ ("mobile" <> "default" -> "mobile" <> "" ->
      getIn ["catalog"] (twoCatalogsYaml "1.2.0" "17.0.0")
      = getIn ["catalog"] (twoCatalogsYaml "1.0.0" "17.0.0")
      /\ getIn ["workspaces"; "catalog"] (twoCatalogsYaml "1.2.0" "17.0.0")
         = getIn ["workspaces"; "catalog"] (twoCatalogsYaml "1.0.0" "17.0.0")).
Proof.
  apply (patcher_changes_nothing_else (twoCatalogsYaml "1.0.0" "17.0.0") ".yaml"
           "mobile" [("axios", "1.0.0")] [("axios", "1.2.0")]
           (twoCatalogsYaml "1.2.0" "17.0.0"));
    reflexivity.
Defined.

(** *** The two revisions of the patcher *)







(** Where the two revisions part on a named catalog: a package.json with
    a comment, and one that holds [null].  The file-based revision throws;
    the pure one returns a text. *)
Lemma revisions_differ_on_relaxed_json :
  fst (OnFile.upgradeCatalogData "package.json" "mobile"
         [("axios", "1.0.0")] [("axios", "1.2.0")]
         {| files := [("package.json",
                       commented (namedJson (catalogOf "react" "17.0.0") "1.0.0"))];
            trace := [] |})
  = Thrown "SyntaxError: Unexpected token in JSON"
  /\ fst (patchCatalogFile "package.json" "mobile"
            [("axios", "1.0.0")] [("axios", "1.2.0")]
            {| files := [("package.json",
                          commented (namedJson (catalogOf "react" "17.0.0") "1.0.0"))];
               trace := [] |})
     = Ok (commented (namedJson (catalogOf "react" "17.0.0") "1.2.0"))
  /\ fst (OnFile.upgradeCatalogData "package.json" "mobile"
            [("axios", "1.0.0")] [("axios", "1.2.0")]
            {| files := [("package.json", printed VNull)]; trace := [] |})
     = Thrown "TypeError: Cannot read properties of null"
  /\ fst (patchCatalogFile "package.json" "mobile"
            [("axios", "1.0.0")] [("axios", "1.2.0")]
            {| files := [("package.json", printed VNull)]; trace := [] |})
     = Ok (printed VNull).
Proof. repeat split. Qed.

(* ================================================================== *)
(** * Further properties of the catalog orchestration *)
(* ================================================================== *)

(** ** Footprints *)

Lemma In_writesOf (evs : list Event) (p : string) (c : Text) :
  In (p, c) (writesOf evs) <-> In (EvWrite p c) evs.
Proof.
  induction evs as [|e r IH]; simpl; [tauto|].
  destruct e; simpl; rewrite IH; split; intros H;
    try (now right); try (destruct H as [H|H]; [discriminate | assumption]).
  - destruct H as [[= -> ->]|H]; [now left | now right].
  - destruct H as [[= -> ->]|H]; [now left | now right].
Qed.

Lemma writesWithin_silent {A} (allowed : list string) (m : IO A) :
  (forall w r w', m w = (r, w') ->
     files w' = files w
     /\ exists evs, trace w' = trace w ++ evs /\ writesOf evs = []) ->
  writesWithin allowed m.
Proof.
  intros H w r w' E. destruct (H _ _ _ E) as (Hf & evs & Ht & Hw).
  exists evs. split; [assumption|]. split.
  - intros p c Hin. rewrite Hw in Hin. contradiction.
  - intros p _. now rewrite Hf.
Qed.

Lemma writesWithin_ret {A} (allowed : list string) (a : A) :
  writesWithin allowed (ioRet a).
Proof.
  apply writesWithin_silent. intros w r w' [= _ <-]. split; [reflexivity|].
  exists []. now rewrite app_nil_r.
Qed.

Lemma writesWithin_lift {A} (allowed : list string) (m : outcome A) :
  writesWithin allowed (ioLift m).
Proof.
  apply writesWithin_silent. intros w r w' [= _ <-]. split; [reflexivity|].
  exists []. now rewrite app_nil_r.
Qed.

Lemma writesWithin_readFile (allowed : list string) (path : string) :
  writesWithin allowed (readFile path).
Proof.
  apply writesWithin_silent. intros w r w'. unfold readFile.
  destruct (Obj.get path (files w)); intros [= _ <-];
    (split; [reflexivity|]); now exists [EvRead path].
Qed.

Lemma writesWithin_findUp (allowed : list string) (name : string) :
  writesWithin allowed (findUp name).
Proof.
  apply writesWithin_silent. intros w r w' [= _ <-]. split; [reflexivity|].
  exists []. now rewrite app_nil_r.
Qed.

Lemma writesWithin_consoleError (allowed : list string) (message : string) :
  writesWithin allowed (consoleError message).
Proof.
  apply writesWithin_silent. intros w r w' [= _ <-]. split; [reflexivity|].
  now exists [EvConsoleError message].
Qed.

Lemma writesWithin_writeFile (allowed : list string) (path : string)
    (content : Text) :
  In path allowed -> writesWithin allowed (writeFile path content).
Proof.
  intros Hin w r w' [= _ <-]. exists [EvWrite path content].
  split; [reflexivity|]. split.
  - intros p c [[= <- <-]|[]]. assumption.
  - intros p Hp. cbn [files]. apply get_set_neq. intros ->. now apply Hp.
Qed.

(** The continuation is only run on the values that the first computation
    can yield. *)
Lemma writesWithin_bind {A B} (allowed : list string) (m : IO A)
    (k : A -> IO B) :
  writesWithin allowed m ->
  (forall x, (exists w w', m w = (Ok x, w')) -> writesWithin allowed (k x)) ->
  writesWithin allowed (ioBind m k).
Proof.
  intros Hm Hk w r w' E. unfold ioBind in E.
  destruct (m w) as [[x|e] w1] eqn:Em;
    destruct (Hm _ _ _ Em) as (evs1 & Ht1 & Hw1 & Hf1).
  - destruct (Hk x (ex_intro _ w (ex_intro _ w1 Em)) _ _ _ E)
      as (evs2 & Ht2 & Hw2 & Hf2).
    exists (evs1 ++ evs2). split; [now rewrite Ht2, Ht1, app_assoc|]. split.
    + intros p c Hin. rewrite writesOf_app in Hin.
      apply in_app_or in Hin as [Hin|Hin]; [now apply (Hw1 p c) | now apply (Hw2 p c)].
    + intros p Hp. now rewrite Hf2, Hf1.
  - injection E as _ <-. now exists evs1.
Qed.

Lemma writesWithin_tryCatch {A} (allowed : list string) (m : IO A)
    (h : string -> IO A) :
  writesWithin allowed m -> (forall e, writesWithin allowed (h e)) ->
  writesWithin allowed (tryCatch m h).
Proof.
  intros Hm Hh w r w' E. unfold tryCatch in E.
  destruct (m w) as [[x|e] w1] eqn:Em;
    destruct (Hm _ _ _ Em) as (evs1 & Ht1 & Hw1 & Hf1).
  - injection E as _ <-. now exists evs1.
  - destruct (Hh e _ _ _ E) as (evs2 & Ht2 & Hw2 & Hf2).
    exists (evs1 ++ evs2). split; [now rewrite Ht2, Ht1, app_assoc|]. split.
    + intros p c Hin. rewrite writesOf_app in Hin.
      apply in_app_or in Hin as [Hin|Hin]; [now apply (Hw1 p c) | now apply (Hw2 p c)].
    + intros p Hp. now rewrite Hf2, Hf1.
Qed.

Lemma writesWithin_forEachIO {A B} (allowed : list string) (f : A -> B -> IO A)
    (l : list B) :
  (forall a x, writesWithin allowed (f a x)) ->
  forall a, writesWithin allowed (forEachIO f l a).
Proof.
  intros Hf. induction l as [|x r IH]; cbn [forEachIO]; intros a.
  - apply writesWithin_ret.
  - apply writesWithin_bind; [apply Hf|]. intros a' _. apply IH.
Qed.

Lemma writesWithin_upgradeCatalogData (allowed : list string)
    (filePath catalogName : string) (current upgraded : Index string) :
  writesWithin allowed
    (OnFile.upgradeCatalogData filePath catalogName current upgraded).
Proof.
  unfold OnFile.upgradeCatalogData, OnFile.upgradeYamlCatalogData,
    OnFile.upgradeJsonCatalogData.
  destruct (_ || _).
  - apply writesWithin_bind; [apply writesWithin_readFile|].
    intros. apply writesWithin_lift.
  - destruct (String.eqb _ ".json"); [|apply writesWithin_lift].
    apply writesWithin_bind; [apply writesWithin_readFile|].
    intros. apply writesWithin_lift.
Qed.

Lemma writesWithin_findCatalogFile (allowed : list string) (options : Options) :
  writesWithin allowed (findCatalogFile options).
Proof.
  apply writesWithin_silent. intros w r w' H.
  destruct (findCatalogFile_reads _ _ _ _ H) as (Hf & Hevs & _). now split.
Qed.

(** The path that the search yields is one of the two file names. *)
Lemma findCatalogFile_names (options : Options) (w w' : World) (path : string) :
  findCatalogFile options w = (Ok (Some path), w') -> In path catalogFileNames.
Proof.
  intros H. destruct (findCatalogFile_reads _ _ _ _ H) as (_ & _ & Hn).
  now apply Hn.
Qed.

Section FootprintOfProcessCatalogs.

Variable upgradePackageDefinitions : Index string -> Options -> Index string.

Lemma writesWithin_applyCatalog (allowed : list string)
    (catalogDependencies : Index (Index string)) (catalogFilePath : string)
    (fileContent : Text) (entry : string * Index string) :
  In catalogFilePath allowed ->
  writesWithin allowed
    (applyCatalog catalogDependencies catalogFilePath fileContent entry).
Proof.
  intros Hin. destruct entry as [catalogName upgradedDeps]. unfold applyCatalog.
  destruct (negb (Obj.isEmpty upgradedDeps)); [|apply writesWithin_ret].
  apply writesWithin_bind; [apply writesWithin_upgradeCatalogData|].
  intros t _. apply writesWithin_bind; [now apply writesWithin_writeFile|].
  intros. apply writesWithin_ret.
Qed.

(** X16.  processCatalogs writes to no file but the catalog file, which is a
    file named [pnpm-workspace.yaml] or [package.json]: the manifests of
    the packages that refer to a catalog, and every other file, are after
    the run as they were before it. *)
Theorem processCatalogs_writes_the_catalog_file_only
    (options : Options) (packageInfos : list PackageInfo)
    (catalogDependencies : option (Index (Index string))) :
  writesWithin catalogFileNames
    (processCatalogs upgradePackageDefinitions options packageInfos
       catalogDependencies).
Proof.
  unfold processCatalogs.
  destruct catalogDependencies as [cds|]; [|apply writesWithin_ret].
  destruct (Obj.isEmpty cds); [apply writesWithin_ret|].
  apply writesWithin_bind; [apply writesWithin_lift|].
  intros catalogReferences _.
  destruct (Obj.isEmpty catalogReferences); [apply writesWithin_ret|].
  destruct (negb _); [|apply writesWithin_ret].
  apply writesWithin_bind; [apply writesWithin_findCatalogFile|].
  intros [path|] (w & w' & Hfound); [|apply writesWithin_ret].
  destruct (opt_upgrade options); [|apply writesWithin_ret].
  pose proof (findCatalogFile_names _ _ _ _ Hfound) as Hin.
  apply writesWithin_tryCatch.
  - apply writesWithin_bind; [apply writesWithin_readFile|].
    intros fileContent _. apply writesWithin_bind.
    + apply writesWithin_forEachIO. intros a x.
      now apply writesWithin_applyCatalog.
    + intros. apply writesWithin_ret.
  - intros e. apply writesWithin_consoleError.
Qed.

(** X17.  Without the upgrade option, processCatalogs writes nothing at all. *)
Theorem processCatalogs_only_reports_without_upgrade
    (options : Options) (packageInfos : list PackageInfo)
    (catalogDependencies : option (Index (Index string))) :
  opt_upgrade options = false ->
  writesWithin []
    (processCatalogs upgradePackageDefinitions options packageInfos
       catalogDependencies).
Proof.
  intros Hup. unfold processCatalogs.
  destruct catalogDependencies as [cds|]; [|apply writesWithin_ret].
  destruct (Obj.isEmpty cds); [apply writesWithin_ret|].
  apply writesWithin_bind; [apply writesWithin_lift|].
  intros catalogReferences _.
  destruct (Obj.isEmpty catalogReferences); [apply writesWithin_ret|].
  destruct (negb _); [|apply writesWithin_ret].
  apply writesWithin_bind; [apply writesWithin_findCatalogFile|].
  intros [path|] _; [|apply writesWithin_ret].
  rewrite Hup. apply writesWithin_ret.
Qed.

End FootprintOfProcessCatalogs.

Lemma processCatalogs_writes_the_catalog_file_only_witness :
  exists evs,
    trace (snd twoCatalogsRun) = trace twoCatalogsWorld ++ evs
    /\ (forall p c, In (p, c) (writesOf evs) -> In p catalogFileNames)
    /\ (forall p, ~ In p catalogFileNames ->
                  Obj.get p (files (snd twoCatalogsRun))
                  = Obj.get p (files twoCatalogsWorld)).
Proof.
  apply (processCatalogs_writes_the_catalog_file_only
           (desiredVersions [("axios", "1.2.0"); ("react", "18.0.0")])
           (runOptions (Some "pnpm")) twoCatalogsInfos (Some twoCatalogsDefinitions)
           twoCatalogsWorld (fst twoCatalogsRun) (snd twoCatalogsRun)).
  reflexivity.
Defined.

Lemma processCatalogs_only_reports_without_upgrade_witness :
  exists evs,
    trace (snd twoCatalogsReport) = trace twoCatalogsWorld ++ evs
    /\ (forall p c, In (p, c) (writesOf evs) -> In p [])
    /\ (forall p, ~ In p [] ->
                  Obj.get p (files (snd twoCatalogsReport))
                  = Obj.get p (files twoCatalogsWorld)).
Proof.
  apply (processCatalogs_only_reports_without_upgrade
           (desiredVersions [("axios", "1.2.0"); ("react", "18.0.0")])
           (reportOptions (Some "pnpm")) twoCatalogsInfos
           (Some twoCatalogsDefinitions) eq_refl
           twoCatalogsWorld (fst twoCatalogsReport) (snd twoCatalogsReport)).
  reflexivity.
Defined.

(** ** References *)

(** A string that starts with a pattern is the pattern followed by what
    is left when its first occurrence is removed. *)
Lemma startsWith_substring (p s : string) :
  startsWith s p = true ->
  (p ++ String.substring (String.length p) (String.length s - String.length p) s)%string
  = s.
Proof.
  revert s. induction p as [|a p IH]; intros s H.
  - simpl. rewrite Nat.sub_0_r. clear H.
    induction s as [|b s IHs]; [reflexivity|]. simpl. now rewrite IHs.
  - destruct s as [|b s]; [discriminate|]. simpl in H.
    apply andb_true_iff in H as [H1 H2].
    apply Ascii.eqb_eq in H1. subst b. simpl. now rewrite IH.
Qed.

Lemma removeFirst_prefix (p s : string) :
  startsWith s p = true -> (p ++ removeFirst p s)%string = s.
Proof.
  intros H.
  assert (E : removeFirst p s
              = String.substring (String.length p)
                  (String.length s - String.length p) s).
  { destruct s; cbn [removeFirst]; now rewrite H. }
  rewrite E. now apply startsWith_substring.
Qed.

Lemma In_setAdd (x y : string) (s : list string) :
  In y (setAdd x s) <-> y = x \/ In y s.
Proof.
  unfold setAdd. destruct (existsb (String.eqb x) s) eqn:E.
  - split; [now right|]. intros [->|H]; [|assumption].
    apply existsb_exists in E as (z & Hz & E). apply String.eqb_eq in E. now subst.
  - rewrite in_app_iff. simpl. split.
    + intros [H|[<-|[]]]; [now right | now left].
    + intros [->|H]; [right; now left | now left].
Qed.

(** The sets of a map of references: which names are recorded under which
    catalog. *)
Lemma refs_addReference (refs refs' : Index (list string))
    (entry : string * string) (c x : string) :
  addReference refs entry = Ok refs' ->
  (exists s, Obj.get c refs' = Some s /\ In x s)
  <-> (exists s, Obj.get c refs = Some s /\ In x s)
      \/ (c = removeFirst "catalog:" (snd entry) /\ x = fst entry).
Proof.
  destruct entry as [pkgName ref]. unfold addReference. cbn [fst snd].
  set (k := removeFirst "catalog:" ref). intros H.
  assert (Hset : exists s0,
            refs' = Obj.set k (setAdd pkgName s0) refs
            /\ (forall s, Obj.get k refs = Some s -> s = s0)
            /\ (Obj.get k refs = None -> s0 = [])).
  { destruct (Obj.get k refs) as [s0|].
    - injection H as <-. exists s0. split; [reflexivity|].
      split; [now intros s [= <-] | discriminate].
    - destruct (inherited k); [discriminate|]. injection H as <-.
      exists []. split; [reflexivity|]. split; [discriminate | reflexivity]. }
  destruct Hset as (s0 & -> & Hsome & Hnone).
  destruct (String.eqb_spec c k) as [->|N].
  - rewrite get_set_eq. split.
    + intros (s & [= <-] & Hin). apply In_setAdd in Hin as [->|Hin]; [now right|].
      left. destruct (Obj.get k refs) as [s1|] eqn:E.
      * exists s1. split; [reflexivity|]. now rewrite (Hsome s1 eq_refl).
      * rewrite (Hnone eq_refl) in Hin. contradiction.
    + intros [(s & Hs & Hin)|[_ ->]]; eexists; (split; [reflexivity|]);
        apply In_setAdd; [|now left].
      right. now rewrite <- (Hsome s Hs).
  - rewrite get_set_neq by assumption. split.
    + intros H1. now left.
    + intros [H1|[H1 _]]; [assumption | contradiction].
Qed.

Lemma refs_fold_addReference (deps : Index string) :
  forall (refs refs' : Index (list string)) (c x : string),
    foldOutcome addReference deps refs = Ok refs' ->
    (exists s, Obj.get c refs' = Some s /\ In x s)
    <-> (exists s, Obj.get c refs = Some s /\ In x s)
        \/ exists ref, In (x, ref) deps /\ c = removeFirst "catalog:" ref.
Proof.
  induction deps as [|[pkgName ref] r IH]; cbn [foldOutcome];
    intros refs refs' c x H.
  - injection H as <-. split; [now left|]. intros [H|(ref & [] & _)]. assumption.
  - destruct (addReference refs (pkgName, ref)) as [refs1|] eqn:E1;
      cbn [obind] in H; [|discriminate].
    rewrite (IH _ _ _ _ H), (refs_addReference _ _ _ _ _ E1). cbn [fst snd]. split.
    + intros [[H1|[-> ->]]|(ref' & Hin & ->)].
      * now left.
      * right. exists ref. split; [now left | reflexivity].
      * right. exists ref'. split; [now right | reflexivity].
    + intros [H1|(ref' & [[= <- <-]|Hin] & ->)].
      * left. now left.
      * left. now right.
      * right. now exists ref'.
Qed.

(** X19.  The catalog references that processCatalogs collects are those of the
    packages: a name is recorded under a catalog exactly when
    getCatalogDependencies returns, for one of the packages, a reference
    of that name whose text after [catalog:] is the catalog. *)
Theorem collected_references_are_those_of_the_packages
    (options : Options) (packageInfos : list PackageInfo)
    (catalogReferences : Index (list string)) (catalogName pkgName : string) :
  collectReferences options packageInfos = Ok catalogReferences ->
  (exists names,
      Obj.get catalogName catalogReferences = Some names /\ In pkgName names)
  <-> exists packageInfo catalogDeps catalogRef,
        In packageInfo packageInfos
        /\ getCatalogDependencies (pi_pkg packageInfo) options = Ok catalogDeps
        /\ In (pkgName, catalogRef) catalogDeps
        /\ catalogName = removeFirst "catalog:" catalogRef.
Proof.
  unfold collectReferences.
  assert (Hgen : forall infos refs0 refs,
             foldOutcome
               (fun catalogReferences0 packageInfo =>
                  let? catalogDeps :=
                    getCatalogDependencies (pi_pkg packageInfo) options in
                  foldOutcome addReference catalogDeps catalogReferences0)
               infos refs0 = Ok refs ->
             (exists names, Obj.get catalogName refs = Some names /\ In pkgName names)
             <-> (exists names,
                     Obj.get catalogName refs0 = Some names /\ In pkgName names)
                 \/ exists packageInfo catalogDeps catalogRef,
                      In packageInfo infos
                      /\ getCatalogDependencies (pi_pkg packageInfo) options
                         = Ok catalogDeps
                      /\ In (pkgName, catalogRef) catalogDeps
                      /\ catalogName = removeFirst "catalog:" catalogRef).
  { induction infos as [|info r IH]; cbn [foldOutcome]; intros refs0 refs H.
    - injection H as <-. split; [now left|].
      intros [H|(i & _ & _ & [] & _)]. assumption.
    - destruct (getCatalogDependencies (pi_pkg info) options) as [deps|] eqn:Ed;
        cbn [obind] in H; [|discriminate].
      destruct (foldOutcome addReference deps refs0) as [refs1|] eqn:E1;
        cbn [obind] in H; [|discriminate].
      rewrite (IH _ _ H), (refs_fold_addReference _ _ _ _ _ E1). split.
      + intros [[H1|(ref & Hin & ->)]|(i & d & ref & Hi & Hd & Hin & ->)].
        * now left.
        * right. exists info, deps, ref. repeat split; try assumption. now left.
        * right. exists i, d, ref. repeat split; try assumption. now right.
      + intros [H1|(i & d & ref & [<-|Hi] & Hd & Hin & ->)].
        * left. now left.
        * rewrite Ed in Hd. injection Hd as <-. left. right. now exists ref.
        * right. exists i, d, ref. now repeat split. }
  intros H. rewrite (Hgen _ _ _ H). split.
  - intros [(names & [=] & _)|H1]. assumption.
  - intros H1. now right.
Qed.

Lemma collected_references_are_those_of_the_packages_witness :
  (exists names,
      Obj.get "mobile" [("mobile", ["axios"]); ("web", ["react"])] = Some names
      /\ In "axios" names)
  <-> exists packageInfo catalogDeps catalogRef,
        In packageInfo twoCatalogsInfos
        /\ getCatalogDependencies (pi_pkg packageInfo) (runOptions (Some "pnpm"))
           = Ok catalogDeps
        /\ In ("axios", catalogRef) catalogDeps
        /\ "mobile" = removeFirst "catalog:" catalogRef.
Proof.
  apply (collected_references_are_those_of_the_packages (runOptions (Some "pnpm"))
           twoCatalogsInfos [("mobile", ["axios"]); ("web", ["react"])]
           "mobile" "axios").
  reflexivity.
Defined.

(** X20.  The key under which processCatalogs looks up the definitions of a
    catalog, [catalog:] followed by the catalog name that it extracted from
    a reference, is that reference. *)
Theorem lookup_key_is_the_reference
    (pkgData : PackageFile) (options : Options) (catalogDeps : Index string)
    (pkgName catalogRef : string) :
  getCatalogDependencies pkgData options = Ok catalogDeps ->
  In (pkgName, catalogRef) catalogDeps ->
  ("catalog:" ++ removeFirst "catalog:" catalogRef)%string = catalogRef.
Proof.
  intros H Hin. apply removeFirst_prefix.
  destruct (getCatalogDependencies_inv _ _ _ H)
    as (allDeps & inner & pred & Hm & Hi & _ & Hr).
  destruct (filterObject_In _ _ _ _ _ Hr Hin) as [H1 _].
  destruct (filterObject_In _ _ _ _ _ Hi H1) as [H2 _].
  destruct (catalogSections_origin _ _ _ _ _ _ Hm H2) as [[]|(s & _ & _ & Hc)].
  assumption.
Qed.

Lemma lookup_key_is_the_reference_witness :
  ("catalog:" ++ removeFirst "catalog:" "catalog:dev")%string = "catalog:dev".
Proof.
  apply (lookup_key_is_the_reference pkgTwoRefs
           (plainOptions ["dependencies"; "devDependencies"])
           [("lodash", "catalog:dev")] "lodash" "catalog:dev").
  - reflexivity.
  - now left.
Defined.

(** ** The check for upgrades *)

Lemma In_fold_assign {A} (l : list (Index A)) :
  forall (acc : Index A) (kv : string * A),
    In kv (fold_left Obj.assign l acc) ->
    In kv acc \/ exists o, In o l /\ In kv o.
Proof.
  induction l as [|o r IH]; cbn [fold_left]; intros acc kv H; [now left|].
  destruct (IH _ _ H) as [H1|(o' & Ho' & H1)].
  - destruct (In_assign _ _ _ H1) as [H2|H2]; [now left|].
    right. exists o. split; [now left | assumption].
  - right. exists o'. split; [now right | assumption].
Qed.

Section CheckForUpgrades.

Variable upgradePackageDefinitions : Index string -> Options -> Index string.

(** X21.  Every catalog for which processCatalogs records upgrades has at least
    one upgrade, is referred to by a package, and has its definitions
    under the key [catalog:] followed by its name; so the test for an empty
    map in the loop that writes never fails. *)
Theorem upgraded_catalogs_are_referenced_and_not_empty
    (options : Options) (catalogDependencies : Index (Index string))
    (catalogReferences : Index (list string))
    (catalogName : string) (upgradedDeps : Index string) :
  In (catalogName, upgradedDeps)
     (checkUpgrades upgradePackageDefinitions options catalogDependencies
        catalogReferences) ->
  hasUpgrades (catalogName, upgradedDeps) = true
  /\ Obj.has catalogName catalogReferences = true
  /\ Obj.has ("catalog:" ++ catalogName) catalogDependencies = true.
Proof.
  unfold checkUpgrades. intros H.
  destruct (In_fold_assign _ _ _ H) as [[]|(o & Ho & Hin)].
  apply in_map_iff in Ho as ([c pkgNames] & <- & Href).
  unfold upgradesOfCatalog in Hin.
  destruct (Obj.get ("catalog:" ++ c) catalogDependencies) as [catalogDeps|] eqn:Ed;
    [|contradiction].
  match type of Hin with
  | In _ (if Obj.isEmpty ?u then _ else _) => destruct (Obj.isEmpty u) eqn:Eu
  end; [contradiction|].
  destruct Hin as [[= <- <-]|[]].
  unfold hasUpgrades. cbn [snd]. rewrite Eu. split; [reflexivity|]. split.
  - apply (In_has _ _ _ Href).
  - unfold Obj.has. now rewrite Ed.
Qed.

(** X22.  Only the referenced entries of a catalog reach the resolver: two
    definitions of the catalog that agree on the names that the packages
    refer to give the same upgrades, whatever else they hold. *)
Theorem unreferenced_entries_do_not_reach_the_resolver
    (options : Options) (catalogDependencies catalogDependencies' : Index (Index string))
    (catalogName : string) (pkgNames : list string)
    (catalogDeps catalogDeps' : Index string) :
  Obj.get ("catalog:" ++ catalogName) catalogDependencies = Some catalogDeps ->
  Obj.get ("catalog:" ++ catalogName) catalogDependencies' = Some catalogDeps' ->
  (forall pkgName, In pkgName pkgNames ->
                   Obj.get pkgName catalogDeps = Obj.get pkgName catalogDeps') ->
  upgradesOfCatalog upgradePackageDefinitions options catalogDependencies
    (catalogName, pkgNames)
  = upgradesOfCatalog upgradePackageDefinitions options catalogDependencies'
      (catalogName, pkgNames).
Proof.
  intros H1 H2 Hagree. unfold upgradesOfCatalog. rewrite H1, H2.
  assert (E : forall acc,
             fold_left
               (fun acc0 pkgName =>
                  match Obj.get pkgName catalogDeps with
                  | Some v => if truthyStr v then Obj.set pkgName v acc0 else acc0
                  | None => acc0
                  end) pkgNames acc
             = fold_left
                 (fun acc0 pkgName =>
                    match Obj.get pkgName catalogDeps' with
                    | Some v => if truthyStr v then Obj.set pkgName v acc0 else acc0
                    | None => acc0
                    end) pkgNames acc).
  { induction pkgNames as [|x r IH]; cbn [fold_left]; intros acc; [reflexivity|].
    rewrite (Hagree x) by now left. apply IH.
    intros y Hy. apply Hagree. now right. }
  now rewrite E.
Qed.

(** X18.  In a workspace where no package refers to a catalog, processCatalogs
    does nothing: it returns without a read, a write or a message, whatever
    the catalogs define. *)
Theorem processCatalogs_without_references_does_nothing
    (options : Options) (packageInfos : list PackageInfo)
    (catalogDependencies : option (Index (Index string))) (w : World) :
  (forall packageInfo, In packageInfo packageInfos ->
     getCatalogDependencies (pi_pkg packageInfo) options = Ok []) ->
  processCatalogs upgradePackageDefinitions options packageInfos
    catalogDependencies w
  = (Ok tt, w).
Proof.
  intros Hnone.
  assert (E : collectReferences options packageInfos = Ok []).
  { unfold collectReferences. induction packageInfos as [|info r IH];
      cbn [foldOutcome]; [reflexivity|].
    rewrite (Hnone info) by now left. cbn [obind fold_left].
    apply IH. intros i Hi. apply Hnone. now right. }
  unfold processCatalogs. destruct catalogDependencies as [cds|]; [|reflexivity].
  destruct (Obj.isEmpty cds); [reflexivity|].
  unfold ioBind, ioLift. now rewrite E.
Qed.

(** The content that processCatalogs reads before its loop is not used:
    each round reads the file again through upgradeCatalogData, so the
    loop leaves the same world whatever content it starts from. *)
Theorem content_read_before_the_loop_is_not_used
    (catalogDependencies : Index (Index string)) (catalogFilePath : string)
    (upgradedCatalogDeps : Index (Index string))
    (fileContent fileContent' : Text) (w : World) :
  snd (forEachIO (applyCatalog catalogDependencies catalogFilePath)
         upgradedCatalogDeps fileContent w)
  = snd (forEachIO (applyCatalog catalogDependencies catalogFilePath)
           upgradedCatalogDeps fileContent' w).
Proof.
  revert fileContent fileContent' w.
  induction upgradedCatalogDeps as [|[c ups] r IH]; cbn [forEachIO];
    intros fc fc' w; [reflexivity|].
  unfold ioBind at 1 2. unfold applyCatalog.
  destruct (negb (Obj.isEmpty ups)).
  - now destruct (ioBind _ _ w) as [[t|e] w1].
  - unfold ioRet. apply IH.
Qed.

End CheckForUpgrades.

Lemma upgraded_catalogs_are_referenced_and_not_empty_witness :
  hasUpgrades ("mobile", [("axios", "1.2.0")]) = true
  /\ Obj.has "mobile" [("mobile", ["axios"]); ("web", ["react"])] = true
  /\ Obj.has ("catalog:" ++ "mobile") twoCatalogsDefinitions = true.
Proof.
  apply (upgraded_catalogs_are_referenced_and_not_empty
           (desiredVersions [("axios", "1.2.0"); ("react", "18.0.0")])
           (runOptions (Some "pnpm")) twoCatalogsDefinitions
           [("mobile", ["axios"]); ("web", ["react"])]
           "mobile" [("axios", "1.2.0")]).
  now left.
Defined.

Lemma unreferenced_entries_do_not_reach_the_resolver_witness :
  upgradesOfCatalog (desiredVersions [("axios", "1.2.0"); ("react", "18.0.0")])
    (runOptions None) [("catalog:mobile", [("axios", "1.0.0")])]
    ("mobile", ["axios"])
  = upgradesOfCatalog (desiredVersions [("axios", "1.2.0"); ("react", "18.0.0")])
      (runOptions None)
      [("catalog:mobile", [("axios", "1.0.0"); ("react", "17.0.0")])]
      ("mobile", ["axios"]).
Proof.
  apply (unreferenced_entries_do_not_reach_the_resolver
           (desiredVersions [("axios", "1.2.0"); ("react", "18.0.0")])
           (runOptions None) [("catalog:mobile", [("axios", "1.0.0")])]
           [("catalog:mobile", [("axios", "1.0.0"); ("react", "17.0.0")])]
           "mobile" ["axios"] [("axios", "1.0.0")]
           [("axios", "1.0.0"); ("react", "17.0.0")]); try reflexivity.
  intros pkgName [<-|[]]. reflexivity.
Defined.

Lemma processCatalogs_without_references_does_nothing_witness :
  processCatalogs (desiredVersions [("left-pad", "2.0.0")])
    (runOptions (Some "pnpm")) [consumerInfo "left-pad" "1.0.0"]
    (Some twoCatalogsDefinitions) twoCatalogsWorld
  = (Ok tt, twoCatalogsWorld).
Proof.
  apply (processCatalogs_without_references_does_nothing
           (desiredVersions [("left-pad", "2.0.0")]) (runOptions (Some "pnpm"))
           [consumerInfo "left-pad" "1.0.0"] (Some twoCatalogsDefinitions)
           twoCatalogsWorld).
  intros packageInfo [<-|[]]. reflexivity.
Defined.

(* ================================================================== *)
(** * Properties of the catalog loader *)
(* ================================================================== *)

Lemma writesWithin_readPnpmWorkspaces (allowed : list string) (pkgPath : string) :
  writesWithin allowed (readPnpmWorkspaces pkgPath).
Proof.
  unfold readPnpmWorkspaces. apply writesWithin_bind.
  - apply writesWithin_tryCatch.
    + apply writesWithin_bind; [apply writesWithin_readFile|].
      intros. apply writesWithin_ret.
    + intros. apply writesWithin_ret.
  - intros [text|] _; apply writesWithin_ret.
Qed.

(** readCatalogDependencies only reads: it writes to no file. *)
Theorem readCatalogDependencies_only_reads
    (options : Options) (pkgPath : string) :
  writesWithin [] (readCatalogDependencies options pkgPath).
Proof.
  unfold readCatalogDependencies. apply writesWithin_bind.
  - destruct (opt_packageManager options) as [pm|]; [|apply writesWithin_ret].
    rewrite pnpm_or_not.
    destruct (String.eqb pm "pnpm"); [|apply writesWithin_ret].
    apply writesWithin_bind; [apply writesWithin_readPnpmWorkspaces|].
    intros [ws|] _; [|apply writesWithin_ret].
    destruct (_ && _); [|apply writesWithin_ret].
    destruct (prop "catalogs" ws); apply writesWithin_ret.
  - intros cd0 _. apply writesWithin_bind.
    + apply writesWithin_tryCatch.
      * apply writesWithin_bind; [apply writesWithin_readFile|].
        intros packageJson _.
        apply writesWithin_bind; [apply writesWithin_lift|].
        intros. apply writesWithin_ret.
      * intros e. destruct (String.eqb e "ENOENT");
          [apply writesWithin_ret | apply writesWithin_lift].
    + intros [packageData|] _; [|apply writesWithin_ret].
      destruct packageData;
        first [apply writesWithin_lift | apply writesWithin_ret].
Qed.

(** The part of readCatalogDependencies that looks at the pnpm workspace
    file returns, and leaves the files as they were. *)
Lemma pnpm_part_returns (options : Options) (pkgPath : string) (w : World) :
  exists cd0 w1,
    (match opt_packageManager options with
     | Some "pnpm" =>
         ioBind (readPnpmWorkspaces pkgPath)
           (fun pnpmWorkspaces =>
              match pnpmWorkspaces with
              | Some ws =>
                  if truthy ws && negb (isArray ws) && truthyProp "catalogs" ws then
                    match prop "catalogs" ws with
                    | Some cs =>
                        ioRet (Obj.assign []
                                 (map (fun e => (fst e, asIndex (snd e)))
                                    (entriesOf cs)))
                    | None => ioRet []
                    end
                  else ioRet []
              | None => ioRet []
              end)
     | _ => ioRet []
     end) w = (Ok cd0, w1)
    /\ files w1 = files w
    /\ (opt_packageManager options <> Some "pnpm" -> cd0 = [] /\ w1 = w).
Proof.
  destruct (opt_packageManager options) as [pm|].
  2:{ exists [], w. repeat split. }
  rewrite pnpm_or_not. destruct (String.eqb_spec pm "pnpm") as [->|N].
  2:{ exists [], w. repeat split. }
  unfold ioBind, readPnpmWorkspaces, tryCatch, ioBind, readFile, ioRet, parse.
  destruct (Obj.get _ (files w)) as [ws|].
  - destruct (truthy ws && negb (isArray ws) && truthyProp "catalogs" ws).
    + destruct (prop "catalogs" ws); eexists; eexists;
        (split; [reflexivity|]); (split; [reflexivity|]); intros H; now destruct H.
    + eexists; eexists; (split; [reflexivity|]); (split; [reflexivity|]);
        intros H; now destruct H.
  - eexists; eexists; (split; [reflexivity|]); (split; [reflexivity|]);
      intros H; now destruct H.
Qed.

(** X23.  When the package file is missing, readCatalogDependencies returns
    [null], also when the pnpm workspace file beside it defines catalogs. *)
Theorem readCatalogDependencies_without_package_file
    (options : Options) (pkgPath : string) (w : World) :
  Obj.get pkgPath (files w) = None ->
  fst (readCatalogDependencies options pkgPath w) = Ok None.
Proof.
  intros Hmiss. unfold readCatalogDependencies. unfold ioBind at 1.
  destruct (pnpm_part_returns options pkgPath w) as (cd0 & w1 & -> & Hf & _).
  unfold ioBind, tryCatch, ioBind, readFile. rewrite Hf, Hmiss.
  reflexivity.
Qed.

Lemma readCatalogDependencies_without_package_file_witness :
  fst (readCatalogDependencies (runOptions (Some "pnpm")) "package.json"
         orphanPnpmWorld)
  = Ok None.
Proof.
  apply (readCatalogDependencies_without_package_file (runOptions (Some "pnpm"))
           "package.json" orphanPnpmWorld).
  reflexivity.
Defined.

Lemma get_stringEntries (k : string) (ms : list (string * value)) :
  Obj.wf ms = true ->
  Obj.get k (stringEntries ms)
  = match Obj.get k ms with Some (VStr s) => Some s | _ => None end.
Proof.
  revert k. induction ms as [|[k' v'] r IH]; simpl; intros k W; [reflexivity|].
  apply andb_true_iff in W as [W1 W2].
  assert (Hfresh : Obj.get k' (stringEntries r) = None).
  { rewrite IH by assumption. unfold Obj.has in W1.
    now destruct (Obj.get k' r). }
  destruct (String.eqb_spec k k') as [->|N].
  - destruct v'; simpl; rewrite ?String.eqb_refl; try assumption. reflexivity.
  - apply String.eqb_neq in N.
    destruct v'; simpl; rewrite ?N; now apply IH.
Qed.

Lemma wf_stringEntries (ms : list (string * value)) :
  Obj.wf ms = true -> Obj.wf (stringEntries ms) = true.
Proof.
  induction ms as [|[k' v'] r IH]; simpl; [reflexivity|]. intros W.
  apply andb_true_iff in W as [W1 W2].
  destruct v'; simpl; try now apply IH.
  rewrite IH, andb_true_r by assumption.
  unfold Obj.has in *. rewrite get_stringEntries by assumption.
  now destruct (Obj.get k' r).
Qed.

(** X24.  The default catalog of a package.json that defines it at the root and
    under [workspaces]: the loader merges the two, and for a dependency
    that both define it reports the version under [workspaces]. *)
Theorem workspaces_catalog_overrides_root_catalog
    (options : Options) (pkgPath : string) (w : World) (packageJson : Text)
    (members workspaces rootCatalog workspacesCatalog : list (string * value)) :
  opt_packageManager options <> Some "pnpm" ->
  Obj.get pkgPath (files w) = Some packageJson ->
  JSON.parse packageJson = Ok (VObj members) ->
  Obj.get "catalog" members = Some (VObj rootCatalog) ->
  Obj.get "catalogs" members = None ->
  Obj.get "workspaces" members = Some (VObj workspaces) ->
  Obj.get "catalog" workspaces = Some (VObj workspacesCatalog) ->
  Obj.get "catalogs" workspaces = None ->
  Obj.wf rootCatalog = true ->
  Obj.wf workspacesCatalog = true ->
  exists defaults,
    fst (readCatalogDependencies options pkgPath w) = Ok (Some [("default", defaults)])
    /\ forall dep,
         Obj.get dep defaults
         = match Obj.get dep (stringEntries workspacesCatalog) with
           | Some version => Some version
           | None => Obj.get dep (stringEntries rootCatalog)
           end.
Proof.
  intros Hpm Hfile Hparse Hc Hcs Hws Hwc Hwcs Wrc Wwc.
  unfold readCatalogDependencies. unfold ioBind at 1.
  destruct (pnpm_part_returns options pkgPath w) as (cd0 & w1 & -> & Hf & Hnot).
  destruct (Hnot Hpm) as [-> ->].
  unfold ioBind, tryCatch, ioBind, readFile, ioRet, ioLift.
  rewrite Hfile, Hparse.
  assert (E1 : addCatalogsOf (VObj members) []
               = [("default", Obj.assign [] (stringEntries rootCatalog))]).
  { unfold addCatalogsOf, prop. rewrite Hc, Hcs. reflexivity. }
  assert (E2 : addCatalogsOf (VObj workspaces)
                 [("default", Obj.assign [] (stringEntries rootCatalog))]
               = [("default",
                   Obj.assign (Obj.assign [] (stringEntries rootCatalog))
                     (stringEntries workspacesCatalog))]).
  { unfold addCatalogsOf, prop. rewrite Hwc, Hwcs. reflexivity. }
  cbn [prop]. rewrite Hws. cbn [truthy isArray negb andb]. rewrite E1, E2.
  cbn [Obj.isEmpty fst].
  eexists. split; [reflexivity|].
  intros dep. rewrite get_assign by now apply wf_stringEntries.
  rewrite get_assign by now apply wf_stringEntries.
  now destruct (Obj.get dep (stringEntries rootCatalog)).
Qed.

Lemma workspaces_catalog_overrides_root_catalog_witness :
  exists defaults,
    fst (readCatalogDependencies (runOptions None) "package.json" bunDualWorld)
    = Ok (Some [("default", defaults)])
    /\ forall dep,
         Obj.get dep defaults
         = match Obj.get dep (stringEntries [("react", VStr "18.0.0")]) with
           | Some version => Some version
           | None =>
               Obj.get dep
                 (stringEntries [("react", VStr "17.0.0"); ("axios", VStr "1.0.0")])
           end.
Proof.
  apply (workspaces_catalog_overrides_root_catalog (runOptions None) "package.json"
           bunDualWorld
           (bunDual [("react", VStr "17.0.0"); ("axios", VStr "1.0.0")]
                    [("react", VStr "18.0.0")])
           [("name", VStr "root");
            ("catalog", VObj [("react", VStr "17.0.0"); ("axios", VStr "1.0.0")]);
            ("workspaces",
             VObj [("packages", packagesGlob);
                   ("catalog", VObj [("react", VStr "18.0.0")])])]
           [("packages", packagesGlob); ("catalog", VObj [("react", VStr "18.0.0")])]
           [("react", VStr "17.0.0"); ("axios", VStr "1.0.0")]
           [("react", VStr "18.0.0")]); try reflexivity.
  discriminate.
Defined.

(** ** Flattening the catalogs *)

Lemma fold_assign_keeps {A} (l : list (Index A)) (k : string) :
  forall acc,
    (forall o, In o l -> Obj.has k o = false) ->
    Obj.get k (fold_left Obj.assign l acc) = Obj.get k acc.
Proof.
  induction l as [|o r IH]; cbn [fold_left]; intros acc H; [reflexivity|].
  rewrite IH by (intros o' Ho'; apply H; now right).
  apply get_assign_absent. apply H. now left.
Qed.

(** In the merge of a list of maps, the last map that binds a key decides
    its value. *)
Lemma fold_assign_last {A} (before after : list (Index A)) (o : Index A)
    (k : string) (v : A) (acc : Index A) :
  Obj.wf o = true ->
  Obj.get k o = Some v ->
  (forall o', In o' after -> Obj.has k o' = false) ->
  Obj.get k (fold_left Obj.assign (before ++ o :: after) acc) = Some v.
Proof.
  intros W Hg Hafter. rewrite fold_left_app. cbn [fold_left].
  rewrite fold_assign_keeps by assumption.
  rewrite get_assign by assumption. now rewrite Hg.
Qed.

Lemma values_after {A} (after : Index A) (P : A -> Prop) :
  (forall e, In e after -> P (snd e)) ->
  forall o, In o (Obj.values after) -> P o.
Proof.
  intros H o Ho. unfold Obj.values in Ho.
  apply in_map_iff in Ho as (e & <- & He). now apply H.
Qed.

(** X25.  Flattening of the catalogs by the earlier processCatalogs: when several
    catalogs define a dependency, the flattened map holds the version of
    the last of them, in the order of the catalogs. *)
Theorem last_catalog_wins_in_the_flattened_map
    (before after : Index (Index string)) (catalogName : string)
    (catalogDeps : Index string) (dep version : string) :
  Obj.wf catalogDeps = true ->
  Obj.get dep catalogDeps = Some version ->
  (forall e, In e after -> Obj.has dep (snd e) = false) ->
  Obj.get dep (Flattened.flatten (before ++ (catalogName, catalogDeps) :: after))
  = Some version.
Proof.
  intros W Hg Hafter. unfold Flattened.flatten, Obj.values.
  rewrite map_app. cbn [map snd].
  apply fold_assign_last; try assumption.
  apply (values_after after (fun o => Obj.has dep o = false) Hafter).
Qed.

Lemma last_catalog_wins_in_the_flattened_map_witness :
  Obj.get "react"
    (Flattened.flatten
       ([("web", [("react", "17.0.0")])]
        ++ ("mobile", [("react", "18.0.0"); ("axios", "1.0.0")])
           :: [("tools", [("left-pad", "1.0.0")])]))
  = Some "18.0.0".
Proof.
  apply (last_catalog_wins_in_the_flattened_map
           [("web", [("react", "17.0.0")])] [("tools", [("left-pad", "1.0.0")])]
           "mobile" [("react", "18.0.0"); ("axios", "1.0.0")] "react" "18.0.0");
    try reflexivity.
  intros e [<-|[]]. reflexivity.
Defined.

Lemma getIn_specsDocument (o : Index string) (dep : string) :
  getIn [dep] (specsDocument o) = option_map VStr (Obj.get dep o).
Proof.
  unfold specsDocument. cbn [getIn].
  induction o as [|[k v] r IH]; simpl; [reflexivity|].
  destruct (String.eqb dep k); [reflexivity | exact IH].
Qed.

(** X26.  The synthetic package that getCatalogPackageInfo builds from the
    catalogs: for a dependency that several catalogs define, its
    dependencies section holds the version of the last catalog, and its
    text says the same as its data. *)
Theorem synthetic_catalog_package_holds_the_last_definition
    (options : Options) (pkgPath : string) (w w' : World)
    (before after : Index (Index string)) (catalogName : string)
    (catalogDeps : Index string) (dep version : string) :
  truthyStr pkgPath = true ->
  readCatalogDependencies options pkgPath w
  = (Ok (Some (before ++ (catalogName, catalogDeps) :: after)), w') ->
  Obj.wf catalogDeps = true ->
  Obj.get dep catalogDeps = Some version ->
  (forall e, In e after -> Obj.has dep (snd e) = false) ->
  exists info,
    getCatalogPackageInfo options pkgPath w = (Ok (Some info), w')
    /\ Obj.get dep (sectionOf (pi_pkg info) "dependencies") = Some version
    /\ getIn ["dependencies"; dep] (pi_pkgFile info) = Some (VStr version).
Proof.
  intros Hp Hread W Hg Hafter. unfold getCatalogPackageInfo.
  rewrite Hp. cbn [negb]. unfold ioBind. rewrite Hread.
  unfold ioRet. eexists. split; [reflexivity|].
  assert (E : Obj.get dep
                (fold_left Obj.assign
                   (Obj.values (before ++ (catalogName, catalogDeps) :: after)) [])
              = Some version).
  { unfold Obj.values. rewrite map_app. cbn [map snd].
    apply fold_assign_last; try assumption.
    apply (values_after after (fun o => Obj.has dep o = false) Hafter). }
  cbn [pi_pkg pi_pkgFile]. split.
  - unfold sectionOf. cbn [pkg_sections Obj.get].
    change (String.eqb "dependencies" "dependencies") with true. cbv iota.
    exact E.
  - unfold JSON.stringify. cbn [printed tree getIn Obj.get].
    change (String.eqb "dependencies" "name") with false.
    change (String.eqb "dependencies" "version") with false.
    change (String.eqb "dependencies" "dependencies") with true. cbv iota.
    pose proof (getIn_specsDocument
                  (fold_left Obj.assign
                     (Obj.values (before ++ (catalogName, catalogDeps) :: after)) [])
                  dep) as Hd.
    cbn [getIn] in Hd. rewrite Hd, E. reflexivity.
Qed.

Lemma synthetic_catalog_package_holds_the_last_definition_witness :
  exists info,
    getCatalogPackageInfo (runOptions None) "package.json" twoReactsWorld
    = (Ok (Some info), logEvent (EvRead "package.json") twoReactsWorld)
    /\ Obj.get "react" (sectionOf (pi_pkg info) "dependencies") = Some "18.0.0"
    /\ getIn ["dependencies"; "react"] (pi_pkgFile info) = Some (VStr "18.0.0").
Proof.
  apply (synthetic_catalog_package_holds_the_last_definition (runOptions None)
           "package.json" twoReactsWorld
           (logEvent (EvRead "package.json") twoReactsWorld)
           [("web", [("react", "17.0.0")])] [] "mobile" [("react", "18.0.0")]
           "react" "18.0.0"); try reflexivity.
  intros e [].
Defined.

(* ================================================================== *)
(** * Properties of upgradePackageData and of escapeRegexp *)
(* ================================================================== *)

(** X28.  escapeRegexp turns every string into a pattern that stands for that
    string: each character of the class is escaped, and read back as a
    pattern the result is the string it came from. *)
Theorem escapeRegexp_makes_a_literal_pattern (s : string) :
  literalOf (escapeRegexp s) = Some s.
Proof.
  induction s as [|a r IH]; [reflexivity|]. cbn [escapeRegexp].
  destruct (regexpSpecial a) eqn:E.
  - cbn [literalOf]. change (Ascii.eqb "\" "\") with true. cbv iota.
    now rewrite E, IH.
  - cbn [literalOf]. rewrite E.
    destruct (Ascii.eqb_spec a "\"%char) as [->|N]; [discriminate E|].
    now rewrite IH.
Qed.

Lemma startsWith_app (p r : string) : startsWith (p ++ r) p = true.
Proof.
  induction p as [|a p IH]; [now destruct r|].
  simpl. now rewrite Ascii.eqb_refl.
Qed.

Lemma substring_app_drop (p r : string) :
  String.substring (String.length p)
    (String.length (p ++ r) - String.length p) (p ++ r) = r.
Proof.
  induction p as [|a p IH]; simpl.
  - rewrite Nat.sub_0_r. induction r as [|b r IHr]; [reflexivity|].
    simpl. now rewrite IHr.
  - exact IH.
Qed.

(** The marker [#catalog:] is found where it was appended to a text that
    has no [#]. *)
Lemma splitAtFirst_marker (before after : string) :
  lacks "#" before = true ->
  splitAtFirst "#catalog:" (before ++ "#catalog:" ++ after)
  = Some (before, after).
Proof.
  induction before as [|a r IH]; intros H.
  - change ("" ++ "#catalog:" ++ after)%string with ("#catalog:" ++ after)%string.
    assert (E : splitAtFirst "#catalog:" ("#catalog:" ++ after)
                = Some (EmptyString,
                        String.substring (String.length "#catalog:")
                          (String.length ("#catalog:" ++ after)
                           - String.length "#catalog:")
                          ("#catalog:" ++ after))).
    { change ("#catalog:" ++ after)%string
        with (String "#"%char ("catalog:" ++ after)).
      cbn [splitAtFirst].
      change (String "#"%char ("catalog:" ++ after))
        with ("#catalog:" ++ after)%string.
      now rewrite startsWith_app. }
    rewrite E. now rewrite substring_app_drop.
  - simpl in H. apply andb_true_iff in H as [H1 H2]. apply negb_true_iff in H1.
    change ((String a r) ++ "#catalog:" ++ after)%string
      with (String a (r ++ "#catalog:" ++ after)).
    cbn [splitAtFirst].
    assert (S : startsWith (String a (r ++ "#catalog:" ++ after)) "#catalog:" = false).
    { cbn [startsWith]. rewrite Ascii.eqb_sym, H1. reflexivity. }
    rewrite S. now rewrite IH.
Qed.

Lemma afterLine_of_a_line (s : string) : lineOf s = s -> afterLine s = EmptyString.
Proof.
  induction s as [|a r IH]; [reflexivity|]. simpl.
  destruct (isLineTerminator a); [discriminate|].
  intros [= H]. now apply IH.
Qed.

Lemma append_empty (s : string) : (s ++ "")%string = s.
Proof. induction s as [|a r IH]; [reflexivity|]. simpl. now rewrite IH. Qed.

Lemma truthyStr_app_marker (a b : string) :
  truthyStr (a ++ "#catalog:" ++ b) = true.
Proof. now destruct a. Qed.

(** The extension of a path whose base name is [pnpm-workspace.yaml] is
    not [.json]. *)
Lemma pnpm_workspace_is_no_json (p : string) :
  extname p = ".json" -> String.eqb (basename p) "pnpm-workspace.yaml" = false.
Proof.
  unfold extname. destruct (String.eqb_spec (basename p) "pnpm-workspace.yaml")
    as [->|N]; [|reflexivity].
  discriminate.
Qed.

Section PackageDataProperties.

Variable arrayNameIsSynthetic : list value -> bool.
Variable rewriteSyntheticCatalogs : string -> Index string -> IO Text.
Variable rewriteSections :
  Text -> Index string -> Index string -> Options -> outcome Text.

(** X29.  A package file given as the path of a JSON file followed by
    [#catalog:] and a catalog name: upgradePackageData reads that JSON
    file and returns its content with the named catalog patched; the
    package data it was given plays no part. *)
Theorem catalog_path_patches_the_named_catalog_of_the_file
    (pkgData : Text) (current upgraded : Index string) (options : Options)
    (actualFilePath catalogName : string) (w : World) :
  Obj.isEmpty upgraded = false ->
  lacks "#" actualFilePath = true ->
  lineOf catalogName = catalogName ->
  extname actualFilePath = ".json" ->
  upgradePackageData
    (applyUpgrades arrayNameIsSynthetic rewriteSyntheticCatalogs rewriteSections)
    pkgData current upgraded options
    (Some (actualFilePath ++ "#catalog:" ++ catalogName)%string) w
  = patchCatalogFile actualFilePath catalogName current upgraded w.
Proof.
  intros Hup Hlacks Hline Hext. unfold upgradePackageData. rewrite Hup.
  unfold applyUpgrades. rewrite truthyStr_app_marker. cbn [negb].
  rewrite splitAtFirst_marker by assumption.
  rewrite (afterLine_of_a_line _ Hline), append_empty, Hline, Hext.
  change (String.eqb ".json" ".json") with true. cbv iota.
  unfold patchCatalogFile. now rewrite Hext.
Qed.

(** X30.  A JSON package file whose data has a catalog: upgradePackageData
    returns the content of the file with the catalog named [default]
    patched, and does not rewrite the dependency sections.  The pure
    patcher takes [default] for the name of a named catalog; so when the
    file has no entry of the upgraded dependencies under
    [catalogs.default], the text returned is the file as it is. *)
Theorem json_package_file_with_catalogs_is_patched_as_default
    (pkgData : Text) (current upgraded : Index string) (options : Options)
    (pkgFile : string) (w : World) :
  Obj.isEmpty upgraded = false ->
  truthyStr pkgFile = true ->
  includes pkgFile "#catalog:" = false ->
  extname pkgFile = ".json" ->
  obind (JSON.parse pkgData) hasCatalogs = Ok true ->
  upgradePackageData
    (applyUpgrades arrayNameIsSynthetic rewriteSyntheticCatalogs rewriteSections)
    pkgData current upgraded options (Some pkgFile) w
  = patchCatalogFile pkgFile "default" current upgraded w
  /\ forall fileContent,
       Obj.get pkgFile (files w) = Some fileContent ->
       (forall dep, Obj.has dep upgraded = true ->
                    jsonTarget fileContent "default" dep = None) ->
       upgradePackageData
         (applyUpgrades arrayNameIsSynthetic rewriteSyntheticCatalogs
            rewriteSections)
         pkgData current upgraded options (Some pkgFile) w
       = (Ok fileContent, logEvent (EvRead pkgFile) w).
Proof.
  intros Hup Ht Hinc Hext Hcat.
  assert (E : upgradePackageData
                (applyUpgrades arrayNameIsSynthetic rewriteSyntheticCatalogs
                   rewriteSections)
                pkgData current upgraded options (Some pkgFile) w
              = patchCatalogFile pkgFile "default" current upgraded w).
  { unfold upgradePackageData. rewrite Hup. unfold applyUpgrades.
    rewrite Ht. cbn [negb]. unfold includes in Hinc.
    destruct (splitAtFirst "#catalog:" pkgFile) as [[b a]|]; [discriminate|].
    rewrite (pnpm_workspace_is_no_json _ Hext), Hext.
    change (String.eqb ".json" ".json") with true. cbv iota.
    unfold ioBind at 1. unfold ioLift at 1. rewrite Hcat.
    unfold patchCatalogFile. now rewrite Hext. }
  split; [exact E|].
  intros fileContent Hfile Hnone. rewrite E.
  unfold patchCatalogFile, ioBind, readFile, ioLift. rewrite Hfile, Hext.
  unfold Pure.upgradeCatalogData.
  change (String.eqb ".json" ".yaml" || String.eqb ".json" ".yml") with false.
  change (String.eqb ".json" ".json") with true. cbv iota.
  unfold Pure.upgradeJsonCatalogData, parseTree.
  rewrite foldOutcome_fixed; [reflexivity|].
  intros [dep v] Hin. rewrite jsonStep_spec.
  - rewrite (Hnone dep) by apply (In_has _ _ _ Hin).
    now destruct (strictEq (Obj.get dep current) v).
  - intros q _ Hq. unfold exists_at in Hq. now destruct (getIn q fileContent).
Qed.

End PackageDataProperties.

Lemma catalog_path_patches_the_named_catalog_of_the_file_witness :
  upgradePackageData
    (applyUpgrades (fun _ => false) (fun _ _ => ioRet (printed VNull))
       (fun pkgData _ _ _ => Ok pkgData))
    (printed VNull) [("axios", "1.0.0")] [("axios", "1.2.0")] (runOptions None)
    (Some ("package.json" ++ "#catalog:" ++ "mobile")%string)
    {| files := [("package.json", namedJson (catalogOf "react" "17.0.0") "1.0.0")];
       trace := [] |}
  = patchCatalogFile "package.json" "mobile"
      [("axios", "1.0.0")] [("axios", "1.2.0")]
      {| files := [("package.json", namedJson (catalogOf "react" "17.0.0") "1.0.0")];
         trace := [] |}.
Proof.
  apply (catalog_path_patches_the_named_catalog_of_the_file
           (fun _ => false) (fun _ _ => ioRet (printed VNull))
           (fun pkgData _ _ _ => Ok pkgData)
           (printed VNull) [("axios", "1.0.0")] [("axios", "1.2.0")] (runOptions None)
           "package.json" "mobile"); reflexivity.
Defined.

Lemma json_package_file_with_catalogs_is_patched_as_default_witness :
  upgradePackageData
    (applyUpgrades (fun _ => false) (fun _ _ => ioRet (printed VNull))
       (fun pkgData _ _ _ => Ok pkgData))
    (lodashJson "4.17.20") [("lodash", "4.17.20")] [("lodash", "4.17.21")]
    (runOptions None) (Some "package.json") lodashBunWorld
  = patchCatalogFile "package.json" "default"
      [("lodash", "4.17.20")] [("lodash", "4.17.21")] lodashBunWorld
  /\ forall fileContent,
       Obj.get "package.json" (files lodashBunWorld) = Some fileContent ->
       (forall dep, Obj.has dep [("lodash", "4.17.21")] = true ->
                    jsonTarget fileContent "default" dep = None) ->
       upgradePackageData
         (applyUpgrades (fun _ => false) (fun _ _ => ioRet (printed VNull))
            (fun pkgData _ _ _ => Ok pkgData))
         (lodashJson "4.17.20") [("lodash", "4.17.20")] [("lodash", "4.17.21")]
         (runOptions None) (Some "package.json") lodashBunWorld
       = (Ok fileContent, logEvent (EvRead "package.json") lodashBunWorld).
Proof.
  apply (json_package_file_with_catalogs_is_patched_as_default
           (fun _ => false) (fun _ _ => ioRet (printed VNull))
           (fun pkgData _ _ _ => Ok pkgData)
           (lodashJson "4.17.20") [("lodash", "4.17.20")] [("lodash", "4.17.21")]
           (runOptions None) "package.json" lodashBunWorld); reflexivity.
Defined.

(* ================================================================== *)
(** * The order of the operations *)
(* ================================================================== *)

Lemma set_set_comm {A} (k k' : string) (v v' : A) (o : Index A) :
  k <> k' -> Obj.has k o = true -> Obj.has k' o = true ->
  Obj.set k v (Obj.set k' v' o) = Obj.set k' v' (Obj.set k v o).
Proof.
  intros N. unfold Obj.has.
  induction o as [|[k0 v0] r IH]; simpl; [discriminate|].
  destruct (String.eqb_spec k k0) as [E|E]; destruct (String.eqb_spec k' k0) as [E'|E'].
  - congruence.
  - intros _ H'. subst k0. simpl. rewrite String.eqb_refl.
    apply String.eqb_neq in E'. now rewrite E'.
  - intros H _. subst k0. simpl. rewrite String.eqb_refl.
    apply String.eqb_neq in E. now rewrite E.
  - intros H H'. simpl.
    apply String.eqb_neq in E. apply String.eqb_neq in E'. rewrite E, E'.
    f_equal. now apply IH.
Qed.

(** Two sets at places that part ways, both defined, can be made in
    either order. *)
Lemma setIn_comm (p : list string) :
  forall (q : list string) (v v' : value) (d : value),
    diverge p q = true ->
    getIn p d <> None -> getIn q d <> None ->
    (let? d1 := setIn p v d in setIn q v' d1)
    = (let? d2 := setIn q v' d in setIn p v d2).
Proof.
  induction p as [|k p IH]; intros q v v' d Hd Hp Hq; [discriminate|].
  destruct q as [|k' q]; [discriminate|].
  destruct d as [| | | | |ms]; try now destruct Hp.
  cbn [getIn] in Hp, Hq. cbn [setIn].
  destruct (Obj.get k ms) as [c|] eqn:Ek; [|now destruct Hp].
  destruct (Obj.get k' ms) as [c'|] eqn:Ek'; [|now destruct Hq].
  simpl in Hd. destruct (String.eqb_spec k k') as [<-|N].
  - rewrite Ek in Ek'. injection Ek' as <-.
    specialize (IH q v v' c Hd Hp Hq).
    destruct (setIn_defined p v c Hp) as [c1 Hc1].
    destruct (setIn_defined q v' c Hq) as [c2 Hc2].
    rewrite Hc1, Hc2 in *. cbn [obind] in *. cbn [setIn].
    rewrite !get_set_eq.
    destruct (setIn q v' c1) as [c12|]; destruct (setIn p v c2) as [c21|];
      cbn [obind] in *; try discriminate; try exact IH.
    injection IH as <-. now rewrite !set_set_same.
  - destruct (setIn_defined p v c Hp) as [c1 Hc1].
    destruct (setIn_defined q v' c' Hq) as [c2 Hc2].
    rewrite Hc1, Hc2. cbn [obind setIn].
    rewrite (get_set_neq k' k) by congruence.
    rewrite (get_set_neq k k') by congruence.
    rewrite Ek, Ek', Hc1, Hc2. cbn [obind]. f_equal. f_equal.
    symmetry. apply set_set_comm; [assumption| |]; unfold Obj.has.
    + now rewrite Ek.
    + now rewrite Ek'.
Qed.

Lemma setIfPresent_comm (p q : list string) (v v' : string) (d : value) :
  diverge p q = true ->
  (let? d1 := setIfPresent p v d in setIfPresent q v' d1)
  = (let? d2 := setIfPresent q v' d in setIfPresent p v d2).
Proof.
  intros Hd.
  assert (Hd' : diverge q p = true) by now rewrite diverge_sym.
  unfold setIfPresent.
  destruct (getIn p d) as [x|] eqn:Ep; destruct (getIn q d) as [y|] eqn:Eq.
  - destruct (setIn_defined p (VStr v) d) as [d1 H1]; [congruence|].
    destruct (setIn_defined q (VStr v') d) as [d2 H2]; [congruence|].
    pose proof (setIn_comm p q (VStr v) (VStr v') d Hd) as Hc.
    rewrite H1, H2 in *. cbn [obind] in *.
    rewrite (getIn_setIn_diverge _ _ _ _ _ Hd H1), Eq.
    rewrite (getIn_setIn_diverge _ _ _ _ _ Hd' H2), Ep.
    apply Hc; congruence.
  - destruct (setIn_defined p (VStr v) d) as [d1 H1]; [congruence|].
    rewrite H1. cbn [obind].
    rewrite (getIn_setIn_diverge _ _ _ _ _ Hd H1), Eq, Ep. now rewrite H1.
  - destruct (setIn_defined q (VStr v') d) as [d2 H2]; [congruence|].
    rewrite H2. cbn [obind].
    rewrite (getIn_setIn_diverge _ _ _ _ _ Hd' H2), Eq, Ep. now rewrite H2.
  - cbn [obind]. now rewrite Ep, Eq.
Qed.

Lemma setPaths_setIfPresent_comm (ps : list (list string)) (q : list string)
    (v v' : string) :
  forall d,
    (forall p, In p ps -> diverge p q = true) ->
    (let? d1 := setPaths ps v d in setIfPresent q v' d1)
    = (let? d2 := setIfPresent q v' d in setPaths ps v d2).
Proof.
  unfold setPaths. induction ps as [|p r IH]; cbn [foldOutcome]; intros d H.
  - cbn [obind]. now destruct (setIfPresent q v' d).
  - destruct (setIfPresent_defined p v d) as [d1 H1]. rewrite H1. cbn [obind].
    rewrite IH by (intros p' Hp'; apply H; now right).
    pose proof (setIfPresent_comm p q v v' d (H p (or_introl eq_refl))) as Hc.
    rewrite H1 in Hc. cbn [obind] in Hc. rewrite Hc.
    now destruct (setIfPresent q v' d) as [d2|].
Qed.

Lemma setPaths_comm (ps qs : list (list string)) (v v' : string) :
  forall d,
    (forall p q, In p ps -> In q qs -> diverge p q = true) ->
    (let? d1 := setPaths ps v d in setPaths qs v' d1)
    = (let? d2 := setPaths qs v' d in setPaths ps v d2).
Proof.
  induction qs as [|q r IH]; intros d H.
  - unfold setPaths at 2 3. cbn [foldOutcome obind].
    now destruct (setPaths ps v d).
  - destruct (setPaths_defined ps v d) as [d1 H1]. rewrite H1. cbn [obind].
    unfold setPaths at 1 2. cbn [foldOutcome]. fold (setPaths r v').
    pose proof (setPaths_setIfPresent_comm ps q v v' d
                  (fun p Hp => H p q Hp (or_introl eq_refl))) as Hc.
    rewrite H1 in Hc. cbn [obind] in Hc. rewrite Hc.
    destruct (setIfPresent q v' d) as [d2|]; [|reflexivity]. cbn [obind].
    specialize (IH d2 (fun p q' Hp Hq' => H p q' Hp (or_intror Hq'))).
    destruct (setPaths ps v d2) as [d3|]; cbn [obind] in *; [exact IH|].
    destruct (setPaths_defined ps v d2) as [d3 H3].
    fold (setPaths ps v d2) in *. congruence.
Qed.

Lemma wf_NoDup {A} (o : Index A) : Obj.wf o = true <-> NoDup (Obj.keys o).
Proof.
  induction o as [|[k v] r IH]; simpl.
  - split; [constructor | reflexivity].
  - rewrite andb_true_iff, negb_true_iff, IH. split.
    + intros [H1 H2]. constructor; [|assumption].
      intros Hin. apply in_map_iff in Hin as ([k' v'] & E & Hin). simpl in E. subst k'.
      now rewrite (In_has _ _ _ Hin) in H1.
    + intros H. inversion H as [|? ? H1 H2]; subst. split; [|assumption].
      destruct (Obj.has k r) eqn:E; [|reflexivity]. exfalso. apply H1.
      unfold Obj.has in E. destruct (Obj.get k r) as [x|] eqn:G; [|discriminate].
      apply get_In in G. apply in_map_iff. now exists (k, x).
Qed.

Lemma wf_Permutation {A} (o o' : Index A) :
  Permutation o o' -> Obj.wf o = true -> Obj.wf o' = true.
Proof.
  intros P W. apply wf_NoDup. apply wf_NoDup in W.
  apply (Permutation_NoDup (Permutation_map fst P) W).
Qed.

Lemma Permutation_filter_same {A} (f : A -> bool) (l l' : list A) :
  Permutation l l' -> Permutation (filter f l) (filter f l').
Proof.
  induction 1 as [|x l l' P IH|x y l|l l' l'' P1 IH1 P2 IH2]; simpl.
  - constructor.
  - destruct (f x); [now constructor | assumption].
  - destruct (f x), (f y); try apply Permutation_refl. apply perm_swap.
  - now apply (Permutation_trans IH1).
Qed.

(** Two steps of the YAML patcher for different dependencies can be made
    in either order. *)
Lemma yamlStep_comm (catalogName : string) (d : value) (e e' : string * string) :
  fst e <> fst e' ->
  (let? d1 := Pure.yamlStep catalogName d e in Pure.yamlStep catalogName d1 e')
  = (let? d2 := Pure.yamlStep catalogName d e' in Pure.yamlStep catalogName d2 e).
Proof.
  destruct e as [dep v], e' as [dep' v']. cbn [fst]. intros N.
  rewrite (yamlStep_setPaths catalogName d dep v).
  rewrite (yamlStep_setPaths catalogName d dep' v').
  pose proof (setPaths_comm (yamlPaths catalogName dep) (yamlPaths catalogName dep')
                v v' d (fun p q Hp Hq => yamlPaths_diverge _ _ _ _ _ N Hp Hq)) as Hc.
  destruct (setPaths (yamlPaths catalogName dep) v d) as [d1|] eqn:E1;
    destruct (setPaths (yamlPaths catalogName dep') v' d) as [d2|] eqn:E2;
    cbn [obind] in *; rewrite ?yamlStep_setPaths; assumption.
Qed.

Lemma yamlRun_Permutation (catalogName : string) (ops ops' : Index string) :
  Permutation ops ops' ->
  Obj.wf ops = true ->
  forall d,
    foldOutcome (Pure.yamlStep catalogName) ops d
    = foldOutcome (Pure.yamlStep catalogName) ops' d.
Proof.
  induction 1 as [|x l l' P IH|x y l|l l' l'' P1 IH1 P2 IH2]; intros W d.
  - reflexivity.
  - cbn [foldOutcome]. destruct (Pure.yamlStep catalogName d x); [|reflexivity].
    cbn [obind]. apply IH. apply (wf_tail _ _ W).
  - cbn [foldOutcome].
    assert (N : fst y <> fst x).
    { apply not_eq_sym. apply (wf_head_fresh _ _ W). now left. }
    pose proof (yamlStep_comm catalogName d y x N) as Hc.
    destruct (Pure.yamlStep catalogName d y) as [d1|];
      destruct (Pure.yamlStep catalogName d x) as [d2|]; cbn [obind] in *.
    + now rewrite Hc.
    + now rewrite Hc.
    + now rewrite <- Hc.
    + exact Hc.
  - rewrite IH1 by assumption. apply IH2. apply (wf_Permutation _ _ P1 W).
Qed.

(** Two edits of a text at places that part ways, both defined, can be
    made in either order. *)
Lemma setText_comm (p q : list string) (v v' : string) (d : Text) :
  diverge p q = true ->
  getIn p d <> None -> getIn q d <> None ->
  (let? d1 := setText p v d in setText q v' d1)
  = (let? d2 := setText q v' d in setText p v d2).
Proof.
  intros Hd Hp Hq.
  pose proof (setIn_comm p q (VStr v) (VStr v') d Hd Hp Hq) as Hc.
  unfold setText.
  destruct (setIn_defined p (VStr v) d Hp) as [t1 H1].
  destruct (setIn_defined q (VStr v') d Hq) as [t2 H2].
  rewrite H1, H2 in *. cbn [obind withTree tree indentation relaxed] in *.
  destruct (setIn q (VStr v') t1) as [t12|]; destruct (setIn p (VStr v) t2) as [t21|];
    cbn [obind] in *; try discriminate Hc; now injection Hc as <-.
Qed.

(** The steps of the JSON patcher, on a content that still has the places
    that the parsed tree has for the operations. *)
Section JsonOrder.

Variables (fileRoot : value) (catalogName : string) (current : Index string).

Lemma jsonStep_still (content : Text) (e : string * string) :
  stillThere fileRoot catalogName [e] content ->
  Pure.jsonStep fileRoot catalogName current content e
  = if strictEq (Obj.get (fst e) current) (snd e) then Ok content
    else match jsonTarget fileRoot catalogName (fst e) with
         | Some target => setText target (snd e) content
         | None => Ok content
         end.
Proof.
  intros H. destruct e as [dep v]. apply jsonStep_spec.
  intros q Hq. apply (H (dep, v)); [now left | assumption].
Qed.

(** A step keeps the places of the other dependencies. *)
Lemma jsonStep_keeps (content content' : Text) (e : string * string)
    (ops : Index string) :
  stillThere fileRoot catalogName [e] content ->
  (forall e', In e' ops -> fst e' <> fst e) ->
  Pure.jsonStep fileRoot catalogName current content e = Ok content' ->
  stillThere fileRoot catalogName ops content ->
  stillThere fileRoot catalogName ops content'.
Proof.
  intros He Hfresh Hstep Hops e' q He' Hq Hex.
  rewrite jsonStep_still in Hstep by assumption.
  destruct (strictEq _ _); [injection Hstep as <-; now apply (Hops e')|].
  destruct (jsonTarget fileRoot catalogName (fst e)) as [target|] eqn:Et;
    [|injection Hstep as <-; now apply (Hops e')].
  rewrite (getIn_setText_diverge target (snd e) q content content');
    [now apply (Hops e') | | assumption].
  apply (jsonPaths_diverge catalogName (fst e) (fst e')); try assumption.
  - apply not_eq_sym. now apply Hfresh.
  - apply (jsonTarget_In _ _ _ _ Et).
Qed.

Lemma stillThere_sub (ops ops' : Index string) (content : Text) :
  (forall e, In e ops' -> In e ops) ->
  stillThere fileRoot catalogName ops content -> stillThere fileRoot catalogName ops' content.
Proof. intros Hsub H e q He. apply H. now apply Hsub. Qed.

Lemma jsonStep_comm (content : Text) (x y : string * string) :
  fst x <> fst y ->
  stillThere fileRoot catalogName [x; y] content ->
  (let? c1 := Pure.jsonStep fileRoot catalogName current content x in
   Pure.jsonStep fileRoot catalogName current c1 y)
  = (let? c2 := Pure.jsonStep fileRoot catalogName current content y in
     Pure.jsonStep fileRoot catalogName current c2 x).
Proof.
  intros N H.
  assert (Hx : stillThere fileRoot catalogName [x] content).
  { apply (stillThere_sub [x; y]); [|assumption]. intros e [<-|[]]. now left. }
  assert (Hy : stillThere fileRoot catalogName [y] content).
  { apply (stillThere_sub [x; y]); [|assumption]. intros e [<-|[]]. right. now left. }
  assert (Kx : forall c', Pure.jsonStep fileRoot catalogName current content y = Ok c' ->
                          stillThere fileRoot catalogName [x] c').
  { intros c' Hs. apply (jsonStep_keeps content c' y [x] Hy); [|assumption|assumption].
    intros e' [<-|[]]. assumption. }
  assert (Ky : forall c', Pure.jsonStep fileRoot catalogName current content x = Ok c' ->
                          stillThere fileRoot catalogName [y] c').
  { intros c' Hs. apply (jsonStep_keeps content c' x [y] Hx); [|assumption|assumption].
    intros e' [<-|[]]. now apply not_eq_sym. }
  destruct (Pure.jsonStep fileRoot catalogName current content x) as [c1|ex] eqn:Ex;
    destruct (Pure.jsonStep fileRoot catalogName current content y) as [c2|ey] eqn:Ey;
    cbn [obind].
  - rewrite (jsonStep_still c1 y (Ky c1 eq_refl)).
    rewrite (jsonStep_still c2 x (Kx c2 eq_refl)).
    rewrite (jsonStep_still content x Hx) in Ex.
    rewrite (jsonStep_still content y Hy) in Ey.
    destruct (strictEq (Obj.get (fst x) current) (snd x)).
    { injection Ex as <-.
      destruct (strictEq (Obj.get (fst y) current) (snd y)); [congruence|].
      now destruct (jsonTarget fileRoot catalogName (fst y)). }
    destruct (jsonTarget fileRoot catalogName (fst x)) as [tx|] eqn:Etx.
    2:{ injection Ex as <-.
        destruct (strictEq (Obj.get (fst y) current) (snd y)); [congruence|].
        now destruct (jsonTarget fileRoot catalogName (fst y)). }
    destruct (strictEq (Obj.get (fst y) current) (snd y)).
    { injection Ey as <-. now rewrite Ex. }
    destruct (jsonTarget fileRoot catalogName (fst y)) as [ty|] eqn:Ety.
    2:{ injection Ey as <-. now rewrite Ex. }
    destruct (jsonTarget_In _ _ _ _ Etx) as [Inx Exx].
    destruct (jsonTarget_In _ _ _ _ Ety) as [Iny Exy].
    pose proof (setText_comm tx ty (snd x) (snd y) content
                  (jsonPaths_diverge _ _ _ _ _ N Inx Iny)) as Hc.
    rewrite Ex, Ey in Hc. cbn [obind] in Hc. apply Hc.
    + apply (Hx x tx); [now left | assumption | assumption].
    + apply (Hy y ty); [now left | assumption | assumption].
  - exfalso.
    rewrite (jsonStep_still content y Hy) in Ey.
    destruct (strictEq _ _); [discriminate|].
    destruct (jsonTarget fileRoot catalogName (fst y)) as [ty|] eqn:Ety;
      [|discriminate].
    destruct (jsonTarget_In _ _ _ _ Ety) as [Iny Exy].
    destruct (setText_defined ty (snd y) content) as [c' Hc'];
      [|congruence].
    apply (Hy y ty); [now left | assumption | assumption].
  - exfalso.
    rewrite (jsonStep_still content x Hx) in Ex.
    destruct (strictEq _ _); [discriminate|].
    destruct (jsonTarget fileRoot catalogName (fst x)) as [tx|] eqn:Etx;
      [|discriminate].
    destruct (jsonTarget_In _ _ _ _ Etx) as [Inx Exx].
    destruct (setText_defined tx (snd x) content) as [c' Hc'];
      [|congruence].
    apply (Hx x tx); [now left | assumption | assumption].
  - exfalso.
    rewrite (jsonStep_still content x Hx) in Ex.
    destruct (strictEq _ _); [discriminate|].
    destruct (jsonTarget fileRoot catalogName (fst x)) as [tx|] eqn:Etx;
      [|discriminate].
    destruct (jsonTarget_In _ _ _ _ Etx) as [Inx Exx].
    destruct (setText_defined tx (snd x) content) as [c' Hc'];
      [|congruence].
    apply (Hx x tx); [now left | assumption | assumption].
Qed.

Lemma jsonRun_Permutation (ops ops' : Index string) :
  Permutation ops ops' ->
  Obj.wf ops = true ->
  forall content : Text,
    stillThere fileRoot catalogName ops content ->
    foldOutcome (Pure.jsonStep fileRoot catalogName current) ops content
    = foldOutcome (Pure.jsonStep fileRoot catalogName current) ops' content.
Proof.
  induction 1 as [|x l l' P IH|x y l|l l' l'' P1 IH1 P2 IH2]; intros W content H.
  - reflexivity.
  - cbn [foldOutcome].
    destruct (Pure.jsonStep fileRoot catalogName current content x) as [c1|] eqn:E;
      [|reflexivity].
    cbn [obind]. apply IH; [apply (wf_tail _ _ W)|].
    apply (jsonStep_keeps content c1 x l); try assumption.
    + apply (stillThere_sub (x :: l)); [|assumption]. intros e [<-|[]]. now left.
    + intros e' He'. apply (wf_head_fresh _ _ W _ He').
    + apply (stillThere_sub (x :: l)); [|assumption]. intros e He. now right.
  - cbn [foldOutcome].
    assert (N : fst y <> fst x).
    { apply not_eq_sym. apply (wf_head_fresh _ _ W). now left. }
    pose proof (jsonStep_comm content y x N) as Hc.
    destruct (Pure.jsonStep fileRoot catalogName current content y) as [c1|];
      destruct (Pure.jsonStep fileRoot catalogName current content x) as [c2|];
      cbn [obind] in *.
    + rewrite Hc; [reflexivity|].
      apply (stillThere_sub (y :: x :: l)); [|assumption].
      intros e' [<-|[<-|[]]]; [now left | right; now left].
    + rewrite Hc; [reflexivity|].
      apply (stillThere_sub (y :: x :: l)); [|assumption].
      intros e' [<-|[<-|[]]]; [now left | right; now left].
    + rewrite <- Hc; [reflexivity|].
      apply (stillThere_sub (y :: x :: l)); [|assumption].
      intros e' [<-|[<-|[]]]; [now left | right; now left].
    + apply Hc. apply (stillThere_sub (y :: x :: l)); [|assumption].
      intros e' [<-|[<-|[]]]; [now left | right; now left].
  - rewrite IH1 by assumption. apply IH2; [apply (wf_Permutation _ _ P1 W)|].
    apply (stillThere_sub l); [|assumption].
    intros e He. apply (Permutation_in _ (Permutation_sym P1) He).
Qed.

End JsonOrder.

(** X14.  The patcher does not depend on the order in which the upgraded map
    lists its entries: two maps with the same entries give the same text,
    for a YAML file and for a JSON file. *)
Theorem patch_does_not_depend_on_the_order
    (fileContent : Text) (fileExtension catalogName : string)
    (current upgraded upgraded' : Index string) :
  Obj.wf upgraded = true ->
  Permutation upgraded upgraded' ->
  Pure.upgradeCatalogData fileContent fileExtension catalogName current upgraded
  = Pure.upgradeCatalogData fileContent fileExtension catalogName current upgraded'.
Proof.
  intros W P. unfold Pure.upgradeCatalogData.
  destruct (String.eqb fileExtension ".yaml" || String.eqb fileExtension ".yml").
  - unfold Pure.upgradeYamlCatalogData.
    rewrite (yamlRun_Permutation catalogName _ _
               (Permutation_filter_same
                  (fun e => truthyAt (fst e) current) _ _ P)
               (wf_filter _ _ W)).
    reflexivity.
  - destruct (String.eqb fileExtension ".json"); [|reflexivity].
    unfold Pure.upgradeJsonCatalogData, parseTree.
    apply jsonRun_Permutation; try assumption.
    intros e q _ _ Hex. unfold exists_at in Hex. now destruct (getIn q fileContent).
Qed.

Lemma patch_does_not_depend_on_the_order_witness :
  Pure.upgradeCatalogData (jsonDefaultCatalog "4.17.20" "1.0.0") ".json" ""
    [("lodash", "4.17.20"); ("left-pad", "1.0.0")]
    [("lodash", "4.17.21"); ("left-pad", "1.3.0")]
  = Pure.upgradeCatalogData (jsonDefaultCatalog "4.17.20" "1.0.0") ".json" ""
      [("lodash", "4.17.20"); ("left-pad", "1.0.0")]
      [("left-pad", "1.3.0"); ("lodash", "4.17.21")].
Proof.
  apply (patch_does_not_depend_on_the_order (jsonDefaultCatalog "4.17.20" "1.0.0")
           ".json" "" [("lodash", "4.17.20"); ("left-pad", "1.0.0")]
           [("lodash", "4.17.21"); ("left-pad", "1.3.0")]
           [("left-pad", "1.3.0"); ("lodash", "4.17.21")]).
  - reflexivity.
  - apply perm_swap.
Defined.

(* ================================================================== *)
(** * The earlier orchestration, once more *)
(* ================================================================== *)

Section EarlierOrchestration.

Variable upgradePackageDefinitions : Index string -> Options -> Index string.
Variables patchYaml patchJson : Text -> Index string -> Index string -> outcome Text.

Lemma writesWithin_flattened_upgradeCatalogData (allowed : list string)
    (filePath : string) (current upgraded : Index string) :
  writesWithin allowed
    (Flattened.upgradeCatalogData patchYaml patchJson filePath current upgraded).
Proof.
  unfold Flattened.upgradeCatalogData.
  destruct (_ || _).
  - apply writesWithin_bind; [apply writesWithin_readFile|].
    intros. apply writesWithin_lift.
  - destruct (String.eqb _ ".json"); [|apply writesWithin_lift].
    apply writesWithin_bind; [apply writesWithin_readFile|].
    intros. apply writesWithin_lift.
Qed.

(** X27.  The earlier processCatalogs, which flattens the catalogs, writes at
    most once in a run, and only to the catalog file; whatever the text
    transformations of its upgradeCatalogData do. *)
Theorem earlier_processCatalogs_writes_the_catalog_file_at_most_once
    (options : Options) (packageInfos : list PackageInfo)
    (catalogDependencies : option (Index (Index string))) :
  writesAtMost 1
    (Flattened.processCatalogs upgradePackageDefinitions patchYaml patchJson
       options packageInfos catalogDependencies)
  /\ writesWithin catalogFileNames
       (Flattened.processCatalogs upgradePackageDefinitions patchYaml patchJson
          options packageInfos catalogDependencies).
Proof.
  split; [apply flattened_processCatalogs_writes_at_most_once|].
  unfold Flattened.processCatalogs.
  destruct catalogDependencies as [cds|]; [|apply writesWithin_ret].
  destruct (Obj.isEmpty cds); [apply writesWithin_ret|].
  apply writesWithin_bind; [apply writesWithin_lift|].
  intros catalogReferences _.
  destruct (Obj.isEmpty (Flattened.referenced _ _)); [apply writesWithin_ret|].
  destruct (negb _); [|apply writesWithin_ret].
  apply writesWithin_bind; [apply writesWithin_findCatalogFile|].
  intros [path|] (w & w' & Hfound); [|apply writesWithin_ret].
  destruct (opt_upgrade options); [|apply writesWithin_ret].
  pose proof (findCatalogFile_names _ _ _ _ Hfound) as Hin.
  apply writesWithin_tryCatch.
  - apply writesWithin_bind; [apply writesWithin_flattened_upgradeCatalogData|].
    intros updatedContent _. now apply writesWithin_writeFile.
  - intros e. apply writesWithin_consoleError.
Qed.

End EarlierOrchestration.

Lemma earlier_processCatalogs_writes_the_catalog_file_at_most_once_witness :
  (exists evs,
      trace (snd earlierRun) = trace twoCatalogsWorld ++ evs
      /\ length (writesOf evs) <= 1)
  /\ exists evs,
       trace (snd earlierRun) = trace twoCatalogsWorld ++ evs
       /\ (forall p c, In (p, c) (writesOf evs) -> In p catalogFileNames)
       /\ (forall p, ~ In p catalogFileNames ->
                     Obj.get p (files (snd earlierRun))
                     = Obj.get p (files twoCatalogsWorld)).
Proof.
  destruct (earlier_processCatalogs_writes_the_catalog_file_at_most_once
              (desiredVersions [("axios", "1.2.0"); ("react", "18.0.0")])
              (fun fileContent _ _ => Ok fileContent)
              (fun fileContent _ _ => Ok fileContent)
              (runOptions (Some "pnpm")) twoCatalogsInfos
              (Some twoCatalogsDefinitions)) as [H1 H2].
  split.
  - apply (H1 twoCatalogsWorld (fst earlierRun) (snd earlierRun)). reflexivity.
  - apply (H2 twoCatalogsWorld (fst earlierRun) (snd earlierRun)). reflexivity.
Defined.
